(** * chasqui: a shallow embedding of the file server, the client transport
      and the client load engine

    The development follows the Go sources:
    - [fileserver/server.go]: [parseSize], [serveFile], the payload buffer;
    - [fileserver/client.go]: the checksum registry and [DownloadFile];
    - [fileserver/server.go], further: [init], [handleGetFile],
      [getCertName], [isAuthorized], [httpErrorf];
    - [client.go]: the size of the worker pool in [clientProcessLoadRequest],
      [clientVerifyLoadRequest], the emitter [clientEmitRequests] and the
      collector [clientCollectResponses];
    - the worker loop [clientWorker] and [processDownloadRequest];
    - [main.go]: [splitAndClean] and the load request of [driverRun].

    Conventions.  Go's [int], [int64] and [uint64] are integers of [Z] with
    the wrap-around written out where the code can reach it.  A Go [string]
    is a [string] (a sequence of 8-bit characters), a [[]byte] is a
    [list byte].  Go maps are [gmap]s.  An [error] value is a constructor of
    [error]; [nil] is [None]. *)

From Stdlib Require Import ZArith Strings.Ascii Strings.String Strings.Byte.
From stdpp Require Import gmap strings list fin_maps.

Open Scope Z_scope.

(* ===================================================================== *)
(** ** Machine integers *)
(* ===================================================================== *)

Definition maxUint64 : Z := 2 ^ 64 - 1.
Definition minInt64 : Z := - 2 ^ 63.
Definition maxInt64 : Z := 2 ^ 63 - 1.

(** Conversion of an integer to [int64] (and the result of [int64]
    arithmetic): reduction modulo 2^64 into the signed range. *)
Definition wrap64 (z : Z) : Z := (z + 2 ^ 63) mod 2 ^ 64 - 2 ^ 63.

(** Conversion to [uint64]. *)
Definition wrapU64 (z : Z) : Z := z mod 2 ^ 64.

(* ===================================================================== *)
(** ** Package [strings] *)
(* ===================================================================== *)

Definition is_upper (c : ascii) : bool :=
  (65 <=? nat_of_ascii c)%nat && (nat_of_ascii c <=? 90)%nat.

Definition lower_ascii (c : ascii) : ascii :=
  if is_upper c then ascii_of_nat (nat_of_ascii c + 32) else c.

(** [strings.ToLower] on the ASCII range: the letters [A]-[Z] are mapped to
    [a]-[z], every other byte is kept. *)
Fixpoint ToLower (s : string) : string :=
  match s with
  | EmptyString => EmptyString
  | String c s' => String (lower_ascii c) (ToLower s')
  end.

(** Two strings are equal under case-insensitive comparison when their
    lower-case forms coincide. *)
Definition EqualFold (s t : string) : Prop := ToLower s = ToLower t.

(** [strings.HasSuffix]:
    [len(s) >= len(suffix) && s[len(s)-len(suffix):] == suffix]. *)
Definition HasSuffix (s suffix : string) : bool :=
  (String.length suffix <=? String.length s)%nat &&
  String.eqb
    (substring (String.length s - String.length suffix)
               (String.length suffix) s)
    suffix.

(** The slice [s[:len(s)-1]]. *)
Definition dropLast (s : string) : string :=
  substring 0 (String.length s - 1) s.

(** [strings.Split(s, ",")] for a one-character separator: the result always
    holds at least one component (the empty string splits into [[""]]). *)
Fixpoint Split (s : string) (sep : ascii) : list string :=
  match s with
  | EmptyString => [EmptyString]
  | String c s' =>
      if Ascii.eqb c sep then EmptyString :: Split s' sep
      else match Split s' sep with
           | [] => [String c EmptyString]
           | w :: ws => String c w :: ws
           end
  end.

(* ===================================================================== *)
(** ** Package [strconv] *)
(* ===================================================================== *)

Inductive NumError : Type :=
| ErrSyntax
| ErrRange.

(** Value of a decimal digit; any other byte is a syntax error in base 10
    (letters denote digits of at least 10, the underscore is only allowed
    with base 0). *)
Definition digitVal (c : ascii) : option Z :=
  let n := nat_of_ascii c in
  if (48 <=? n)%nat && (n <=? 57)%nat then Some (Z.of_nat n - 48) else None.

(** The smallest number such that [cutoff * 10 > maxUint64]. *)
Definition cutoff10 : Z := maxUint64 / 10 + 1.

(** The digit loop of [strconv.ParseUint(s, 10, 64)] with accumulator [n]:
    the value and the error are both returned, as in Go ([0] with a syntax
    error, [maxUint64] with a range error). *)
Fixpoint parseUintLoop (s : string) (n : Z) : Z * option NumError :=
  match s with
  | EmptyString => (n, None)
  | String c s' =>
      match digitVal c with
      | None => (0, Some ErrSyntax)
      | Some d =>
          if cutoff10 <=? n then (maxUint64, Some ErrRange)
          else
            let n := wrapU64 (n * 10) in
            let n1 := wrapU64 (n + d) in
            if (n1 <? n) || (maxUint64 <? n1) then (maxUint64, Some ErrRange)
            else parseUintLoop s' n1
      end
  end.

Definition ParseUint (s : string) : Z * option NumError :=
  match s with
  | EmptyString => (0, Some ErrSyntax)
  | _ => parseUintLoop s 0
  end.

(** [strconv.ParseInt(s, 10, 64)]: an optional sign, then [ParseUint], then
    the range check against 2^63. *)
Definition ParseInt (s : string) : Z * option NumError :=
  match s with
  | EmptyString => (0, Some ErrSyntax)
  | String c s' =>
      let neg := Ascii.eqb c "-" in
      let s1 := if Ascii.eqb c "+" || neg then s' else s in
      let cutoff := 2 ^ 63 in
      match ParseUint s1 with
      | (_, Some ErrSyntax) => (0, Some ErrSyntax)
      | (un, _) =>
          if negb neg && (cutoff <=? un) then (cutoff - 1, Some ErrRange)
          else if neg && (cutoff <? un) then (- cutoff, Some ErrRange)
          else (if neg then - un else un, None)
      end
  end.

Definition digitChar (d : Z) : ascii := ascii_of_nat (48 + Z.to_nat d).

(** The digits of a non-negative number, least significant first, pushed in
    front of [acc]; twenty digits are enough for 64 bits. *)
Fixpoint formatBits (fuel : nat) (u : Z) (acc : string) : string :=
  match fuel with
  | O => acc
  | S fuel' =>
      let acc' := String (digitChar (u mod 10)) acc in
      if u <? 10 then acc' else formatBits fuel' (u / 10) acc'
  end.

(** [strconv.FormatInt(i, 10)], also the verb [%d] of [fmt.Sprintf]. *)
Definition FormatInt (i : Z) : string :=
  if i <? 0 then String "-" (formatBits 20 (- i) EmptyString)
  else formatBits 20 i EmptyString.

(* ===================================================================== *)
(** ** Package [encoding/hex] *)
(* ===================================================================== *)

Definition hextable : string := "0123456789abcdef".

Definition hexDigit (n : N) : ascii :=
  match String.get (N.to_nat n) hextable with
  | Some c => c
  | None => "0"%char
  end.

(** [hex.EncodeToString]: two lower-case digits for every byte. *)
Fixpoint EncodeToString (src : list byte) : string :=
  match src with
  | [] => EmptyString
  | b :: src' =>
      String (hexDigit (Byte.to_N b / 16))
        (String (hexDigit (Byte.to_N b mod 16)) (EncodeToString src'))
  end.

(* ===================================================================== *)
(** ** Errors *)
(* ===================================================================== *)

(** The errors the modelled code builds.  Each constructor stands for one
    [fmt.Errorf] or library error and carries the values that the message
    is formatted from. *)
Inductive error : Type :=
| ErrEmptySize                          (* "empty size is not valid" *)
| ErrNum (e : NumError)                 (* the error of strconv.ParseInt *)
| ErrInvalidFileSize (res : Z)          (* "invalid file size %d" *)
| ErrUnknownChecksum (name : string)    (* "unkown checksum algorithm %q" *)
| ErrInvalidChecksumKey (key : Z)       (* "invalid checksum algorithm %q" *)
| ErrUnsupportedChecksum (name : string)
                          (* "%q is not a supported checksum algorithm" *)
| ErrCopy (count : Z) (e : error)       (* "io.Copy error count=%d %s" *)
| ErrIO (msg : string)                  (* an error of the network or sink *)
| ErrShortWrite                         (* io.ErrShortWrite *)
| ErrEOF                                (* io.EOF *)
| ErrInvalidRequestedAlgorithm (algo : Z)
                          (* "invalid requested checksum algorithm %v" *)
| ErrDownloading (body : list byte)     (* "error downloading file: %q" *)
| ErrUnexpectedServerAlgorithm (serverAlgo : string)
                          (* "unexpected server algorithm %q" *)
| ErrMissingContentLength               (* "missing 'X-Content-Length' trailer" *)
| ErrBodyLength (bodyLength received : Z)
      (* "response body length %d does not match 'X-Content-Length' value %d" *)
| ErrMissingChecksumValue               (* "missing 'X-Checksum-Value' trailer" *)
| ErrChecksumMismatch (client server : string).
      (* "computed checksum (%s) and received checksum (%s) do not match" *)

(* ===================================================================== *)
(** ** [fileserver/server.go]: sizes *)
(* ===================================================================== *)

(** [KB int64 = 1 << (10 * iota)] and the constants that follow it. *)
Definition KB : Z := Z.shiftl 1 10.
Definition MB : Z := Z.shiftl 1 20.
Definition GB : Z := Z.shiftl 1 30.
Definition TB : Z := Z.shiftl 1 40.

(** Size of the buffer used to send the file contents to the client. *)
Definition bufferSize : Z := 1 * MB.

(** [parseSize] parses a string representing the file size and returns the
    value in bytes; [inl] is the value, [inr] the error. *)
Definition parseSize (sz : string) : Z + error :=
  if (String.length sz =? 0)%nat then inr ErrEmptySize
  else
    let '(factor, sz) :=
      if HasSuffix sz "K" then (KB, dropLast sz)
      else if HasSuffix sz "M" then (MB, dropLast sz)
      else if HasSuffix sz "G" then (GB, dropLast sz)
      else (1, sz) in
    match ParseInt sz with
    | (_, Some e) => inr (ErrNum e)
    | (res, None) =>
        let res := wrap64 (res * factor) in
        if (res <=? 0) || (TB <? res) then inr (ErrInvalidFileSize res)
        else inl res
    end.

(* ===================================================================== *)
(** ** Library functions taken as parameters *)
(* ===================================================================== *)

(** The digests of [crypto/sha256] and [crypto/sha512] (the value of
    [Sum(nil)] after the given bytes were written to a new hasher) and the
    quoting of the verb [%q].  Their code is outside the repository; nothing
    is assumed about them. *)
Class Library : Type := {
  sha256_Sum : list byte → list byte;
  sha512_Sum : list byte → list byte;
  Quote : string → string
}.

(* ===================================================================== *)
(** ** Package [hash] and [io] *)
(* ===================================================================== *)

(** A [hash.Hash]: the digest function and the bytes written so far. *)
Record Hash : Type := {
  h_sum : list byte → list byte;
  h_written : list byte
}.

Definition Hash_New (f : list byte → list byte) : Hash :=
  {| h_sum := f; h_written := [] |}.

Definition Hash_Write (h : Hash) (p : list byte) : Hash :=
  {| h_sum := h_sum h; h_written := h_written h ++ p |}.

(** [h.Sum(nil)]. *)
Definition Hash_Sum (h : Hash) : list byte := h_sum h (h_written h).

(** The writer side of an [io.TeeReader]: what is read is also written to
    the hasher, when there is one. *)
Definition tee_Write (tee : option Hash) (p : list byte) : option Hash :=
  match tee with
  | Some h => Some (Hash_Write h p)
  | None => None
  end.

(** An [io.Writer] (a sink or a connection): the bytes it has accepted, and
    how many more it accepts before its [Write] fails ([None]: it never
    fails, as [ioutil.Discard]). *)
Record Writer : Type := {
  wr_data : list byte;
  wr_room : option nat
}.

Definition Discard : Writer := {| wr_data := []; wr_room := None |}.

(** [w.Write(p)]: the new writer, the number of bytes written and the
    error. *)
Definition Writer_Write (w : Writer) (p : list byte)
  : Writer * Z * option error :=
  match wr_room w with
  | None =>
      ({| wr_data := wr_data w ++ p; wr_room := None |},
       Z.of_nat (length p), None)
  | Some k =>
      if (length p <=? k)%nat then
        ({| wr_data := wr_data w ++ p; wr_room := Some (k - length p)%nat |},
         Z.of_nat (length p), None)
      else
        ({| wr_data := wr_data w ++ take k p; wr_room := Some 0%nat |},
         Z.of_nat k, Some (ErrIO "write failed"))
  end.

(** The writer takes [k] more bytes without failing. *)
Definition accepts (w : Writer) (k : Z) : Prop :=
  match wr_room w with
  | None => True
  | Some room => k ≤ Z.of_nat room
  end.

(** An [io.Reader] that delivers data from outside (a response body): the
    chunks returned by the successive calls of [Read], then [io.EOF]
    ([None]) or an error. *)
Record Reader : Type := {
  rd_chunks : list (list byte);
  rd_err : option error
}.

(** [ioutil.ReadAll]: everything up to the end or the error. *)
Definition ReadAll (r : Reader) : list byte * option error :=
  (concat (rd_chunks r), rd_err r).

(** The outcome of [io.Copy]. *)
Record CopyResult : Type := {
  cr_dst : Writer;
  cr_tee : option Hash;
  cr_written : Z;
  cr_err : option error
}.

(** The loop of [io.Copy(dst, src)], [src] being the body or a tee of it:
    each chunk read goes through the tee and is written to [dst]; a failed
    or short write ends the copy, and so does the end of the body. *)
Fixpoint copyLoop (dst : Writer) (tee : option Hash)
    (chunks : list (list byte)) (rerr : option error) (written : Z)
  : CopyResult :=
  match chunks with
  | [] =>
      {| cr_dst := dst; cr_tee := tee; cr_written := written;
         cr_err := rerr |}
  | p :: chunks' =>
      let tee := tee_Write tee p in
      let '(dst, nw, ew) := Writer_Write dst p in
      let written := written + nw in
      match ew with
      | Some e =>
          {| cr_dst := dst; cr_tee := tee; cr_written := written;
             cr_err := Some e |}
      | None =>
          if negb (nw =? Z.of_nat (length p)) then
            {| cr_dst := dst; cr_tee := tee; cr_written := written;
               cr_err := Some ErrShortWrite |}
          else copyLoop dst tee chunks' rerr written
      end
  end.

Definition io_Copy (dst : Writer) (tee : option Hash) (src : Reader)
  : CopyResult :=
  copyLoop dst tee (rd_chunks src) (rd_err src) 0.

(** A [bytes.Reader]: the slice and the reading index. *)
Record BytesReader : Type := {
  r_s : list byte;
  r_i : nat
}.

Definition NewReader (b : list byte) : BytesReader := {| r_s := b; r_i := 0 |}.

Definition Reader_Len (r : BytesReader) : Z :=
  Z.of_nat (length (r_s r) - r_i r).

(** [rdr.Seek(0, 0)]. *)
Definition Reader_Seek0 (r : BytesReader) : BytesReader :=
  {| r_s := r_s r; r_i := 0 |}.

(* ===================================================================== *)
(** ** Package [net/http]: headers and the response writer *)
(* ===================================================================== *)

(** A [http.Header] or [url.Values]: keys to lists of values.  Every key the
    code uses is already in canonical form. *)
Abbreviation Header := (gmap string (list string)).

Definition Header_Get (h : Header) (key : string) : string :=
  match h !! key with
  | Some (v :: _) => v
  | _ => EmptyString
  end.

Definition Header_Set (h : Header) (key value : string) : Header :=
  <[key := [value]]> h.

Definition Header_Add (h : Header) (key value : string) : Header :=
  <[key := default [] (h !! key) ++ [value]]> h.

Definition StatusOK : Z := 200.
Definition StatusBadRequest : Z := 400.
Definition StatusInternalServerError : Z := 500.

(** A [http.ResponseWriter]: the header map of the handler, the status and
    the header that went out with the first [WriteHeader] (explicit or by
    the first [Write]), and the connection that carries the body. *)
Record ResponseWriter : Type := {
  rw_header : Header;
  rw_wrote : option (Z * Header);
  rw_conn : Writer
}.

Definition NewResponseWriter (conn : Writer) : ResponseWriter :=
  {| rw_header := ∅; rw_wrote := None; rw_conn := conn |}.

Definition rw_set_header (w : ResponseWriter) (h : Header) : ResponseWriter :=
  {| rw_header := h; rw_wrote := rw_wrote w; rw_conn := rw_conn w |}.

(** [w.WriteHeader(code)]: only the first call counts. *)
Definition WriteHeader (w : ResponseWriter) (code : Z) : ResponseWriter :=
  match rw_wrote w with
  | Some _ => w
  | None =>
      {| rw_header := rw_header w;
         rw_wrote := Some (code, rw_header w);
         rw_conn := rw_conn w |}
  end.

(** [w.Write(p)]: sends the header with status 200 if it was not sent. *)
Definition ResponseWriter_Write (w : ResponseWriter) (p : list byte)
  : ResponseWriter * Z * option error :=
  let w := WriteHeader w StatusOK in
  let '(conn, n, err) := Writer_Write (rw_conn w) p in
  ({| rw_header := rw_header w; rw_wrote := rw_wrote w; rw_conn := conn |},
   n, err).

(** [http.Error(w, msg, code)]. *)
Definition http_Error (w : ResponseWriter) (msg : string) (code : Z)
  : ResponseWriter :=
  let h := Header_Set (rw_header w) "Content-Type" "text/plain; charset=utf-8" in
  let h := Header_Set h "X-Content-Type-Options" "nosniff" in
  let w := WriteHeader (rw_set_header w h) code in
  (ResponseWriter_Write w
     (list_byte_of_string (msg ++ String (ascii_of_nat 10) EmptyString))).1.1.

(** The status code on the wire. *)
Definition sentStatus (w : ResponseWriter) : option Z :=
  fst <$> rw_wrote w.

(** The value of a header that went out before the body. *)
Definition sentHeader (w : ResponseWriter) (key : string) : string :=
  match rw_wrote w with
  | Some (_, h) => Header_Get h key
  | None => EmptyString
  end.

(** The body bytes on the wire. *)
Definition sentBody (w : ResponseWriter) : list byte := wr_data (rw_conn w).

(** The value of a trailer when the handler returns: a key announced in the
    [Trailer] header that went out before the body carries the value that
    the header map holds at the end. *)
Definition sentTrailer (w : ResponseWriter) (key : string) : string :=
  match rw_wrote w with
  | Some (_, h) =>
      if bool_decide (key ∈ default [] (h !! "Trailer"))
      then Header_Get (rw_header w) key
      else EmptyString
  | None => EmptyString
  end.

(* ===================================================================== *)
(** ** [fileserver/client.go]: the checksum registry *)
(* ===================================================================== *)

(** [type ChecksumAlgorithm uint]. *)
Abbreviation ChecksumAlgorithm := Z (only parsing).

Definition NONE : ChecksumAlgorithm := 0.
Definition SHA256 : ChecksumAlgorithm := 1.
Definition SHA512 : ChecksumAlgorithm := 2.

(** [type ChecksumMode int]. *)
Abbreviation ChecksumMode := Z (only parsing).

Definition ChecksumNone : ChecksumMode := 0.
Definition ChecksumClientOnly : ChecksumMode := 1.
Definition ChecksumServerOnly : ChecksumMode := 2.
Definition ChecksumClientAndServer : ChecksumMode := 3.

Record checksumSpec : Type := {
  name : string;
  hashFunc : unit → Hash
}.

Section Registry.
Context `{Library}.

(** Map of supported checksum algorithms. *)
Definition checksumMap : gmap Z checksumSpec :=
  <[SHA256 := {| name := "sha256";
                 hashFunc := λ _, Hash_New sha256_Sum |}]>
  (<[SHA512 := {| name := "sha512";
                  hashFunc := λ _, Hash_New sha512_Sum |}]> ∅).

(** [getChecksumByName] returns a hash function associated to the given
    name, if any. *)
Definition getChecksumByName (nm : string) : Hash + error :=
  let nm := ToLower nm in
  match List.find (λ kv, String.eqb (name kv.2) nm)
                  (map_to_list checksumMap) with
  | Some kv => inl (hashFunc kv.2 tt)
  | None => inr (ErrUnknownChecksum nm)
  end.

(** [getChecksumByKey] returns a hash function associated to the given
    algorithm key, if any. *)
Definition getChecksumByKey (key : ChecksumAlgorithm) : Hash + error :=
  match checksumMap !! key with
  | Some v => inl (hashFunc v tt)
  | None => inr (ErrInvalidChecksumKey key)
  end.

(** [getChecksumName] returns the name of the checksum algorithm. *)
Definition getChecksumName (algo : ChecksumAlgorithm) : string :=
  match checksumMap !! algo with
  | Some s => name s
  | None => EmptyString
  end.

(** [isChecksumAvailable] returns true if the provided name is associated
    to a checksum algorithm. *)
Definition isChecksumAvailable (nm : string) : bool :=
  match getChecksumByName nm with
  | inl _ => true
  | inr _ => false
  end.
End Registry.

(* ===================================================================== *)
(** ** [fileserver/server.go]: [serveFile] *)
(* ===================================================================== *)

Definition min (x y : Z) : Z := if x <? y then x else y.

(** [io.CopyN(w, src, n)] where [src] reads from [rdr], through the tee when
    there is a hasher: the next [n] bytes of the reader (fewer at its end)
    are written to [w].  Nothing is written when nothing was read; fewer
    than [n] bytes written without an error is [io.EOF].  The reader and the
    hasher are advanced by what was read, which the caller only looks at
    when there was no error. *)
Definition CopyN (w : ResponseWriter) (rdr : BytesReader) (tee : option Hash)
    (n : Z)
  : ResponseWriter * BytesReader * option Hash * Z * option error :=
  let p := take (Z.to_nat n) (drop (r_i rdr) (r_s rdr)) in
  let rdr := {| r_s := r_s rdr; r_i := (r_i rdr + length p)%nat |} in
  let tee := tee_Write tee p in
  let '(w, written, err) :=
    match p with
    | [] => (w, 0, None)
    | _ => ResponseWriter_Write w p
    end in
  let err :=
    match err with
    | None => if written <? n then Some ErrEOF else None
    | Some e => Some e
    end in
  (w, rdr, tee, written, err).

(** One byte of an integer: its eight low bits. *)
Definition byteOfZ (z : Z) : byte :=
  default x00 (Byte.of_N (Z.to_N (Z.land z 255))).

(** [binary.Write] of one [int64] in little-endian order. *)
Definition putInt64LE (v : Z) : list byte :=
  map (λ k : nat, byteOfZ (Z.shiftr v (8 * Z.of_nat k))) (seq 0 8).

(** [init] initializes the memory buffer used to send file contents:
    [bufferSize / 8] values, [rnd i] being the [i]th result of
    [rand.Int63], written one after the other in little-endian order. *)
Definition init (rnd : nat → Z) : list byte :=
  concat (map (λ i : nat, putInt64LE (rnd i))
              (seq 0 (Z.to_nat (bufferSize / 8)))).

Definition StatusForbidden : Z := 403.
Definition StatusMethodNotAllowed : Z := 405.

(** [httpErrorf] replies to the HTTP request with the specified HTTP code
    and error message (already formatted here). *)
Definition httpErrorf (w : ResponseWriter) (code : Z) (msg : string)
  : ResponseWriter :=
  let h := Header_Set (rw_header w) "Content-Type" "text/plain; charset=utf-8" in
  let h := Header_Set h "X-Content-Type-Options" "nosniff" in
  let w := WriteHeader (rw_set_header w h) code in
  (ResponseWriter_Write w (list_byte_of_string msg)).1.1.

(** [isAuthorized] verifies that the given user is authorized to download
    the given file.  This function is a place holder. *)
Definition isAuthorized (fileID : string) (size : Z)
    (userName issuerName : string) : bool :=
  if (String.length userName =? 0)%nat || (String.length issuerName =? 0)%nat
  then true (* Anonymous user *)
  else true.

Section Server.
Context `{Library}.

(** The memory buffer used to send file contents; [init] fills it with
    [bufferSize] pseudo-random bytes, and it is never written again. *)
Variable contentsBuffer : list byte.

(** The loop of [serveFile]:
    [for remain, sent := size, int64(0); remain > 0; remain -= sent].
    [fuel] bounds the number of iterations; [None] is a loop that has not
    ended within the bound.  The result is the writer and the hasher at
    the end of the loop, or the status and error of the early return. *)
Fixpoint serveLoop (fuel : nat) (w : ResponseWriter) (rdr : BytesReader)
    (hasher : option Hash) (remain : Z)
  : option (ResponseWriter * option Hash * option (Z * error)) :=
  if remain <=? 0 then Some (w, hasher, None)
  else
    match fuel with
    | O => None
    | S fuel' =>
        let rdr := if Reader_Len rdr =? 0 then Reader_Seek0 rdr else rdr in
        let count := min (Reader_Len rdr) remain in
        let '(w, rdr, hasher, sent, err) := CopyN w rdr hasher count in
        match err with
        | Some e =>
            let w :=
              http_Error w "internal server error"
                StatusInternalServerError in
            Some (w, hasher,
                  Some (StatusInternalServerError, ErrCopy count e))
        | None => serveLoop fuel' w rdr hasher (remain - sent)
        end
    end.

(** [serveFile] sends the response to a GET HTTP request.  [checksumAlg]
    is the name of the hash algorithm requested by the client; if it is
    the empty string, no checksum is computed.  The result is the writer
    with the returned status and error. *)
Definition serveFile (fuel : nat) (w : ResponseWriter) (fileid : string)
    (size : Z) (checksumAlg : string)
  : option (ResponseWriter * (Z * option error)) :=
  let lookup : option Hash + error :=
    if negb (String.eqb checksumAlg "") then
      match getChecksumByName checksumAlg with
      | inl h => inl (Some h)
      | inr e => inr e
      end
    else inl None in
  match lookup with
  | inr _ =>
      let s := (Quote checksumAlg ++ " is not a supported checksum algorithm")%string in
      Some (http_Error w s StatusBadRequest,
            (StatusBadRequest, Some (ErrUnsupportedChecksum checksumAlg)))
  | inl hasher =>
      let h := Header_Set (rw_header w) "Content-Type" "application/octet-stream" in
      let h := Header_Set h "Trailer" "X-Content-Length" in
      let h :=
        match hasher with
        | Some _ =>
            Header_Add (Header_Set h "X-Checksum-Algorithm" checksumAlg)
              "Trailer" "X-Checksum-Value"
        | None => h
        end in
      let w := rw_set_header w h in
      let rdr := NewReader contentsBuffer in
      match serveLoop fuel w rdr hasher size with
      | None => None
      | Some (w, _, Some (status, e)) => Some (w, (status, Some e))
      | Some (w, hasher, None) =>
          (* Send the content length and the checksum trailers *)
          let h := Header_Set (rw_header w) "X-Content-Length" (FormatInt size) in
          let h :=
            match hasher with
            | Some hs =>
                Header_Set h "X-Checksum-Value"
                  (EncodeToString (Hash_Sum hs))
            | None => h
            end in
          Some (rw_set_header w h, (StatusOK, None))
      end
  end.
(** [handleGetFile] handles GET requests for files.  Of the request it reads
    the method, the query ([None] when [url.ParseQuery] fails) and the
    names (subject and issuer, as formatted by [getCertName]) of the peer
    certificates.  The lines written to the log are left out. *)
Definition handleGetFile (fuel : nat) (w : ResponseWriter) (method : string)
    (query : option Header) (peerCertificates : list (string * string))
  : option ResponseWriter :=
  (* Ensure method GET *)
  if negb (String.eqb method "GET") then
    Some (http_Error w "405 Method not allowed" StatusMethodNotAllowed)
  else
    match query with
    | None =>
        Some (http_Error w "400 Bad request: no query in URL" StatusBadRequest)
    | Some query =>
        match query !! "id" with
        | Some [fileID] =>
            match query !! "size" with
            | Some [sz] =>
                match parseSize sz with
                | inr _ =>
                    Some (httpErrorf w StatusBadRequest
                            ("400 Bad request: invalid size value "
                             ++ Quote sz))
                | inl size =>
                    let checksum : string + ResponseWriter :=
                      match query !! "checksum" with
                      | None => inl EmptyString
                      | Some [checksumAlg] =>
                          if isChecksumAvailable checksumAlg
                          then inl checksumAlg
                          else
                            inr (httpErrorf w StatusBadRequest
                                   ("400 Bad request: invalid requested checksum "
                                    ++ Quote checksumAlg))
                      | Some _ =>
                          inr (http_Error w
                                 "400 Bad request: invalid requested checksum"
                                 StatusBadRequest)
                      end in
                    match checksum with
                    | inr w => Some w
                    | inl checksumAlg =>
                        let authorized :=
                          match peerCertificates with
                          | [] => isAuthorized fileID size "" ""
                          | _ =>
                              forallb
                                (λ cert, isAuthorized fileID size cert.1 cert.2)
                                peerCertificates
                          end in
                        if negb authorized then
                          Some (http_Error w
                                  "403 Forbidden: you are not authorized to retrieve the requested file"
                                  StatusForbidden)
                        else
                          (* Serve file contents *)
                          fst <$> serveFile fuel w fileID size checksumAlg
                    end
                end
            | _ =>
                Some (http_Error w "400 Bad request: no file size in query"
                        StatusBadRequest)
            end
        | _ =>
            Some (http_Error w "400 Bad request: no id in query"
                    StatusBadRequest)
        end
    end.
End Server.

(* ===================================================================== *)
(** ** State passing: the clock and the network *)
(* ===================================================================== *)

Definition State (S A : Type) : Type := S → A * S.

Definition ret {S A : Type} (a : A) : State S A := λ s, (a, s).

Definition bind {S A B : Type} (m : State S A) (k : A → State S B)
  : State S B :=
  λ s, let '(a, s') := m s in k a s'.

Notation "'let*' x ':=' m 'in' k" := (bind m (λ x, k))
  (at level 10, x name, m at level 100, k at level 200).

(** A [url.URL]; [Query] holds the values that [q.Encode()] writes into
    [RawQuery]. *)
Record URL : Type := {
  Scheme : string;
  Host : string;
  Path : string;
  Query : Header
}.

Record Request : Type := {
  Method : string;
  req_URL : URL
}.

Record Response : Type := {
  StatusCode : Z;
  resp_Header : Header;
  Body : Reader;
  (** the trailer values, as they read once the body has been consumed *)
  Trailer : Header
}.

(** What a process sees of the outside: [clock k] is the reading of the
    [k]th call of [time.Now], [ticks] counts the calls made, [issued] lists
    the HTTP requests sent so far. *)
Record Net : Type := {
  clock : nat → Z;
  ticks : nat;
  issued : list Request
}.

Definition time_Now : State Net Z :=
  λ n, (clock n (ticks n),
        {| clock := clock n; ticks := S (ticks n); issued := issued n |}).

Definition time_Since (t : Z) : State Net Z :=
  let* now := time_Now in ret (now - t).

(** A [fileserver.Client]: what the server at the other end answers to a
    request, or the error of the transport. *)
Record Client : Type := {
  transport : Request → Response + error
}.

(** [c.Do(req)]. *)
Definition Do (c : Client) (req : Request) : State Net (Response + error) :=
  λ n, (transport c req,
        {| clock := clock n; ticks := ticks n; issued := issued n ++ [req] |}).

(* ===================================================================== *)
(** ** [fileserver/client.go]: [DownloadFile] *)
(* ===================================================================== *)

Record DownloadReport : Type := {
  Start : Z;
  End_ : Z;
  TimeToFirstByte : Z;
  Checksum : string;
  Err : option error
}.

Definition set_Start (r : DownloadReport) (t : Z) : DownloadReport :=
  {| Start := t; End_ := End_ r; TimeToFirstByte := TimeToFirstByte r;
     Checksum := Checksum r; Err := Err r |}.
Definition set_End (r : DownloadReport) (t : Z) : DownloadReport :=
  {| Start := Start r; End_ := t; TimeToFirstByte := TimeToFirstByte r;
     Checksum := Checksum r; Err := Err r |}.
Definition set_TimeToFirstByte (r : DownloadReport) (d : Z) : DownloadReport :=
  {| Start := Start r; End_ := End_ r; TimeToFirstByte := d;
     Checksum := Checksum r; Err := Err r |}.
Definition set_Checksum (r : DownloadReport) (s : string) : DownloadReport :=
  {| Start := Start r; End_ := End_ r; TimeToFirstByte := TimeToFirstByte r;
     Checksum := s; Err := Err r |}.
Definition set_Err (r : DownloadReport) (e : error) : DownloadReport :=
  {| Start := Start r; End_ := End_ r; TimeToFirstByte := TimeToFirstByte r;
     Checksum := Checksum r; Err := Some e |}.

(** The zero value of the named result [report]. *)
Definition zeroReport : DownloadReport :=
  {| Start := 0; End_ := 0; TimeToFirstByte := 0;
     Checksum := EmptyString; Err := None |}.

Section Download.
Context `{Library}.

(** The request that [DownloadFile] builds. *)
Definition buildRequest (serverAddr fileID : string) (size : Z)
    (doRequestChecksum : bool) (algorithm : string) : Request :=
  let q := Header_Set ∅ "id" fileID in
  let q := Header_Set q "size" (FormatInt size) in
  let q := if doRequestChecksum then Header_Set q "checksum" algorithm
           else q in
  {| Method := "GET";
     req_URL := {| Scheme := "https"; Host := serverAddr;
                   Path := "/file"; Query := q |} |}.

(** A new hasher for the key; [nil] when there is none.  [DownloadFile]
    only asks for keys whose name is not empty, which are in the map. *)
Definition newChecksumer (chkAlgo : ChecksumAlgorithm) : option Hash :=
  match getChecksumByKey chkAlgo with
  | inl h => Some h
  | inr _ => None
  end.

(** [DownloadFile] emits a HTTP request against the specified server to
    download a file given its file identifier and size (in bytes).  The
    result is the report and the sink [dst] after the call.  The deferred
    draining and closing of the body leaves no trace in the report. *)
Definition DownloadFile (c : Client) (serverAddr fileID : string) (size : Z)
    (chkMode : ChecksumMode) (chkAlgo : ChecksumAlgorithm) (dst : Writer)
  : State Net (DownloadReport * Writer) :=
  let report := zeroReport in
  (* Verify checksum *)
  let algorithm := getChecksumName chkAlgo in
  if negb (chkMode =? ChecksumNone) && String.eqb algorithm "" then
    ret (set_Err report (ErrInvalidRequestedAlgorithm chkAlgo), dst)
  else
    let doRequestChecksum :=
      (chkMode =? ChecksumServerOnly) || (chkMode =? ChecksumClientAndServer) in
    let req := buildRequest serverAddr fileID size doRequestChecksum algorithm in
    let* start := time_Now in
    let report := set_Start report start in
    let* r := Do c req in
    let* ttfb := time_Since start in
    let report := set_TimeToFirstByte report ttfb in
    match r with
    | inr err => ret (set_Err report err, dst)
    | inl resp =>
        if negb (StatusCode resp =? StatusOK) then
          (* the response body may contain the error message *)
          let body := (ReadAll (Body resp)).1 in
          ret (set_Err report (ErrDownloading body), dst)
        else
          (* Do we need to compute the checksum of the response's body? *)
          let source : option Hash + error :=
            if chkMode =? ChecksumClientOnly then
              inl (newChecksumer chkAlgo)
            else if chkMode =? ChecksumClientAndServer then
              let serverAlgo :=
                ToLower (Header_Get (resp_Header resp) "X-Checksum-Algorithm") in
              if negb (String.eqb algorithm serverAlgo) then
                inr (ErrUnexpectedServerAlgorithm serverAlgo)
              else inl (newChecksumer chkAlgo)
            else inl None in
          match source with
          | inr e => ret (set_Err report e, dst)
          | inl chksumer =>
              (* Receive the response body *)
              let cr := io_Copy dst chksumer (Body resp) in
              let received := cr_written cr in
              let dst := cr_dst cr in
              let* now := time_Now in
              let report := set_End report now in
              let clientCheckSum :=
                match cr_tee cr with
                | Some h => ToLower (EncodeToString (Hash_Sum h))
                | None => EmptyString
                end in
              (* Check that the value of 'X-Content-Length' trailer and
                 actual length of response body match *)
              let clength := Header_Get (Trailer resp) "X-Content-Length" in
              if (String.length clength =? 0)%nat then
                ret (set_Err report ErrMissingContentLength, dst)
              else
                let bodyLength := (ParseUint clength).1 in
                if negb (wrap64 bodyLength =? received) then
                  ret (set_Err report (ErrBodyLength bodyLength received), dst)
                else
                  (* Check the received checksum and the computed one
                     actually match *)
                  let serverChecksum :=
                    if chkMode =? ChecksumClientAndServer then
                      ToLower (Header_Get (Trailer resp) "X-Checksum-Value")
                    else EmptyString in
                  if (chkMode =? ChecksumClientAndServer)
                     && (String.length serverChecksum =? 0)%nat then
                    ret (set_Err report ErrMissingChecksumValue, dst)
                  else if (chkMode =? ChecksumClientAndServer)
                          && negb (String.eqb clientCheckSum serverChecksum) then
                    ret (set_Err report
                           (ErrChecksumMismatch clientCheckSum serverChecksum),
                         dst)
                  else
                    (* Add the checksum to the download report *)
                    let report :=
                      if negb (chkMode =? ChecksumNone) then
                        if negb (String.eqb serverChecksum "") then
                          set_Checksum report
                            (algorithm ++ ":" ++ serverChecksum)
                        else
                          set_Checksum report
                            (algorithm ++ ":" ++ clientCheckSum)
                      else report in
                    ret (report, dst)
          end
    end.
End Download.

(* ===================================================================== *)
(** ** Package [main]: the worker pool of the client *)
(* ===================================================================== *)

(** Modelled from the spec: [minInt] is called by
    [clientProcessLoadRequest] and its code is not among the sources; the
    spec describes the call as the upper end of the clamp of the pool size
    to [1, 1000 × NCPU], which is the smaller of its two arguments. *)
Definition minInt (x y : Z) : Z := if x <? y then x else y.

(** The first lines of [clientProcessLoadRequest]: the number of workers
    for a request whose field [Concurrency] is [concurrency], on a machine
    where [runtime.NumCPU()] returns [numCPU].  Go's [int] is taken to be
    64 bits wide. *)
Definition numWorkers (numCPU concurrency : Z) : Z :=
  let numWorkers := concurrency in
  let numWorkers :=
    if numWorkers <=? 0 then wrap64 (2 * numCPU) else numWorkers in
  minInt numWorkers (wrap64 (1000 * numCPU)).

(** [DownloadResp] is the report sent back by a worker after performing a
    download operation against the file server. *)
Record DownloadResp : Type := {
  resp_seqNumber : Z;
  resp_start : Z;
  resp_end : Z;
  resp_size : Z;
  resp_err : option error
}.

(** [DownloadReq] is a HTTP download operation sent to a client worker for
    execution.  [replyTo] names a channel. *)
Record DownloadReq : Type := {
  seqNumber : Z;
  server : string;
  fsclient : Client;
  fileID : string;
  size : Z;
  notAfter : Z;
  replyTo : nat
}.

(** The state of the client process around one worker: the clock and the
    network, the messages sent on each channel of [DownloadResp] (oldest
    first), and the counter of the wait group. *)
Record Proc : Type := {
  net : Net;
  chans : gmap nat (list DownloadResp);
  wg : Z
}.

(** Runs a computation on the clock and the network inside the process. *)
Definition liftNet {A : Type} (m : State Net A) : State Proc A :=
  λ p, let '(a, n) := m (net p) in
       (a, {| net := n; chans := chans p; wg := wg p |}).

(** The channels after one more message on the channel [ch]. *)
Definition chan_push (chs : gmap nat (list DownloadResp)) (ch : nat)
    (v : DownloadResp) : gmap nat (list DownloadResp) :=
  <[ch := default [] (chs !! ch) ++ [v]]> chs.

(** [ch <- v]: the message is appended to what the channel carries. *)
Definition chan_send (ch : nat) (v : DownloadResp) : State Proc unit :=
  λ p, (tt, {| net := net p; chans := chan_push (chans p) ch v;
               wg := wg p |}).

(** [wg.Done()]. *)
Definition wg_Done : State Proc unit :=
  λ p, (tt, {| net := net p; chans := chans p; wg := wg p - 1 |}).

(** [t.After(u)]. *)
Definition After (t u : Z) : bool := u <? t.

Section Worker.
Context `{Library}.

(** [processDownloadRequest] performs a single file download against the
    server specified in the argument request. *)
Definition processDownloadRequest (req : DownloadReq)
  : State Net DownloadResp :=
  let* r := DownloadFile (fsclient req) (server req) (fileID req)
              (wrap64 (size req)) ChecksumNone SHA256 Discard in
  let report := r.1 in
  ret {| resp_seqNumber := seqNumber req;
         resp_start := Start report;
         resp_end := End_ report;
         resp_size := size req;
         resp_err := Err report |}.

(** One turn of the loop of [clientWorker], for the request [req] received
    from the channel of requests. *)
Definition workerTurn (req : DownloadReq) : State Proc unit :=
  let* now := liftNet time_Now in
  if After now (notAfter req) then ret tt
  else
    let* resp := liftNet (processDownloadRequest req) in
    chan_send (replyTo req) resp.

(** The loop [for req := range reqChan], over the requests that this
    worker receives before the channel is closed. *)
Fixpoint workerLoop (reqs : list DownloadReq) : State Proc unit :=
  match reqs with
  | [] => ret tt
  | req :: reqs' => let* _ := workerTurn req in workerLoop reqs'
  end.

(** [clientWorker] is the goroutine executed by each client worker;
    [wg.Done()] is deferred to its end. *)
Definition clientWorker (workerId : Z) (reqChan : list DownloadReq)
  : State Proc unit :=
  let* _ := workerLoop reqChan in wg_Done.
End Worker.

(* ===================================================================== *)
(** ** Package [main]: [splitAndClean] *)
(* ===================================================================== *)

(** [splitAndClean] removes repeated components of a comma separated string
    and returns unique strings.  The order in which Go ranges over a map is
    not specified; the model lists the keys in the order of [map_to_list]. *)
Definition splitAndClean (s : string) : list string :=
  let components := Split s "," in
  let m := foldl (λ (m : gmap string bool) c, <[c := true]> m) ∅ components in
  (map_to_list m).*1.

(* ===================================================================== *)
(** ** [fileserver/server.go]: [getCertName] *)
(* ===================================================================== *)

(** [strings.Join(a, sep)]. *)
Fixpoint Join (a : list string) (sep : string) : string :=
  match a with
  | [] => EmptyString
  | [x] => x
  | x :: a' => (x ++ sep ++ Join a' sep)%string
  end.

(** The fields of a [pkix.Name] that [getCertName] reads. *)
Record Name : Type := {
  Country : list string;
  Province : list string;
  Locality : list string;
  Organization : list string;
  OrganizationalUnit : list string;
  CommonName : string
}.

(** The local function [format] of [getCertName]: the values of one
    attribute, each behind ["/sep="]; nothing when there is no value. *)
Definition format (a : list string) (sep : string) : string :=
  match a with
  | [] => EmptyString
  | _ =>
      let sep := ("/" ++ sep ++ "=")%string in
      (sep ++ Join a sep)%string
  end.

(** [getCertName] retrieves and formats the given distinguished name of a
    certificate. *)
Definition getCertName (name : Name) : string :=
  (format (Country name) "C" ++
   format (Province name) "ST" ++
   format (Locality name) "L" ++
   format (Organization name) "O" ++
   format (OrganizationalUnit name) "OU" ++
   format [CommonName name] "CN")%string.

(* ===================================================================== *)
(** ** Package [main]: the load request, from the driver to the client *)
(* ===================================================================== *)

(** The operations on [float64] that the modelled code uses, taken as
    parameters: nothing is assumed about them. *)
Class Float64 : Type := {
  float64 : Type;
  float_zero : float64;
  float_add : float64 → float64 → float64;
  float_mul : float64 → float64 → float64;
  float_div : float64 → float64 → float64;
  (** [float64(n)] for an integer *)
  float_of_int : Z → float64;
  (** [uint64(x)] *)
  float_to_uint64 : float64 → Z;
  (** [d.Seconds()] for a duration in nanoseconds *)
  float_seconds : Z → float64
}.

(** [LoadRequest], with the field [PlainHttp] that the driver sets. *)
Record LoadRequest : Type := {
  ServerAddrs : list string;
  Duration : Z;
  Concurrency : Z;
  UseHttp1 : bool;
  PlainHttp : bool;
  MeanSize : Z;
  StdSize : Z
}.

Inductive loadError : Type :=
| ErrNoServerAddresses  (* "server addresses not included in load request" *)
| ErrInvalidDuration (d : Z).                   (* "invalid duration %s" *)

(** [clientVerifyLoadRequest]. *)
Definition clientVerifyLoadRequest (req : LoadRequest) : option loadError :=
  if (length (ServerAddrs req) =? 0)%nat then Some ErrNoServerAddresses
  else if Duration req <? 0 then Some (ErrInvalidDuration (Duration req))
  else None.

Section Driver.
Context `{Float64}.

(** The command line options of the driver. *)
Record driverConfig : Type := {
  cfg_help : bool;
  cfg_clients : string;
  cfg_servers : string;
  cfg_concurrency : Z;
  cfg_duration : Z;
  cfg_http1 : bool;
  cfg_meanSize : Z;
  cfg_stdSize : float64;
  cfg_plainHttp : bool
}.

(** The duration that [driverRun] works with:
    [if config.duration < 0 { config.duration *= -1 }], in [int64]. *)
Definition driverDuration (duration : Z) : Z :=
  if duration <? 0 then wrap64 (duration * -1) else duration.

(** The addresses of the clients that [driverRun] sends the request to. *)
Definition driverClientAddrs (config : driverConfig) : list string :=
  splitAndClean (cfg_clients config).

(** The load request that [driverRun] sends to each client. *)
Definition driverLoadRequest (config : driverConfig) : LoadRequest :=
  let duration := driverDuration (cfg_duration config) in
  let meanSize := wrapU64 (wrapU64 (cfg_meanSize config) * wrapU64 MB) in
  {| ServerAddrs := splitAndClean (cfg_servers config);
     Concurrency := cfg_concurrency config;
     Duration := duration;
     MeanSize := meanSize;
     StdSize :=
       float_to_uint64 (float_mul (cfg_stdSize config) (float_of_int meanSize));
     UseHttp1 := cfg_http1 config;
     PlainHttp := cfg_plainHttp config |}.
End Driver.

(* ===================================================================== *)
(** ** Package [main]: the emitter and the collector of the client *)
(* ===================================================================== *)

(** What one turn of the loop of [clientEmitRequests] draws: the result of
    [rand.Intn(numServers)] and the value of
    [uint64(rand.NormFloat64() * float64(req.StdSize))]. *)
Record Draw : Type := {
  draw_server : nat;
  draw_size : Z
}.

(** The request built in the turn of the loop in which [seqNumber] has just
    been incremented to its present value; [None] stands for the panic of
    an index out of range. *)
Definition emitRequest (req : LoadRequest) (fsclients : list Client)
    (responses : nat) (notAfter : Z) (seqNumber : Z) (d : Draw)
  : option DownloadReq :=
  match ServerAddrs req !! draw_server d, fsclients !! draw_server d with
  | Some addr, Some c =>
      Some {| seqNumber := seqNumber;
              server := addr;
              fsclient := c;
              fileID := ("file-" ++ FormatInt seqNumber)%string;
              size := wrapU64 (wrapU64 (MeanSize req) + draw_size d);
              notAfter := notAfter;
              replyTo := responses |}
  | _, _ => None
  end.

(** The requests that [clientEmitRequests] puts on the channel when the
    channel takes one in each of the turns of [draws] and the timeout fires
    in the next turn; [seqNumber] is the counter before the first turn. *)
Fixpoint emitLoop (req : LoadRequest) (fsclients : list Client)
    (responses : nat) (notAfter : Z) (seqNumber : Z) (draws : list Draw)
  : option (list DownloadReq) :=
  match draws with
  | [] => Some []
  | d :: draws' =>
      let seqNumber := wrapU64 (seqNumber + 1) in
      match emitRequest req fsclients responses notAfter seqNumber d with
      | None => None
      | Some newreq =>
          match emitLoop req fsclients responses notAfter seqNumber draws' with
          | None => None
          | Some rest => Some (newreq :: rest)
          end
      end
  end.

(** [clientEmitRequests]: the deadline is read off the clock once, before
    the loop. *)
Definition clientEmitRequests (req : LoadRequest) (fsclients : list Client)
    (responses : nat) (draws : list Draw)
  : State Net (option (list DownloadReq)) :=
  let* now := time_Now in
  let notAfter := now + Duration req in
  ret (emitLoop req fsclients responses notAfter 0 draws).

Section Collector.
Context `{Float64}.

(** [LoadResponse]. *)
Record LoadResponse : Type := {
  lr_Start : Z;
  lr_End : Z;
  lr_Concurrency : Z;
  lr_NumFiles : Z;
  lr_DataSize : float64;
  lr_Rate : float64;
  lr_ErrCount : Z
}.

(** The loop of [clientCollectResponses] over the responses received
    before the channel is closed: the total size in MB, the count of files
    and the count of errors. *)
Fixpoint collectLoop (responses : list DownloadResp)
    (totalSize : float64) (fileCount errCount : Z)
  : float64 * Z * Z :=
  match responses with
  | [] => (totalSize, fileCount, errCount)
  | resp :: responses' =>
      match resp_err resp with
      | Some _ =>
          collectLoop responses' totalSize fileCount (wrapU64 (errCount + 1))
      | None =>
          collectLoop responses'
            (float_add totalSize
               (float_div (float_of_int (resp_size resp)) (float_of_int MB)))
            (wrapU64 (fileCount + 1)) errCount
      end
  end.

(** [clientCollectResponses]: the summary sent once the channel of
    responses is closed. *)
Definition clientCollectResponses (numWorkers : Z)
    (responses : list DownloadResp) : State Net LoadResponse :=
  let* start := time_Now in
  let '(totalSize, fileCount, errCount) :=
    collectLoop responses float_zero 0 0 in
  let* finish := time_Now in
  let* elapsed := time_Since start in
  ret {| lr_Start := start;
         lr_End := finish;
         lr_Concurrency := numWorkers;
         lr_NumFiles := fileCount;
         lr_DataSize := totalSize;
         lr_Rate := float_div totalSize (float_seconds elapsed);
         lr_ErrCount := errCount |}.
End Collector.

(* ===================================================================== *)
(** ** Data for the examples *)
(* ===================================================================== *)

(** A stand-in for the library in examples that have to compute: the
    digests are not those of SHA-2 (the first four bytes, and the bytes in
    reverse order), the quoting adds nothing. *)
Definition toyLibrary : Library :=
  {| sha256_Sum := λ bs, take 4 bs;
     sha512_Sum := λ bs, rev bs;
     Quote := λ s, s |}.

(** A response with status 200. *)
Definition okResponse (algo : string) (chunks : list (list byte))
    (rerr : option error) (clength checksum : string) : Response :=
  {| StatusCode := StatusOK;
     resp_Header := {["X-Checksum-Algorithm" := [algo]]};
     Body := {| rd_chunks := chunks; rd_err := rerr |};
     Trailer := <["X-Content-Length" := [clength]]>
                  {["X-Checksum-Value" := [checksum]]} |}.

(** A client whose server always gives the same answer. *)
Definition constClient (resp : Response) : Client :=
  {| transport := λ _, inl resp |}.

(** A clock that advances by ten units at every reading. *)
Definition net0 : Net :=
  {| clock := λ k, 10 * Z.of_nat k; ticks := 0; issued := [] |}.

(** A stand-in whose digests are never empty: a zero byte, then the first
    three (or the last three) bytes. *)
Definition toyDigests : Library :=
  {| sha256_Sum := λ bs, x00 :: take 3 bs;
     sha512_Sum := λ bs, x00 :: take 3 (rev bs);
     Quote := λ s, s |}.

(** A stand-in for [float64] in examples that have to compute: integers,
    with the division rounded down. *)
Definition toyFloat64 : Float64 :=
  {| float64 := Z;
     float_zero := 0;
     float_add := Z.add;
     float_mul := Z.mul;
     float_div := Z.div;
     float_of_int := λ n, n;
     float_to_uint64 := wrapU64;
     float_seconds := λ d, d |}.

(* ===================================================================== *)
(** * Properties *)
(* ===================================================================== *)

(* ===================================================================== *)
(** ** [parseSize] *)
(* ===================================================================== *)

(** Whatever [parseSize] accepts lies in (0, 1 TiB]. *)
Lemma parseSize_range (sz : string) (v : Z) :
  parseSize sz = inl v → 0 < v ≤ TB.
Proof.
  unfold parseSize.
  destruct (String.length sz =? 0)%nat; [discriminate |].
  destruct (if HasSuffix sz "K" then _ else _) as [factor sz'].
  destruct (ParseInt sz') as [res [e |]]; [discriminate |].
  destruct (_ || _) eqn:E; [discriminate |].
  intros [= <-]. apply orb_false_iff in E as [E1 E2].
  apply Z.leb_gt in E1. apply Z.ltb_ge in E2. lia.
Qed.

(** The values of the size-parsing examples. *)
Lemma parseSize_examples :
  parseSize "1K" = inl 1024 ∧
  parseSize "1M" = inl 1048576 ∧
  parseSize "1G" = inl 1073741824 ∧
  parseSize "100" = inl 100 ∧
  parseSize "0" = inr (ErrInvalidFileSize 0) ∧
  parseSize "-5" = inr (ErrInvalidFileSize (-5)) ∧
  parseSize "" = inr ErrEmptySize ∧
  parseSize "2T" = inr (ErrNum ErrSyntax) ∧
  parseSize "1025G" = inr (ErrInvalidFileSize (1025 * GB)).
Proof. vm_compute. repeat split; reflexivity. Qed.

(** C2 (the code departs from the claim).  [parseSize] multiplies the
    parsed number by the unit in [int64] without looking for overflow:
    18014398509481985 is 2^54 + 1, so that with the suffix K the product is
    2^64 + 1024, far above 1 TiB, and yet the function returns 1024
    instead of an error. *)
Theorem parseSize_overflow_accepted :
  18014398509481985 * KB = 2 ^ 64 + 1024 ∧
  TB < 18014398509481985 * KB ∧
  parseSize "18014398509481985K" = inl 1024.
Proof. vm_compute. repeat split; reflexivity. Qed.

(* ===================================================================== *)
(** ** [strconv]: reading back what was formatted *)
(* ===================================================================== *)

(** The character of a digit reads back as the digit. *)
Lemma digitVal_digitChar (d : Z) : 0 ≤ d < 10 → digitVal (digitChar d) = Some d.
Proof.
  intros Hd.
  assert (d = 0 ∨ d = 1 ∨ d = 2 ∨ d = 3 ∨ d = 4 ∨ d = 5 ∨ d = 6 ∨ d = 7 ∨
          d = 8 ∨ d = 9) as Hcases by lia.
  destruct Hcases as [-> | [-> | [-> | [-> | [-> | [-> | [-> | [-> | [-> | ->]]]]]]]]];
    reflexivity.
Qed.

(** One turn of the digit loop when nothing overflows. *)
Lemma parseUintLoop_digit (d : Z) (s : string) (n : Z) :
  0 ≤ d < 10 → 0 ≤ n → n * 10 + d ≤ maxUint64 →
  parseUintLoop (String (digitChar d) s) n = parseUintLoop s (n * 10 + d).
Proof.
  intros Hd Hn Hmax. cbn [parseUintLoop]. rewrite digitVal_digitChar by done.
  unfold cutoff10, wrapU64, maxUint64 in *.
  destruct (_ <=? n) eqn:E; [apply Z.leb_le in E | clear E].
  { exfalso.
    assert ((2 ^ 64 - 1) / 10 = 1844674407370955161) as Hq by reflexivity.
    lia. }
  rewrite (Z.mod_small (n * 10)) by lia.
  rewrite (Z.mod_small (n * 10 + d)) by lia.
  destruct (n * 10 + d <? n * 10) eqn:E1; [apply Z.ltb_lt in E1; lia |].
  destruct (2 ^ 64 - 1 <? n * 10 + d) eqn:E2; [apply Z.ltb_lt in E2; lia |].
  reflexivity.
Qed.

(** Reading what [formatBits] has written shifts the accumulator by the
    digits of [u] and adds [u]. *)
Lemma parseUintLoop_formatBits (fuel : nat) :
  ∀ (u : Z) (acc : string),
    0 ≤ u < 10 ^ Z.of_nat fuel →
    ∃ k : Z, 0 ≤ k ∧ ∀ n : Z,
      0 ≤ n → n * 10 ^ k + u ≤ maxUint64 →
      parseUintLoop (formatBits fuel u acc) n =
      parseUintLoop acc (n * 10 ^ k + u).
Proof.
  induction fuel as [| fuel IH]; intros u acc Hu.
  - exists 0. split; [done |]. intros n Hn Hmax. simpl in *.
    f_equal. lia.
  - simpl formatBits.
    destruct (u <? 10) eqn:E; [apply Z.ltb_lt in E | apply Z.ltb_ge in E].
    + exists 1. split; [done |]. intros n Hn Hmax.
      rewrite Z.mod_small by lia. rewrite Z.pow_1_r in *.
      apply parseUintLoop_digit; lia.
    + assert (0 ≤ u / 10 < 10 ^ Z.of_nat fuel) as Hq.
      { split; [apply Z.div_pos; lia |].
        apply Z.div_lt_upper_bound; [lia |].
        rewrite Nat2Z.inj_succ, Z.pow_succ_r in Hu by lia. lia. }
      destruct (IH (u / 10) (String (digitChar (u mod 10)) acc) Hq)
        as (k & Hk & Hparse).
      exists (k + 1). split; [lia |]. intros n Hn Hmax.
      rewrite Z.pow_add_r, Z.pow_1_r in * by lia.
      pose proof (Z.div_mod u 10 ltac:(lia)) as Hdm.
      pose proof (Z.mod_pos_bound u 10 ltac:(lia)) as Hmod.
      assert (0 ≤ 10 ^ k) by (apply Z.pow_nonneg; lia).
      rewrite Hparse by nia.
      rewrite parseUintLoop_digit by nia.
      f_equal. lia.
Qed.

Lemma formatBits_nonempty (fuel : nat) :
  ∀ (u : Z) (acc : string),
    acc ≠ EmptyString → formatBits fuel u acc ≠ EmptyString.
Proof.
  induction fuel as [| fuel IH]; intros u acc Hacc; cbn [formatBits];
    [done |].
  destruct (u <? 10); [done | by apply IH].
Qed.

Lemma formatBits_S_nonempty (fuel : nat) (u : Z) (acc : string) :
  formatBits (S fuel) u acc ≠ EmptyString.
Proof.
  cbn [formatBits]. destruct (u <? 10); [done | by apply formatBits_nonempty].
Qed.

(** Parsing the decimal representation of a [uint64] gives the number
    back, without an error. *)
Lemma ParseUint_FormatInt (u : Z) :
  0 ≤ u ≤ maxUint64 → ParseUint (FormatInt u) = (u, None).
Proof.
  intros Hu. unfold FormatInt.
  destruct (u <? 0) eqn:E; [apply Z.ltb_lt in E; lia | clear E].
  assert (0 ≤ u < 10 ^ Z.of_nat 20) as Hlt.
  { unfold maxUint64 in Hu. split; [lia |].
    assert (2 ^ 64 - 1 < 10 ^ Z.of_nat 20) by reflexivity. lia. }
  destruct (parseUintLoop_formatBits 20 u EmptyString Hlt)
    as (k & Hk & Hparse).
  specialize (Hparse 0 ltac:(lia) ltac:(lia)).
  pose proof (formatBits_S_nonempty 19 u EmptyString) as Hne.
  unfold ParseUint.
  destruct (formatBits 20 u EmptyString) as [| c s] eqn:Efmt; [done |].
  rewrite Hparse. cbn [parseUintLoop]. f_equal; lia.
Qed.

(* ===================================================================== *)
(** ** [serveFile] *)
(* ===================================================================== *)

Lemma WriteHeader_is_Some (w : ResponseWriter) (code : Z) :
  is_Some (rw_wrote (WriteHeader w code)).
Proof.
  unfold WriteHeader. destruct (rw_wrote w) eqn:E; simpl; rewrite ?E; eauto.
Qed.

Lemma WriteHeader_sent (w : ResponseWriter) (code : Z) :
  is_Some (rw_wrote w) → WriteHeader w code = w.
Proof. intros [x Hx]. unfold WriteHeader. by rewrite Hx. Qed.

Lemma tee_Write_app (tee : option Hash) (p q : list byte) :
  tee_Write (tee_Write tee p) q = tee_Write tee (p ++ q).
Proof.
  destruct tee as [h |]; simpl; [| done].
  unfold Hash_Write; simpl. by rewrite app_assoc.
Qed.

Lemma tee_Write_nil (tee : option Hash) : tee_Write tee [] = tee.
Proof.
  destruct tee as [[f d] |]; simpl; [| done].
  unfold Hash_Write; simpl. by rewrite app_nil_r.
Qed.

(** A writer with room for [k] bytes takes a slice of at most [k] bytes
    whole, and keeps room for the rest. *)
Lemma Writer_Write_accepts (w : Writer) (p : list byte) (k : Z) :
  accepts w k → Z.of_nat (length p) ≤ k →
  ∃ w', Writer_Write w p = (w', Z.of_nat (length p), None) ∧
        wr_data w' = wr_data w ++ p ∧
        accepts w' (k - Z.of_nat (length p)).
Proof.
  unfold accepts, Writer_Write. intros Hacc Hlen.
  destruct (wr_room w) as [room |].
  - destruct (length p <=? room)%nat eqn:E;
      [apply Nat.leb_le in E | apply Nat.leb_gt in E; lia].
    eexists. split; [reflexivity |]. simpl. split; [done | lia].
  - eexists. split; [reflexivity |]. simpl. done.
Qed.

(** A [CopyN] of [count] bytes that the reader still has and the writer
    takes: the slice goes out whole, and through the tee. *)
Lemma CopyN_ok (w : ResponseWriter) (buf : list byte) (i : nat)
    (hasher : option Hash) (count k : Z) :
  0 < count → count ≤ Z.of_nat (length buf - i) →
  accepts (rw_conn w) k → count ≤ k →
  let p := take (Z.to_nat count) (drop i buf) in
  ∃ w1 : ResponseWriter,
    CopyN w {| r_s := buf; r_i := i |} hasher count =
      (w1, {| r_s := buf; r_i := (i + Z.to_nat count)%nat |},
       tee_Write hasher p, count, None) ∧
    length p = Z.to_nat count ∧
    sentBody w1 = sentBody w ++ p ∧
    rw_header w1 = rw_header w ∧
    rw_wrote w1 = rw_wrote (WriteHeader w StatusOK) ∧
    accepts (rw_conn w1) (k - count).
Proof.
  intros Hcount Hlen Hacc Hk p.
  assert (length p = Z.to_nat count) as Hp.
  { subst p. rewrite length_take, length_drop. lia. }
  unfold CopyN. simpl. fold p. rewrite Hp.
  assert (match p with
          | [] => (w, 0, None)
          | _ :: _ => ResponseWriter_Write w p
          end = ResponseWriter_Write w p) as ->.
  { destruct p; [simpl in Hp; lia | done]. }
  unfold ResponseWriter_Write.
  assert (rw_conn (WriteHeader w StatusOK) = rw_conn w) as Hconn.
  { unfold WriteHeader. by destruct (rw_wrote w). }
  assert (rw_header (WriteHeader w StatusOK) = rw_header w) as Hhdr.
  { unfold WriteHeader. by destruct (rw_wrote w). }
  destruct (Writer_Write_accepts (rw_conn w) p k Hacc ltac:(lia))
    as (c' & Hw & Hdata & Hacc').
  assert (Z.of_nat (length p) = count) as Hpz by lia.
  rewrite Hpz in Hw, Hacc'. rewrite Hconn, Hw.
  rewrite Z.ltb_irrefl.
  eexists. split; [reflexivity |]. simpl.
  repeat split; done.
Qed.

Lemma putInt64LE_length (v : Z) : length (putInt64LE v) = 8%nat.
Proof. reflexivity. Qed.

(** The buffer that [init] builds has [bufferSize] bytes, that is 1 MiB. *)
Lemma init_length (rnd : nat → Z) :
  Z.of_nat (length (init rnd)) = bufferSize ∧ bufferSize = 1048576.
Proof.
  split; [| reflexivity]. unfold init.
  assert (∀ l : list nat,
            length (concat (map (λ i : nat, putInt64LE (rnd i)) l))
            = (8 * length l)%nat) as Hlen.
  { induction l as [| i l IH]; [done |].
    cbn [map concat]. rewrite length_app, IH, putInt64LE_length.
    cbn [length]. lia. }
  rewrite Hlen, length_seq.
  assert (bufferSize / 8 = 131072) as -> by reflexivity.
  assert (bufferSize = 1048576) as -> by reflexivity. lia.
Qed.

Lemma init_not_empty (rnd : nat → Z) : init rnd ≠ [].
Proof.
  intros Heq. pose proof (init_length rnd) as [Hlen Hsize].
  rewrite Heq, Hsize in Hlen. discriminate Hlen.
Qed.

(** An error reply on a response whose header is not out yet carries the
    status of the error. *)
Lemma http_Error_status (w : ResponseWriter) (msg : string) (code : Z) :
  rw_wrote w = None → sentStatus (http_Error w msg code) = Some code.
Proof.
  intros Hfresh.
  unfold http_Error, ResponseWriter_Write, WriteHeader, rw_set_header; simpl.
  rewrite Hfresh. simpl. by destruct (Writer_Write _ _) as [[? ?] ?].
Qed.

Lemma httpErrorf_status (w : ResponseWriter) (code : Z) (msg : string) :
  rw_wrote w = None → sentStatus (httpErrorf w code msg) = Some code.
Proof.
  intros Hfresh.
  unfold httpErrorf, ResponseWriter_Write, WriteHeader, rw_set_header; simpl.
  rewrite Hfresh. simpl. by destruct (Writer_Write _ _) as [[? ?] ?].
Qed.

Section ServerProperties.
Context `{Library}.
Variable contentsBuffer : list byte.
Hypothesis buffer_not_empty : contentsBuffer ≠ [].

Local Abbreviation L := (length contentsBuffer) (only parsing).

(** The loop of [serveFile] on a connection with room for what remains:
    it ends within [remain] turns, without an error, having written
    [remain] bytes read round the buffer from the index [i]. *)
Lemma serveLoop_ok (fuel : nat) :
  ∀ (w : ResponseWriter) (i : nat) (hasher : option Hash) (remain : Z),
    0 ≤ remain → (Z.to_nat remain ≤ fuel)%nat → (i ≤ L)%nat →
    accepts (rw_conn w) remain →
    ∃ (out : list byte) (w' : ResponseWriter),
      serveLoop fuel w {| r_s := contentsBuffer; r_i := i |}
        hasher remain = Some (w', tee_Write hasher out, None) ∧
      Z.of_nat (length out) = remain ∧
      (∀ j : nat, (j < length out)%nat →
         out !! j = contentsBuffer !! ((i + j) mod L)%nat) ∧
      sentBody w' = sentBody w ++ out ∧
      rw_header w' = rw_header w ∧
      rw_wrote w' =
        (if remain =? 0 then rw_wrote w
         else rw_wrote (WriteHeader w StatusOK)).
Proof.
  assert (0 < L)%nat as HL.
  { destruct contentsBuffer; [done | simpl; lia]. }
  induction fuel as [| fuel IH]; intros w i hasher remain Hrem Hfuel Hi Hacc.
  - assert (remain = 0) as -> by lia. exists [], w. simpl.
    rewrite tee_Write_nil, app_nil_r.
    repeat split; try done. intros j Hj. simpl in Hj. lia.
  - destruct (decide (remain = 0)) as [-> | Hpos].
    { exists [], w. simpl. rewrite tee_Write_nil, app_nil_r.
      repeat split; try done. intros j Hj. simpl in Hj. lia. }
    simpl.
    destruct (remain <=? 0) eqn:E; [apply Z.leb_le in E; lia | clear E].
    set (i' := if decide (i = L) then 0%nat else i).
    assert ((if Reader_Len {| r_s := contentsBuffer; r_i := i |} =? 0
             then Reader_Seek0 {| r_s := contentsBuffer; r_i := i |}
             else {| r_s := contentsBuffer; r_i := i |})
            = {| r_s := contentsBuffer; r_i := i' |}) as ->.
    { unfold Reader_Len, Reader_Seek0; simpl. subst i'.
      destruct (decide (i = L)) as [-> | Hne].
      - by rewrite Nat.sub_diag.
      - destruct (Z.of_nat (L - i) =? 0) eqn:E;
          [apply Z.eqb_eq in E; lia | done]. }
    assert (i' < L)%nat as Hi'.
    { subst i'. destruct (decide (i = L)); lia. }
    assert (∀ j, ((i + j) mod L = (i' + j) mod L)%nat) as Hmod.
    { intros j. subst i'. destruct (decide (i = L)) as [-> | Hne]; [| done].
      rewrite Nat.add_comm. rewrite <- Nat.Div0.add_mod_idemp_r.
      rewrite Nat.Div0.mod_same. by rewrite Nat.add_0_r. }
    set (count :=
           min (Reader_Len {| r_s := contentsBuffer; r_i := i' |}) remain).
    assert (0 < count ∧ count ≤ Z.of_nat (L - i') ∧ count ≤ remain)
      as (Hc0 & Hc1 & Hc2).
    { subst count. unfold min, Reader_Len; simpl.
      destruct (Z.of_nat (L - i') <? remain) eqn:E;
        [apply Z.ltb_lt in E | apply Z.ltb_ge in E]; lia. }
    destruct (CopyN_ok w contentsBuffer i' hasher count remain
                Hc0 Hc1 Hacc Hc2)
      as (w1 & -> & Hp & Hbody1 & Hhdr1 & Hwrote1 & Hacc1).
    set (p := take (Z.to_nat count) (drop i' contentsBuffer)) in *.
    destruct (IH w1 (i' + Z.to_nat count)%nat (tee_Write hasher p)
                (remain - count))
      as (out2 & w' & -> & Hlen2 & Hidx2 & Hbody2 & Hhdr2 & Hwrote2);
      [lia | lia | lia | done |].
    exists (p ++ out2), w'. rewrite tee_Write_app.
    split; [done |]. split; [rewrite length_app; lia |].
    split; [| split; [| split]].
    + intros j Hj. rewrite Hmod.
      destruct (decide (j < length p)%nat) as [Hlt | Hge].
      * rewrite lookup_app_l by done. subst p.
        rewrite lookup_take_lt by lia. rewrite lookup_drop.
        rewrite Nat.mod_small by lia. done.
      * rewrite lookup_app_r by lia.
        rewrite Hidx2 by (rewrite length_app in Hj; lia).
        f_equal. f_equal. lia.
    + rewrite Hbody2, Hbody1. by rewrite app_assoc.
    + congruence.
    + rewrite Hwrote2.
      destruct (remain =? 0) eqn:E0; [apply Z.eqb_eq in E0; lia |].
      destruct (remain - count =? 0); [done |].
      rewrite WriteHeader_sent; [done |].
      rewrite Hwrote1. apply WriteHeader_is_Some.
Qed.

(** What [serveFile] does for a valid request on a connection that takes
    the whole body. *)
Lemma serveFile_ok (fuel : nat) (w : ResponseWriter) (fileid : string)
    (size : Z) (checksumAlg : string) :
  0 < size →
  checksumAlg = "" ∨ isChecksumAvailable checksumAlg = true →
  rw_wrote w = None →
  accepts (rw_conn w) size →
  (Z.to_nat size ≤ fuel)%nat →
  ∃ (w' : ResponseWriter) (out : list byte),
    serveFile contentsBuffer fuel w fileid size checksumAlg =
      Some (w', (StatusOK, None)) ∧
    sentStatus w' = Some StatusOK ∧
    sentBody w' = sentBody w ++ out ∧
    Z.of_nat (length out) = size ∧
    (∀ j : nat, (j < length out)%nat →
       out !! j = contentsBuffer !! (j mod L)%nat) ∧
    sentTrailer w' "X-Content-Length" = FormatInt size ∧
    (checksumAlg ≠ "" →
     ∃ h : Hash,
       getChecksumByName checksumAlg = inl h ∧
       sentHeader w' "X-Checksum-Algorithm" = checksumAlg ∧
       sentTrailer w' "X-Checksum-Value" =
         EncodeToString (Hash_Sum (Hash_Write h out))).
Proof.
  intros Hsize Halg Hfresh Hacc Hfuel. unfold serveFile.
  set (lookup := if negb (String.eqb checksumAlg "") then _ else _).
  assert (∃ hasher : option Hash, lookup = inl hasher ∧
            (checksumAlg = "" → hasher = None) ∧
            (checksumAlg ≠ "" →
             ∃ h, hasher = Some h ∧ getChecksumByName checksumAlg = inl h))
    as (hasher & -> & Hnone & Hsome).
  { subst lookup.
    destruct (String.eqb checksumAlg "") eqn:E; simpl;
      [apply String.eqb_eq in E | apply String.eqb_neq in E].
    - exists None. done.
    - destruct Halg as [-> | Havail]; [done |].
      unfold isChecksumAvailable in Havail.
      destruct (getChecksumByName checksumAlg) as [h | e]; [| done].
      exists (Some h). split; [done |]. split; [done | eauto]. }
  destruct hasher as [h |]; cbn iota.
  - (* with a checksum *)
    set (h0 := Header_Add _ "Trailer" "X-Checksum-Value").
    destruct (serveLoop_ok fuel (rw_set_header w h0) 0 (Some h) size)
      as (out & w' & Hloop & Hlen & Hidx & Hbody & Hhdr & Hwrote);
      [lia | done | lia | done |].
    unfold NewReader. rewrite Hloop. simpl.
    destruct (size =? 0) eqn:E0; [apply Z.eqb_eq in E0; lia | clear E0].
    unfold WriteHeader in Hwrote. simpl in Hwrote, Hhdr.
    rewrite Hfresh in Hwrote. simpl in Hwrote.
    eexists _, out. split; [reflexivity |].
    unfold sentStatus, sentTrailer, sentHeader; simpl.
    rewrite Hwrote; simpl.
    assert (h0 !! "Trailer" = Some ["X-Content-Length"; "X-Checksum-Value"])
      as ->.
    { subst h0. unfold Header_Add, Header_Set.
      rewrite lookup_insert_eq. rewrite lookup_insert_ne by done.
      by rewrite lookup_insert_eq. }
    simpl.
    split; [done |]. split; [done |]. split; [done |].
    split; [exact Hidx |].
    split.
    { try (rewrite bool_decide_eq_true_2 by set_solver).
      unfold Header_Get, Header_Set. rewrite lookup_insert_ne by done.
      by rewrite lookup_insert_eq. }
    intros Hne. destruct (Hsome Hne) as (h' & [= <-] & Hget).
    exists h. split; [done |]. split.
    { subst h0. unfold Header_Get, Header_Add, Header_Set.
      rewrite lookup_insert_ne by done. by rewrite lookup_insert_eq. }
    try (rewrite bool_decide_eq_true_2 by set_solver).
    unfold Header_Get, Header_Set. by rewrite lookup_insert_eq.
  - (* without *)
    set (h0 := Header_Set _ "Trailer" "X-Content-Length").
    destruct (serveLoop_ok fuel (rw_set_header w h0) 0 None size)
      as (out & w' & Hloop & Hlen & Hidx & Hbody & Hhdr & Hwrote);
      [lia | done | lia | done |].
    unfold NewReader. rewrite Hloop. simpl.
    destruct (size =? 0) eqn:E0; [apply Z.eqb_eq in E0; lia | clear E0].
    unfold WriteHeader in Hwrote. simpl in Hwrote, Hhdr.
    rewrite Hfresh in Hwrote. simpl in Hwrote.
    eexists _, out. split; [reflexivity |].
    unfold sentStatus, sentTrailer, sentHeader; simpl.
    rewrite Hwrote; simpl.
    assert (h0 !! "Trailer" = Some ["X-Content-Length"]) as ->.
    { subst h0. unfold Header_Set. by rewrite lookup_insert_eq. }
    simpl.
    split; [done |]. split; [done |]. split; [done |].
    split; [exact Hidx |].
    split.
    { try (rewrite bool_decide_eq_true_2 by set_solver).
      unfold Header_Get, Header_Set. by rewrite lookup_insert_eq. }
    intros Hne. destruct (Hsome Hne) as (h' & [=] & _).
Qed.

(** A valid request reaches [serveFile]: method GET, exactly one [id], one
    [size] that [parseSize] accepts, and no [checksum] or exactly one that
    is supported. *)
Lemma handleGetFile_serves (fuel : nat) (w : ResponseWriter)
    (query : Header) (peerCertificates : list (string * string))
    (fileID sz : string) (size : Z) (checksumAlg : string) :
  query !! "id" = Some [fileID] →
  query !! "size" = Some [sz] →
  parseSize sz = inl size →
  (query !! "checksum" = None ∧ checksumAlg = "") ∨
  (query !! "checksum" = Some [checksumAlg] ∧
   isChecksumAvailable checksumAlg = true) →
  handleGetFile contentsBuffer fuel w "GET" (Some query) peerCertificates =
  fst <$> serveFile contentsBuffer fuel w fileID size checksumAlg.
Proof.
  intros Hid Hsz Hparse Hsum. unfold handleGetFile. simpl.
  rewrite Hid, Hsz, Hparse.
  assert (match peerCertificates with
          | [] => isAuthorized fileID size "" ""
          | _ :: _ =>
              forallb (λ cert, isAuthorized fileID size cert.1 cert.2)
                peerCertificates
          end = true) as ->.
  { destruct peerCertificates as [| cert certs]; [done |].
    apply forallb_forall. intros x _. unfold isAuthorized.
    by destruct (_ || _). }
  destruct Hsum as [[-> ->] | [-> Havail]]; [done |].
  by rewrite Havail.
Qed.

(** What a client gets for a valid request on a connection that takes the
    whole body: status 200, [size] bytes of body, and the length and the
    checksum in the trailers. *)
Lemma handleGetFile_writes_size (fuel : nat) (conn : Writer)
    (query : Header) (peerCertificates : list (string * string))
    (fileID sz : string) (size : Z) :
  query !! "id" = Some [fileID] →
  query !! "size" = Some [sz] →
  parseSize sz = inl size →
  query !! "checksum" = None →
  accepts conn size →
  (Z.to_nat size ≤ fuel)%nat →
  ∃ (w' : ResponseWriter) (out : list byte),
    handleGetFile contentsBuffer fuel (NewResponseWriter conn) "GET"
      (Some query) peerCertificates = Some w' ∧
    sentStatus w' = Some StatusOK ∧
    sentBody w' = wr_data conn ++ out ∧
    Z.of_nat (length out) = size ∧
    sentTrailer w' "X-Content-Length" = FormatInt size.
Proof.
  intros Hid Hsz Hparse Hsum Hacc Hfuel.
  rewrite (handleGetFile_serves fuel _ query peerCertificates fileID sz size
             EmptyString Hid Hsz Hparse (or_introl (conj Hsum eq_refl))).
  pose proof (parseSize_range sz size Hparse) as [Hpos _].
  destruct (serveFile_ok fuel (NewResponseWriter conn) fileID size EmptyString
              Hpos (or_introl eq_refl) eq_refl Hacc Hfuel)
    as (w' & out & -> & Hst & Hbody & Hlen & _ & Htrl & _).
  exists w', out. done.
Qed.

(** The requests that never reach [serveFile]: another method is answered
    405; a missing or repeated [id] or [size], a size that does not parse
    and a checksum that is repeated or not supported are answered 400. *)
Lemma handleGetFile_rejections (fuel : nat) (conn : Writer)
    (peerCertificates : list (string * string)) :
  let w := NewResponseWriter conn in
  let status method query :=
    sentStatus <$>
      handleGetFile contentsBuffer fuel w method (Some query)
        peerCertificates in
  status "POST" ∅ = Some (Some StatusMethodNotAllowed) ∧
  status "GET" ∅ = Some (Some StatusBadRequest) ∧
  status "GET" (<["id" := ["x"]]> (<["size" := [""]]> ∅))
    = Some (Some StatusBadRequest) ∧
  status "GET" (<["id" := ["x"]]> (<["size" := ["1234"; "7890"]]> ∅))
    = Some (Some StatusBadRequest) ∧
  status "GET"
    (<["id" := ["x"]]>
       (<["size" := ["1234"]]> (<["checksum" := ["xxxx"]]> ∅)))
    = Some (Some StatusBadRequest) ∧
  status "GET"
    (<["id" := ["x"]]>
       (<["size" := ["1234"]]> (<["checksum" := ["xxxx"; "yyyy"]]> ∅)))
    = Some (Some StatusBadRequest).
Proof.
  cbn zeta.
  assert (∀ msg code,
            sentStatus <$> Some (http_Error (NewResponseWriter conn) msg code)
            = Some (Some code)) as Herr.
  { intros msg code. simpl. by rewrite http_Error_status. }
  assert (∀ msg code,
            sentStatus <$> Some (httpErrorf (NewResponseWriter conn) code msg)
            = Some (Some code)) as Herrf.
  { intros msg code. simpl. by rewrite httpErrorf_status. }
  repeat split.
  - apply Herr.
  - apply Herr.
  - etransitivity; [| apply (Herrf ("400 Bad request: invalid size value "
                                     ++ Quote "")%string)].
    vm_compute. reflexivity.
  - apply Herr.
  - etransitivity;
      [| apply (Herrf ("400 Bad request: invalid requested checksum "
                       ++ Quote "xxxx")%string)].
    vm_compute. reflexivity.
  - apply Herr.
Qed.

(** C1.  For a size in (0, 1 TiB], a checksum name that is empty or
    supported, and a connection that takes the whole body, [serveFile]
    returns 200 and no error (the loop ends within [size] turns), the body
    sent is exactly [size] bytes, byte [j] of it being the byte of the
    payload buffer at index [j] modulo the length of the buffer, and the
    trailer [X-Content-Length] is the decimal representation of [size]. *)
Theorem serveFile_writes_size (fuel : nat) (w : ResponseWriter)
    (fileid : string) (size : Z) (checksumAlg : string) :
  0 < size ≤ TB →
  checksumAlg = "" ∨ isChecksumAvailable checksumAlg = true →
  rw_wrote w = None →
  accepts (rw_conn w) size →
  (Z.to_nat size ≤ fuel)%nat →
  ∃ (w' : ResponseWriter) (out : list byte),
    serveFile contentsBuffer fuel w fileid size checksumAlg =
      Some (w', (StatusOK, None)) ∧
    sentStatus w' = Some StatusOK ∧
    sentBody w' = sentBody w ++ out ∧
    Z.of_nat (length out) = size ∧
    (∀ j : nat, (j < length out)%nat →
       out !! j = contentsBuffer !! (j mod length contentsBuffer)%nat) ∧
    sentTrailer w' "X-Content-Length" = FormatInt size.
Proof.
  intros [Hsize _] Halg Hfresh Hacc Hfuel.
  destruct (serveFile_ok fuel w fileid size checksumAlg
              Hsize Halg Hfresh Hacc Hfuel)
    as (w' & out & Hrun & Hst & Hbody & Hlen & Hidx & Htrl & _).
  exists w', out. repeat split; done.
Qed.
End ServerProperties.

(* ===================================================================== *)
(** ** The size of the worker pool *)
(* ===================================================================== *)

Lemma wrap64_small (z : Z) : minInt64 ≤ z ≤ maxInt64 → wrap64 z = z.
Proof.
  unfold wrap64, minInt64, maxInt64. intros Hz.
  rewrite Z.mod_small by lia. lia.
Qed.

(** C7.  On a machine with at least one CPU (and few enough for
    [1000 * NumCPU] to be an [int]), the pool has [2 * NumCPU] workers when
    [Concurrency] is 0, its size always lies in [1, 1000 * NumCPU], and a
    requested concurrency above [1000 * NumCPU] is brought down to it. *)
Theorem numWorkers_clamped (numCPU concurrency : Z) :
  1 ≤ numCPU →
  1000 * numCPU ≤ maxInt64 →
  (concurrency = 0 → numWorkers numCPU concurrency = 2 * numCPU) ∧
  1 ≤ numWorkers numCPU concurrency ≤ 1000 * numCPU ∧
  (1000 * numCPU < concurrency →
   numWorkers numCPU concurrency = 1000 * numCPU).
Proof.
  intros Hcpu Hmax. unfold numWorkers, minInt.
  assert (minInt64 ≤ 0) by (unfold minInt64; lia).
  rewrite !wrap64_small by lia.
  destruct (concurrency <=? 0) eqn:Hc;
    [apply Z.leb_le in Hc | apply Z.leb_gt in Hc].
  - destruct (2 * numCPU <? 1000 * numCPU) eqn:Hlt;
      [apply Z.ltb_lt in Hlt | apply Z.ltb_ge in Hlt]; lia.
  - destruct (concurrency <? 1000 * numCPU) eqn:Hlt;
      [apply Z.ltb_lt in Hlt | apply Z.ltb_ge in Hlt]; lia.
Qed.

Lemma numWorkers_clamped_witness :
  (0 = 0 → numWorkers 8 0 = 2 * 8) ∧
  1 ≤ numWorkers 8 0 ≤ 1000 * 8 ∧
  (1000 * 8 < 0 → numWorkers 8 0 = 1000 * 8).
Proof. apply (numWorkers_clamped 8 0); unfold maxInt64; lia. Defined.

(* ===================================================================== *)
(** ** [splitAndClean] *)
(* ===================================================================== *)

Section SplitAndClean.
Implicit Types (m : gmap string bool) (l : list string).

Lemma foldl_insert_true_lookup l m x :
  foldl (λ m c, <[c := true]> m) m l !! x =
  if bool_decide (x ∈ l) then Some true else m !! x.
Proof.
  revert m. induction l as [| c l IH]; intros m; simpl.
  - reflexivity.
  - rewrite IH. destruct (decide (x = c)) as [-> | Hne].
    + rewrite lookup_insert_eq.
      rewrite (bool_decide_eq_true_2 (c ∈ c :: l)) by set_solver.
      by destruct (bool_decide (c ∈ l)).
    + rewrite lookup_insert_ne by done.
      destruct (decide (x ∈ l)) as [Hin | Hnin].
      * rewrite !bool_decide_eq_true_2 by set_solver. done.
      * rewrite !bool_decide_eq_false_2 by set_solver. done.
Qed.

Lemma splitAndClean_elem (s x : string) :
  x ∈ splitAndClean s ↔ x ∈ Split s ",".
Proof.
  unfold splitAndClean. rewrite list_elem_of_fmap. split.
  - intros [[k v] [-> Hkv]]. simpl.
    apply elem_of_map_to_list in Hkv.
    rewrite foldl_insert_true_lookup in Hkv.
    case_bool_decide; [done | by rewrite lookup_empty in Hkv].
  - intros Hin. exists (x, true). split; [done |].
    apply elem_of_map_to_list. rewrite foldl_insert_true_lookup.
    by rewrite bool_decide_eq_true_2.
Qed.
End SplitAndClean.

(** C8.  The list returned by [splitAndClean] has no duplicates and holds
    exactly the comma-separated components of its argument; for "a,b,a,c"
    these are a, b and c. *)
Theorem splitAndClean_set (s : string) :
  NoDup (splitAndClean s) ∧
  (∀ x, x ∈ splitAndClean s ↔ x ∈ Split s ",") ∧
  (list_to_set (splitAndClean "a,b,a,c") : gset string) = {["a"; "b"; "c"]}.
Proof.
  split; [| split].
  - unfold splitAndClean. apply NoDup_fst_map_to_list.
  - intros x. apply splitAndClean_elem.
  - apply set_eq. intros x. rewrite elem_of_list_to_set, splitAndClean_elem.
    simpl. set_solver.
Qed.

(* ===================================================================== *)
(** ** The worker loop *)
(* ===================================================================== *)

Section WorkerProperties.
Context `{Library}.

Lemma liftNet_chans {A : Type} (m : State Net A) (p : Proc) :
  chans (liftNet m p).2 = chans p.
Proof. unfold liftNet. by destruct (m (net p)). Qed.

Lemma processDownloadRequest_seqNumber (req : DownloadReq) (n : Net) :
  resp_seqNumber (processDownloadRequest req n).1 = seqNumber req.
Proof.
  unfold processDownloadRequest, bind, ret.
  by destruct (DownloadFile _ _ _ _ _ _ _ n) as [r n'].
Qed.

(** One turn of the worker either drops the request, past its deadline, or
    answers it once. *)
Lemma workerTurn_cases (req : DownloadReq) (p : Proc) :
  let now := clock (net p) (ticks (net p)) in
  let p' := (workerTurn req p).2 in
  (After now (notAfter req) = true ∧ chans p' = chans p ∧ wg p' = wg p) ∨
  (After now (notAfter req) = false ∧
   ∃ resp : DownloadResp,
     resp_seqNumber resp = seqNumber req ∧
     chans p' = chan_push (chans p) (replyTo req) resp ∧ wg p' = wg p).
Proof.
  cbn zeta. unfold workerTurn, bind, liftNet at 1, time_Now; simpl.
  destruct (After _ _) eqn:Hafter.
  - left. done.
  - right. split; [done |].
    unfold liftNet; simpl.
    destruct (processDownloadRequest req _) as [resp n'] eqn:Hresp.
    exists resp. split; [| done].
    change resp with (resp, n').1. rewrite <- Hresp.
    apply processDownloadRequest_seqNumber.
Qed.

(** C9.  One turn of the worker for a request [req]: when the clock is
    past [notAfter] no channel receives anything; otherwise the channel
    [replyTo] of the request receives exactly one more [DownloadResp],
    which carries the sequence number of the request, and no other
    channel changes. *)
Theorem workerTurn_reply (req : DownloadReq) (p : Proc) :
  let now := clock (net p) (ticks (net p)) in
  let p' := (workerTurn req p).2 in
  (After now (notAfter req) = true → chans p' = chans p) ∧
  (After now (notAfter req) = false →
   ∃ resp : DownloadResp,
     resp_seqNumber resp = seqNumber req ∧
     chans p' =
       <[replyTo req := default [] (chans p !! replyTo req) ++ [resp]]>
         (chans p)).
Proof.
  cbn zeta.
  destruct (workerTurn_cases req p)
    as [(Hafter & Hchans & _) | (Hafter & resp & Hseq & Hchans & _)].
  - split; [done | congruence].
  - split; [congruence |]. intros _. exists resp. done.
Qed.

(** The whole loop of a worker: the messages it sends answer, one for one
    and in order, some of the requests it received (those that were not
    past their deadline), each with the sequence number of its request. *)
Lemma workerLoop_replies (reqs : list DownloadReq) :
  ∀ p : Proc,
    ∃ sent : list (DownloadReq * DownloadResp),
      sublist sent.*1 reqs ∧
      Forall (λ qr, resp_seqNumber qr.2 = seqNumber qr.1) sent ∧
      chans (workerLoop reqs p).2 =
        foldl (λ chs qr, chan_push chs (replyTo qr.1) qr.2) (chans p) sent ∧
      wg (workerLoop reqs p).2 = wg p.
Proof.
  induction reqs as [| req reqs IH]; intros p.
  - exists []. simpl. repeat split; [constructor | constructor].
  - simpl. unfold bind.
    destruct (workerTurn req p) as [[] p1] eqn:Hturn.
    pose proof (workerTurn_cases req p) as Hcases. cbn zeta in Hcases.
    rewrite Hturn in Hcases. simpl in Hcases.
    destruct (IH p1) as (sent & Hsub & Hall & Hchans & Hwg).
    cbn beta iota.
    destruct Hcases
      as [(_ & Hch1 & Hwg1) | (_ & resp & Hseq & Hch1 & Hwg1)].
    + exists sent. rewrite Hchans, Hch1, Hwg, Hwg1.
      repeat split; [by apply sublist_cons | done].
    + exists ((req, resp) :: sent). simpl.
      rewrite Hchans, Hch1, Hwg, Hwg1.
      repeat split; [by apply sublist_skip | by constructor].
Qed.

(** A worker tells the wait group once that it is done. *)
Lemma clientWorker_done (workerId : Z) (reqs : list DownloadReq) (p : Proc) :
  wg (clientWorker workerId reqs p).2 = wg p - 1.
Proof.
  unfold clientWorker, bind.
  destruct (workerLoop_replies reqs p) as (sent & _ & _ & _ & Hwg).
  destruct (workerLoop reqs p) as [[] p1]. simpl in *. by rewrite Hwg.
Qed.
End WorkerProperties.

(* ===================================================================== *)
(** ** [io.Copy] *)
(* ===================================================================== *)

Section CopyProperties.
Implicit Types (dst : Writer) (h : Hash) (chunks : list (list byte)).

(** Without a tee there is no hasher at the end. *)
Lemma copyLoop_tee_None dst chunks rerr written :
  cr_tee (copyLoop dst None chunks rerr written) = None.
Proof.
  revert dst written. induction chunks as [| p chunks IH]; intros; simpl.
  - reflexivity.
  - destruct (Writer_Write dst p) as [[dst' nw] [e |]]; simpl; [done |].
    destruct (negb _); simpl; [done | apply IH].
Qed.

Lemma io_Copy_tee_None dst (src : Reader) :
  cr_tee (io_Copy dst None src) = None.
Proof. apply copyLoop_tee_None. Qed.

(** With a tee, the hasher at the end is the one at the start, fed with
    the bytes that were read. *)
Lemma copyLoop_tee_Some dst h chunks rerr written :
  ∃ read : list byte,
    cr_tee (copyLoop dst (Some h) chunks rerr written) =
    Some (Hash_Write h read).
Proof.
  revert dst h written.
  induction chunks as [| p chunks IH]; intros; simpl.
  - exists []. unfold Hash_Write. rewrite app_nil_r. by destruct h.
  - destruct (Writer_Write dst p) as [[dst' nw] [e |]]; simpl;
      [by exists p |].
    destruct (negb _); simpl; [by exists p |].
    destruct (IH dst' (Hash_Write h p) (written + nw)) as [read ->].
    exists (p ++ read). unfold Hash_Write; simpl. by rewrite app_assoc.
Qed.

Lemma io_Copy_tee_Some dst h (src : Reader) :
  ∃ read : list byte,
    cr_tee (io_Copy dst (Some h) src) = Some (Hash_Write h read).
Proof. apply copyLoop_tee_Some. Qed.

(** Into a sink that never fails, the whole body is copied: every byte
    goes through the tee and is counted, and the error is the one that
    ended the body, if any. *)
Lemma copyLoop_unbounded dst tee chunks rerr written :
  wr_room dst = None →
  copyLoop dst tee chunks rerr written =
  {| cr_dst := {| wr_data := wr_data dst ++ concat chunks;
                  wr_room := None |};
     cr_tee := tee_Write tee (concat chunks);
     cr_written := written + Z.of_nat (length (concat chunks));
     cr_err := rerr |}.
Proof.
  revert dst tee written.
  induction chunks as [| p chunks IH]; intros dst tee written Hroom; simpl.
  - rewrite app_nil_r, Z.add_0_r. f_equal.
    + destruct dst; simpl in *; by subst.
    + destruct tee as [[] |]; simpl; [| done].
      unfold Hash_Write; simpl. by rewrite app_nil_r.
  - unfold Writer_Write. rewrite Hroom. rewrite Z.eqb_refl. simpl.
    rewrite IH by done. simpl. f_equal.
    + by rewrite app_assoc.
    + destruct tee as [h |]; simpl; [| done].
      unfold Hash_Write; simpl. by rewrite app_assoc.
    + rewrite length_app. lia.
Qed.

Lemma io_Copy_unbounded dst tee (src : Reader) :
  wr_room dst = None →
  io_Copy dst tee src =
  {| cr_dst := {| wr_data := wr_data dst ++ concat (rd_chunks src);
                  wr_room := None |};
     cr_tee := tee_Write tee (concat (rd_chunks src));
     cr_written := Z.of_nat (length (concat (rd_chunks src)));
     cr_err := rd_err src |}.
Proof. intros Hroom. unfold io_Copy. by rewrite copyLoop_unbounded. Qed.
End CopyProperties.

(* ===================================================================== *)
(** ** [DownloadFile]: the request *)
(* ===================================================================== *)

(** Unfolds the state passing of [DownloadFile]. *)
Ltac unfold_download :=
  unfold DownloadFile, bind, ret, time_Since, time_Now, Do, bind, ret,
    time_Now; simpl.

Section RequestProperties.
Context `{Library}.

Lemma getChecksumName_cases (algo : Z) :
  (algo = SHA256 ∧ getChecksumName algo = "sha256") ∨
  (algo = SHA512 ∧ getChecksumName algo = "sha512") ∨
  (algo ≠ SHA256 ∧ algo ≠ SHA512 ∧ getChecksumName algo = "").
Proof.
  unfold getChecksumName, checksumMap.
  destruct (decide (algo = SHA256)) as [-> | H1];
    [left; by rewrite lookup_insert_eq |].
  destruct (decide (algo = SHA512)) as [-> | H2].
  - right; left. rewrite lookup_insert_ne by done.
    by rewrite lookup_insert_eq.
  - right; right. rewrite !lookup_insert_ne by done.
    by rewrite lookup_empty.
Qed.

(** The guard at the head of [DownloadFile] lets the call through. *)
Lemma guard_passes (chkMode chkAlgo : Z) :
  chkMode = ChecksumNone ∨ getChecksumName chkAlgo ≠ "" →
  negb (chkMode =? ChecksumNone)
  && (getChecksumName chkAlgo =? "")%string = false.
Proof.
  intros [-> | Hname]; [done |].
  apply andb_false_iff. right. by apply String.eqb_neq.
Qed.

(** C5.  When the mode is not NONE and the key has no name, [DownloadFile]
    returns at once with an error: the sink, the clock and the list of
    requests issued are as before.  In every other case it issues
    exactly one request, a GET of [https://serverAddr/file] whose query
    carries [id] and [size], and carries [checksum] (with the name of the
    algorithm) if and only if the mode is SERVER_ONLY or BOTH. *)
Theorem DownloadFile_request (c : Client) (serverAddr fileID : string)
    (size : Z) (chkMode chkAlgo : Z) (dst : Writer) (n : Net) :
  let res := DownloadFile c serverAddr fileID size chkMode chkAlgo dst n in
  (chkMode ≠ ChecksumNone → getChecksumName chkAlgo = "" →
   Err res.1.1 = Some (ErrInvalidRequestedAlgorithm chkAlgo) ∧
   res.1.2 = dst ∧ res.2 = n) ∧
  (chkMode = ChecksumNone ∨ getChecksumName chkAlgo ≠ "" →
   ∃ req : Request,
     issued res.2 = issued n ++ [req] ∧
     Method req = "GET" ∧
     Scheme (req_URL req) = "https" ∧
     Host (req_URL req) = serverAddr ∧
     Path (req_URL req) = "/file" ∧
     Query (req_URL req) !! "id" = Some [fileID] ∧
     Query (req_URL req) !! "size" = Some [FormatInt size] ∧
     (is_Some (Query (req_URL req) !! "checksum") ↔
      chkMode = ChecksumServerOnly ∨ chkMode = ChecksumClientAndServer) ∧
     (is_Some (Query (req_URL req) !! "checksum") →
      Query (req_URL req) !! "checksum" = Some [getChecksumName chkAlgo])).
Proof.
  cbn zeta. split.
  - intros Hmode Hname. unfold DownloadFile. rewrite Hname.
    destruct (chkMode =? ChecksumNone) eqn:E;
      [apply Z.eqb_eq in E; done | done].
  - intros Hok. unfold DownloadFile. rewrite (guard_passes _ _ Hok).
    set (req := buildRequest _ _ _ _ _).
    exists req. split.
    { unfold bind, ret, time_Since, time_Now, Do, bind, ret, time_Now.
      simpl. repeat (case_match; simpl; try done). }
    subst req. unfold buildRequest, Header_Set; simpl.
    destruct (chkMode =? ChecksumServerOnly) eqn:E2;
      [apply Z.eqb_eq in E2 | apply Z.eqb_neq in E2];
      (destruct (chkMode =? ChecksumClientAndServer) eqn:E3;
       [apply Z.eqb_eq in E3 | apply Z.eqb_neq in E3]); simpl;
      repeat split; try done; try (intros _; by eauto);
      try (rewrite !lookup_insert_ne by done;
           rewrite lookup_empty; intros [? ?]; done).
    intros [? | ?]; done.
Qed.

(** C6 (the code departs from the claim).  In the mode SERVER_ONLY the
    trailer [X-Checksum-Value] is never read and nothing is computed
    locally: whatever the server reports, the checksum of a successful
    report is the name of the algorithm followed by a colon and nothing
    else. *)
Theorem DownloadFile_server_only_checksum (c : Client)
    (serverAddr fileID : string) (size : Z) (chkAlgo : Z) (dst : Writer)
    (n : Net) :
  let report :=
    (DownloadFile c serverAddr fileID size ChecksumServerOnly chkAlgo
       dst n).1.1 in
  Err report = None →
  Checksum report = (getChecksumName chkAlgo ++ ":")%string.
Proof.
  cbn zeta. unfold_download.
  repeat (case_match; simpl; try done).
  by rewrite io_Copy_tee_None in *.
Qed.
End RequestProperties.

(* ===================================================================== *)
(** ** [DownloadFile]: the checks after the body *)
(* ===================================================================== *)

Lemma ToLower_empty (s : string) : ToLower s = EmptyString ↔ s = EmptyString.
Proof. destruct s; simpl; split; intros; done. Qed.

Lemma length_zero_empty (s : string) :
  (String.length s =? 0)%nat = true ↔ s = EmptyString.
Proof. destruct s; simpl; split; intros; done. Qed.

Lemma length_nonzero_nonempty (s : string) :
  (String.length s =? 0)%nat = false ↔ s ≠ EmptyString.
Proof. destruct s; simpl; split; intros; done. Qed.

Lemma Hash_Sum_Write (h0 : Hash) (read : list byte) :
  h_written h0 = [] → Hash_Sum (Hash_Write h0 read) = h_sum h0 read.
Proof. intros Hw. unfold Hash_Sum, Hash_Write; simpl. by rewrite Hw. Qed.

Lemma lower_ascii_hexDigit (b : byte) :
  lower_ascii (hexDigit (Byte.to_N b / 16)) = hexDigit (Byte.to_N b / 16) ∧
  lower_ascii (hexDigit (Byte.to_N b mod 16)) = hexDigit (Byte.to_N b mod 16).
Proof. destruct b; split; reflexivity. Qed.

(** The digits of [hex.EncodeToString] are in lower case already. *)
Lemma ToLower_EncodeToString (bs : list byte) :
  ToLower (EncodeToString bs) = EncodeToString bs.
Proof.
  induction bs as [| b bs IH]; simpl; [done |].
  destruct (lower_ascii_hexDigit b) as [-> ->]. by rewrite IH.
Qed.

Section VerificationProperties.
Context `{Library}.

(** The names of the registry are in lower case. *)
Lemma ToLower_getChecksumName (algo : Z) :
  ToLower (getChecksumName algo) = getChecksumName algo.
Proof.
  destruct (getChecksumName_cases algo)
    as [[_ ->] | [[_ ->] | (_ & _ & ->)]]; reflexivity.
Qed.

(** A key with a name has a hasher, which starts empty. *)
Lemma newChecksumer_named (algo : Z) :
  getChecksumName algo ≠ "" →
  ∃ h0 : Hash, newChecksumer algo = Some h0 ∧ h_written h0 = [].
Proof.
  unfold getChecksumName, newChecksumer, getChecksumByKey, checksumMap.
  destruct (decide (algo = SHA256)) as [-> | H1].
  { rewrite lookup_insert_eq. simpl. eauto. }
  destruct (decide (algo = SHA512)) as [-> | H2].
  { rewrite lookup_insert_ne by done. rewrite lookup_insert_eq.
    simpl. eauto. }
  rewrite !lookup_insert_ne by done. rewrite lookup_empty. done.
Qed.

(** Looking a registered name up gives the hasher of its key. *)
Lemma getChecksumByName_name (algo : Z) :
  getChecksumName algo ≠ "" →
  getChecksumByName (getChecksumName algo) =
  match newChecksumer algo with
  | Some h => inl h
  | None => inr (ErrUnknownChecksum (getChecksumName algo))
  end.
Proof.
  intros Hname.
  destruct (getChecksumName_cases algo)
    as [[-> Hn] | [[-> Hn] | (_ & _ & Hn)]]; [| | done].
  - reflexivity.
  - reflexivity.
Qed.

(** In the mode CLIENT_ONLY the checksum of a successful report is the
    digest computed locally. *)
Lemma DownloadFile_client_only_checksum (c : Client)
    (serverAddr fileID : string) (size : Z) (chkAlgo : Z) (dst : Writer)
    (n : Net) (resp : Response) :
  let algorithm := getChecksumName chkAlgo in
  let report :=
    (DownloadFile c serverAddr fileID size ChecksumClientOnly chkAlgo
       dst n).1.1 in
  transport c (buildRequest serverAddr fileID size false algorithm)
    = inl resp →
  Err report = None →
  ∃ (h0 : Hash) (read : list byte),
    newChecksumer chkAlgo = Some h0 ∧
    cr_tee (io_Copy dst (Some h0) (Body resp)) = Some (Hash_Write h0 read) ∧
    Checksum report =
      (algorithm ++ ":" ++ EncodeToString (h_sum h0 read))%string.
Proof.
  cbn zeta. intros Hresp. unfold DownloadFile.
  destruct (negb _ && _) eqn:Hguard; [unfold ret; simpl; done |].
  assert (getChecksumName chkAlgo ≠ "") as Hname.
  { apply andb_false_iff in Hguard as [Hg | Hg]; [by vm_compute in Hg |].
    by apply String.eqb_neq. }
  destruct (newChecksumer_named chkAlgo Hname) as (h0 & Hh0 & Hw0).
  destruct (io_Copy_tee_Some dst h0 (Body resp)) as [read Hread].
  unfold_download. rewrite Hresp. simpl.
  clear Hguard.
  destruct (negb (StatusCode resp =? StatusOK)); simpl; [done |].
  rewrite Hh0, Hread, (Hash_Sum_Write _ _ Hw0), ToLower_EncodeToString.
  destruct (String.length _ =? 0)%nat; simpl; [done |].
  destruct (negb (wrap64 _ =? _)); simpl; [done |].
  intros _. exists h0, read. done.
Qed.

(** Mode BOTH, for a key with a name and a response with status 200: when
    the call fails on the algorithm and when it succeeds, and what the
    checksum of the report is then. *)
Lemma DownloadFile_both_cases (c : Client) (serverAddr fileID : string)
    (size : Z) (chkAlgo : Z) (dst : Writer) (n : Net) (resp : Response) :
  let algorithm := getChecksumName chkAlgo in
  let res :=
    DownloadFile c serverAddr fileID size ChecksumClientAndServer chkAlgo
      dst n in
  let cr := io_Copy dst (newChecksumer chkAlgo) (Body resp) in
  let serverAlgo := Header_Get (resp_Header resp) "X-Checksum-Algorithm" in
  let clength := Header_Get (Trailer resp) "X-Content-Length" in
  let serverValue := Header_Get (Trailer resp) "X-Checksum-Value" in
  algorithm ≠ "" →
  transport c (buildRequest serverAddr fileID size true algorithm)
    = inl resp →
  StatusCode resp = StatusOK →
  ∃ (h0 : Hash) (read : list byte),
    newChecksumer chkAlgo = Some h0 ∧
    cr_tee cr = Some (Hash_Write h0 read) ∧
    (¬ EqualFold serverAlgo algorithm →
     Err res.1.1 = Some (ErrUnexpectedServerAlgorithm (ToLower serverAlgo)) ∧
     res.1.2 = dst) ∧
    (Err res.1.1 = None ↔
     EqualFold serverAlgo algorithm ∧
     clength ≠ "" ∧
     wrap64 (ParseUint clength).1 = cr_written cr ∧
     serverValue ≠ "" ∧
     EqualFold (EncodeToString (h_sum h0 read)) serverValue) ∧
    (Err res.1.1 = None →
     Checksum res.1.1 = (algorithm ++ ":" ++ ToLower serverValue)%string).
Proof.
  cbn zeta. intros Hname Hresp Hstatus.
  destruct (newChecksumer_named chkAlgo Hname) as (h0 & Hh0 & Hw0).
  destruct (io_Copy_tee_Some dst h0 (Body resp)) as [read Hread].
  exists h0, read. rewrite Hh0. split; [done |]. split; [done |].
  unfold DownloadFile. rewrite (guard_passes _ _ (or_intror Hname)).
  unfold_download. rewrite Hresp, Hstatus. simpl. rewrite Hh0.
  unfold EqualFold. rewrite ToLower_getChecksumName.
  destruct (String.eqb (getChecksumName chkAlgo) (ToLower _)) eqn:Ealg; simpl.
  2: { apply String.eqb_neq in Ealg. split; [done |].
       split; [| done]. split; [done | intros [Heq _]; congruence]. }
  apply String.eqb_eq in Ealg. rewrite Hread, (Hash_Sum_Write _ _ Hw0).
  split; [intros Hne; congruence |].
  destruct (String.length _ =? 0)%nat eqn:Ecl; simpl.
  { apply (proj1 (length_zero_empty _)) in Ecl.
    split; [| done]. split; [done | tauto]. }
  apply (proj1 (length_nonzero_nonempty _)) in Ecl.
  destruct (wrap64 _ =? _) eqn:Elen; simpl;
    [apply Z.eqb_eq in Elen | apply Z.eqb_neq in Elen].
  2: { split; [| done]. split; [done | tauto]. }
  destruct (String.length (ToLower _) =? 0)%nat eqn:Esv; simpl.
  { apply (proj1 (length_zero_empty _)), (proj1 (ToLower_empty _)) in Esv.
    split; [| done]. split; [done | tauto]. }
  apply (proj1 (length_nonzero_nonempty _)) in Esv.
  destruct (String.eqb (ToLower (EncodeToString _)) _) eqn:Esum; simpl;
    [apply String.eqb_eq in Esum | apply String.eqb_neq in Esum].
  2: { split; [| done]. split; [done | tauto]. }
  destruct (String.eqb (ToLower _) EmptyString) eqn:Ee; simpl;
    [apply String.eqb_eq in Ee; done |].
  rewrite ToLower_empty in Esv. split; done.
Qed.

(** C3.  Mode BOTH, for a key with a name and a response with status 200.
    The algorithm announced in the header [X-Checksum-Algorithm] is
    compared first, without regard to case, with the name requested: when
    they differ the call fails before any byte is copied to the sink.
    Otherwise the hasher of the requested key receives the bytes read
    from the body, and the call succeeds exactly when, besides the check
    of the length, the trailer [X-Checksum-Value] is present and equal,
    without regard to case, to the hexadecimal digest computed locally.
    In particular the two checksums agree after every success. *)
Theorem DownloadFile_both_verifies (c : Client) (serverAddr fileID : string)
    (size : Z) (chkAlgo : Z) (dst : Writer) (n : Net) (resp : Response) :
  let algorithm := getChecksumName chkAlgo in
  let res :=
    DownloadFile c serverAddr fileID size ChecksumClientAndServer chkAlgo
      dst n in
  let cr := io_Copy dst (newChecksumer chkAlgo) (Body resp) in
  let serverAlgo := Header_Get (resp_Header resp) "X-Checksum-Algorithm" in
  let clength := Header_Get (Trailer resp) "X-Content-Length" in
  let serverValue := Header_Get (Trailer resp) "X-Checksum-Value" in
  algorithm ≠ "" →
  transport c (buildRequest serverAddr fileID size true algorithm)
    = inl resp →
  StatusCode resp = StatusOK →
  (¬ EqualFold serverAlgo algorithm →
   Err res.1.1 = Some (ErrUnexpectedServerAlgorithm (ToLower serverAlgo)) ∧
   res.1.2 = dst) ∧
  ∃ (h0 : Hash) (read : list byte),
    newChecksumer chkAlgo = Some h0 ∧
    cr_tee cr = Some (Hash_Write h0 read) ∧
    let clientValue := EncodeToString (h_sum h0 read) in
    (serverValue = "" → Err res.1.1 ≠ None) ∧
    (¬ EqualFold clientValue serverValue → Err res.1.1 ≠ None) ∧
    (Err res.1.1 = None ↔
     EqualFold serverAlgo algorithm ∧
     clength ≠ "" ∧
     wrap64 (ParseUint clength).1 = cr_written cr ∧
     serverValue ≠ "" ∧
     EqualFold clientValue serverValue).
Proof.
  cbn zeta. intros Hname Hresp Hstatus.
  destruct (DownloadFile_both_cases c serverAddr fileID size chkAlgo dst n
              resp Hname Hresp Hstatus)
    as (h0 & read & Hh0 & Htee & Hfirst & Hiff & _).
  split; [exact Hfirst |].
  exists h0, read. split; [done |]. split; [done |]. cbn zeta.
  split; [| split]; [| | exact Hiff].
  - intros Hempty Herr. apply Hiff in Herr. tauto.
  - intros Hne Herr. apply Hiff in Herr. tauto.
Qed.

(** C10.  Two downloads in the same mode whose responses have status 200
    and the same headers and trailers, and whose copies of the body wrote
    the same number of bytes and led to the same local digest, report the
    same [Err]: the error of the copy itself, which is not among these
    conditions, has no influence.  And whenever the trailer
    [X-Content-Length] parses to the number of bytes copied and the
    checksum comparison of the mode BOTH, when it applies, passes, [Err]
    is [nil], however the copy ended. *)
Theorem DownloadFile_ignores_copy_error (c1 c2 : Client)
    (serverAddr fileID : string) (size : Z) (chkMode chkAlgo : Z)
    (dst1 dst2 : Writer) (n : Net) (resp1 resp2 : Response) :
  let algorithm := getChecksumName chkAlgo in
  let req :=
    buildRequest serverAddr fileID size
      ((chkMode =? ChecksumServerOnly) || (chkMode =? ChecksumClientAndServer))
      algorithm in
  let tee :=
    if (chkMode =? ChecksumClientOnly) || (chkMode =? ChecksumClientAndServer)
    then newChecksumer chkAlgo else None in
  let cr1 := io_Copy dst1 tee (Body resp1) in
  let cr2 := io_Copy dst2 tee (Body resp2) in
  let report1 :=
    (DownloadFile c1 serverAddr fileID size chkMode chkAlgo dst1 n).1.1 in
  let report2 :=
    (DownloadFile c2 serverAddr fileID size chkMode chkAlgo dst2 n).1.1 in
  let clength := Header_Get (Trailer resp1) "X-Content-Length" in
  transport c1 req = inl resp1 →
  transport c2 req = inl resp2 →
  StatusCode resp1 = StatusOK →
  StatusCode resp2 = StatusOK →
  resp_Header resp1 = resp_Header resp2 →
  Trailer resp1 = Trailer resp2 →
  cr_written cr1 = cr_written cr2 →
  Hash_Sum <$> cr_tee cr1 = Hash_Sum <$> cr_tee cr2 →
  Err report1 = Err report2 ∧
  (chkMode = ChecksumNone ∨ algorithm ≠ "" →
   clength ≠ "" →
   wrap64 (ParseUint clength).1 = cr_written cr1 →
   (chkMode = ChecksumClientAndServer →
    EqualFold (Header_Get (resp_Header resp1) "X-Checksum-Algorithm")
      algorithm ∧
    Header_Get (Trailer resp1) "X-Checksum-Value" ≠ "" ∧
    ∀ h, cr_tee cr1 = Some h →
         EqualFold (EncodeToString (Hash_Sum h))
           (Header_Get (Trailer resp1) "X-Checksum-Value")) →
   Err report1 = None).
Proof.
  cbn zeta. intros Hresp1 Hresp2 Hst1 Hst2 Hhdr Htrl Hwritten Hsum.
  unfold DownloadFile.
  destruct (negb (chkMode =? ChecksumNone) && _) eqn:Hguard.
  { split; [done |]. intros Hok. by rewrite (guard_passes _ _ Hok) in Hguard. }
  assert (chkMode = ChecksumNone ∨ getChecksumName chkAlgo ≠ "") as Hok.
  { apply andb_false_iff in Hguard as [Hg | Hg].
    - left. apply negb_false_iff, Z.eqb_eq in Hg. done.
    - right. by apply String.eqb_neq. }
  clear Hguard.
  unfold_download. rewrite Hresp1, Hresp2, Hst1, Hst2. simpl.
  rewrite <- Hhdr, <- Htrl.
  unfold EqualFold. rewrite ToLower_getChecksumName.
  destruct (chkMode =? ChecksumClientOnly) eqn:E1; simpl in *.
  - (* CLIENT_ONLY *)
    apply Z.eqb_eq in E1. subst chkMode. simpl in *.
    rewrite <- Hwritten.
    destruct (String.length _ =? 0)%nat eqn:Ecl; simpl.
    { apply (proj1 (length_zero_empty _)) in Ecl. split; [done | tauto]. }
    destruct (wrap64 _ =? _) eqn:Elen; simpl;
      [apply Z.eqb_eq in Elen | apply Z.eqb_neq in Elen];
      (split; [done | tauto]).
  - destruct (chkMode =? ChecksumClientAndServer) eqn:E3; simpl in *.
    + (* BOTH *)
      apply Z.eqb_eq in E3. subst chkMode. simpl in *.
      destruct (String.eqb (getChecksumName chkAlgo) (ToLower _)) eqn:Ealg;
        simpl;
        [apply String.eqb_eq in Ealg | apply String.eqb_neq in Ealg].
      2: { split; [done |]. intros _ _ _ Hboth.
           destruct (Hboth eq_refl) as [Heq _]. congruence. }
      rewrite <- Hwritten.
      destruct (String.length _ =? 0)%nat eqn:Ecl; simpl.
      { apply (proj1 (length_zero_empty _)) in Ecl. split; [done | tauto]. }
      destruct (wrap64 _ =? _) eqn:Elen; simpl;
        [apply Z.eqb_eq in Elen | apply Z.eqb_neq in Elen].
      2: { split; [done | tauto]. }
      destruct (String.length (ToLower _) =? 0)%nat eqn:Esv; simpl.
      { apply (proj1 (length_zero_empty _)), (proj1 (ToLower_empty _)) in Esv.
        split; [done |]. intros _ _ _ Hboth.
        destruct (Hboth eq_refl) as (_ & Hne & _). done. }
      destruct (cr_tee (io_Copy dst1 _ _)) as [h1 |] eqn:Ht1;
        destruct (cr_tee (io_Copy dst2 _ _)) as [h2 |] eqn:Ht2;
        simpl in Hsum; try discriminate.
      * injection Hsum as Hsum. rewrite <- Hsum.
        destruct (String.eqb (ToLower (EncodeToString _)) _) eqn:Es; simpl;
          [apply String.eqb_eq in Es | apply String.eqb_neq in Es].
        -- destruct (negb _); simpl; split; done.
        -- split; [done |]. intros _ _ _ Hboth.
           destruct (Hboth eq_refl) as (_ & _ & Hd).
           specialize (Hd h1 eq_refl). done.
      * destruct (String.eqb EmptyString _) eqn:Es; simpl;
          [apply String.eqb_eq in Es | apply String.eqb_neq in Es].
        -- destruct (negb _); simpl; split; done.
        -- split; [done |]. intros _ _ _ Hboth.
           destruct (newChecksumer chkAlgo) as [h0 |] eqn:Hh0.
           ++ destruct (io_Copy_tee_Some dst1 h0 (Body resp1)) as [rd Hrd].
              congruence.
           ++ destruct Hok as [Hok | Hok]; [done |].
              destruct (newChecksumer_named _ Hok) as (h0 & Hh0' & _).
              congruence.
    + (* NONE, SERVER_ONLY and the values outside the enumeration *)
      rewrite <- Hwritten.
      destruct (String.length _ =? 0)%nat eqn:Ecl; simpl.
      { apply (proj1 (length_zero_empty _)) in Ecl. split; [done | tauto]. }
      destruct (wrap64 _ =? _) eqn:Elen; simpl;
        [apply Z.eqb_eq in Elen | apply Z.eqb_neq in Elen].
      2: { split; [done | tauto]. }
      destruct (negb (chkMode =? ChecksumNone)); simpl; split; done.
Qed.


(** C4 (the code departs from the claim).  The error of [ParseUint] is
    dropped, so that a trailer that is not a number counts as 0: a
    response with an empty body and the trailer [X-Content-Length: abc]
    passes the check of the length, although the trailer does not equal
    the number of bytes copied. *)
Theorem DownloadFile_unparsable_length_accepted (n : Net) :
  let resp := okResponse "" [] None "abc" "" in
  let report :=
    (DownloadFile (constClient resp) "localhost:5678" "test1" 1000
       ChecksumNone SHA256 Discard n).1.1 in
  Header_Get (Trailer resp) "X-Content-Length" = "abc" ∧
  ParseUint "abc" = (0, Some ErrSyntax) ∧
  cr_written (io_Copy Discard None (Body resp)) = 0 ∧
  Err report = None.
Proof. cbn zeta. repeat split; vm_compute; reflexivity. Qed.
End VerificationProperties.

(* ===================================================================== *)
(** ** From the server to the client *)
(* ===================================================================== *)

Lemma EncodeToString_empty (bs : list byte) :
  EncodeToString bs = EmptyString → bs = [].
Proof. destruct bs; [done | discriminate]. Qed.

Lemma EqualFold_refl (s : string) : EqualFold s s.
Proof. reflexivity. Qed.

Section EndToEnd.
Context `{Library}.
Variable contentsBuffer : list byte.
Hypothesis buffer_not_empty : contentsBuffer ≠ [].
Hypothesis digests_not_empty :
  ∀ bs : list byte, sha256_Sum bs ≠ [] ∧ sha512_Sum bs ≠ [].

Lemma newChecksumer_digest (algo : Z) (h0 : Hash) (bs : list byte) :
  newChecksumer algo = Some h0 → h_sum h0 bs ≠ [].
Proof.
  unfold newChecksumer, getChecksumByKey, checksumMap.
  destruct (decide (algo = SHA256)) as [-> | H1].
  { rewrite lookup_insert_eq. simpl. intros [= <-]. apply digests_not_empty. }
  destruct (decide (algo = SHA512)) as [-> | H2].
  { rewrite lookup_insert_ne by done. rewrite lookup_insert_eq. simpl.
    intros [= <-]. apply digests_not_empty. }
  rewrite !lookup_insert_ne by done. rewrite lookup_empty. done.
Qed.

(** From one end to the other, in the mode BOTH: when the response that the
    client receives is what [serveFile] sent for the request (status,
    algorithm header, body bytes in any chunks, trailers) and the sink takes
    every byte, the download succeeds and reports the checksum of the
    server. *)
Lemma served_file_verifies (fuel : nat) (conn : Writer) (fileid : string)
    (size : Z) (chkAlgo : Z) (c : Client) (serverAddr fileID : string)
    (dst : Writer) (n : Net) (w' : ResponseWriter) (st : Z * option error)
    (resp : Response) :
  let algorithm := getChecksumName chkAlgo in
  let report :=
    (DownloadFile c serverAddr fileID size ChecksumClientAndServer chkAlgo
       dst n).1.1 in
  0 < size ≤ TB →
  algorithm ≠ "" →
  accepts conn size →
  wr_data conn = [] →
  (Z.to_nat size ≤ fuel)%nat →
  serveFile contentsBuffer fuel (NewResponseWriter conn) fileid size algorithm
    = Some (w', st) →
  transport c (buildRequest serverAddr fileID size true algorithm)
    = inl resp →
  Some (StatusCode resp) = sentStatus w' →
  Header_Get (resp_Header resp) "X-Checksum-Algorithm"
    = sentHeader w' "X-Checksum-Algorithm" →
  concat (rd_chunks (Body resp)) = sentBody w' →
  Header_Get (Trailer resp) "X-Content-Length"
    = sentTrailer w' "X-Content-Length" →
  Header_Get (Trailer resp) "X-Checksum-Value"
    = sentTrailer w' "X-Checksum-Value" →
  wr_room dst = None →
  Err report = None ∧
  Checksum report =
    (algorithm ++ ":" ++ sentTrailer w' "X-Checksum-Value")%string.
Proof.
  cbn zeta.
  intros Hsize Hname Hacc Hempty Hfuel Hserve Hresp Hst Halgo Hbody Hcl Hcv
    Hroom.
  destruct (newChecksumer_named chkAlgo Hname) as (h0 & Hh0 & Hw0).
  pose proof (getChecksumByName_name chkAlgo Hname) as Hbyname.
  rewrite Hh0 in Hbyname.
  assert (isChecksumAvailable (getChecksumName chkAlgo) = true) as Havail.
  { unfold isChecksumAvailable. by rewrite Hbyname. }
  destruct (serveFile_ok contentsBuffer buffer_not_empty fuel
              (NewResponseWriter conn) fileid size (getChecksumName chkAlgo)
              ltac:(lia) (or_intror Havail) eq_refl Hacc Hfuel)
    as (w0 & out & Hrun & Hst0 & Hbody0 & Hlen & _ & Hcl0 & Hsum0).
  rewrite Hrun in Hserve. injection Hserve as <- <-.
  destruct (Hsum0 Hname) as (h & Hh & Halgo0 & Hcv0).
  rewrite Hbyname in Hh. injection Hh as <-.
  unfold sentBody at 2 in Hbody0. simpl in Hbody0. rewrite Hempty in Hbody0.
  simpl in Hbody0.
  rewrite Hst0 in Hst. injection Hst as Hst.
  rewrite Halgo0 in Halgo. rewrite Hcl0 in Hcl.
  rewrite Hcv0, (Hash_Sum_Write _ _ Hw0) in Hcv |- *.
  rewrite Hbody0 in Hbody.
  destruct (DownloadFile_both_cases c serverAddr fileID size chkAlgo dst n
              resp Hname Hresp Hst)
    as (h1 & read & Hh1 & Htee & _ & Hiff & Hsum).
  rewrite Hh0 in Hh1. injection Hh1 as <-.
  rewrite Hh0, io_Copy_unbounded in Htee, Hiff by done. simpl in Htee, Hiff.
  injection Htee as Hread. unfold Hash_Write in Hread.
  rewrite Hw0 in Hread. simpl in Hread.
  assert (read = out) as -> by congruence.
  assert (Err (DownloadFile c serverAddr fileID size ChecksumClientAndServer
                 chkAlgo dst n).1.1 = None) as Herr.
  { apply Hiff. rewrite Halgo, Hcl, Hcv, Hbody.
    assert (0 ≤ size ≤ maxUint64) as Hrange.
    { unfold maxUint64. assert (TB < 2 ^ 64 - 1) by reflexivity. lia. }
    pose proof (ParseUint_FormatInt size Hrange) as Hparse.
    split; [apply EqualFold_refl |]. split.
    { intros Heq. rewrite Heq in Hparse. discriminate. }
    split.
    { rewrite Hparse. simpl. rewrite wrap64_small; [lia |].
      unfold minInt64, maxInt64. assert (TB < 2 ^ 63 - 1) by reflexivity.
      lia. }
    split; [| apply EqualFold_refl].
    intros Heq. apply EncodeToString_empty in Heq.
    by apply (newChecksumer_digest chkAlgo h0 out). }
  split; [exact Herr |].
  rewrite (Hsum Herr), Hcv. by rewrite ToLower_EncodeToString.
Qed.
End EndToEnd.

(* ===================================================================== *)
(** ** Instances *)
(* ===================================================================== *)

Lemma serveFile_writes_size_witness :
  let buf := [x01; x02; x03; x04; x05] in
  let w := NewResponseWriter Discard in
  ∃ (w' : ResponseWriter) (out : list byte),
    serveFile (H:=toyLibrary) buf 12 w "file-1" 12 "sha256" =
      Some (w', (StatusOK, None)) ∧
    sentStatus w' = Some StatusOK ∧
    sentBody w' = sentBody w ++ out ∧
    Z.of_nat (length out) = 12 ∧
    (∀ j : nat, (j < length out)%nat →
       out !! j = buf !! (j mod length buf)%nat) ∧
    sentTrailer w' "X-Content-Length" = FormatInt 12.
Proof.
  cbn zeta.
  apply (serveFile_writes_size (H:=toyLibrary) [x01; x02; x03; x04; x05]
           ltac:(discriminate) 12 (NewResponseWriter Discard) "file-1" 12
           "sha256");
    [split; [lia | vm_compute; discriminate] | right; reflexivity
    | reflexivity | exact I | lia].
Defined.

Lemma DownloadFile_both_verifies_witness :
  let resp := okResponse "SHA256" [[xab]; [xcd]] None "2" "ABCD" in
  let res :=
    DownloadFile (H:=toyLibrary) (constClient resp) "localhost:5678" "test8"
      2 ChecksumClientAndServer SHA256 Discard net0 in
  EqualFold "abcd" "ABCD" ∧ Err res.1.1 = None.
Proof.
  cbn zeta.
  destruct (DownloadFile_both_verifies (H:=toyLibrary)
              (constClient (okResponse "SHA256" [[xab]; [xcd]] None "2" "ABCD"))
              "localhost:5678" "test8" 2 SHA256 Discard net0
              (okResponse "SHA256" [[xab]; [xcd]] None "2" "ABCD")
              ltac:(vm_compute; discriminate) eq_refl eq_refl)
    as [_ (h0 & read & Hh0 & Htee & _ & _ & Hiff)].
  split; [reflexivity |].
  vm_compute in Hh0. injection Hh0 as <-.
  vm_compute in Htee. injection Htee as <-.
  apply Hiff. repeat split; vm_compute; congruence.
Defined.

Lemma DownloadFile_request_witness :
  let c := constClient (okResponse "" [] None "0" "") in
  (let res :=
     DownloadFile (H:=toyLibrary) c "localhost:5678" "test2" 1000
       ChecksumClientOnly 345 Discard net0 in
   Err res.1.1 = Some (ErrInvalidRequestedAlgorithm 345) ∧
   res.1.2 = Discard ∧ res.2 = net0) ∧
  (let res :=
     DownloadFile (H:=toyLibrary) c "localhost:5678" "test7" 945710
       ChecksumServerOnly SHA256 Discard net0 in
   ∃ req : Request,
     issued res.2 = issued net0 ++ [req] ∧
     Query (req_URL req) !! "size" = Some ["945710"] ∧
     Query (req_URL req) !! "checksum" = Some ["sha256"]).
Proof.
  cbn zeta. split.
  - apply (proj1 (DownloadFile_request (H:=toyLibrary)
                    (constClient (okResponse "" [] None "0" ""))
                    "localhost:5678" "test2" 1000 ChecksumClientOnly 345
                    Discard net0));
      [discriminate | vm_compute; reflexivity].
  - assert (getChecksumName (H:=toyLibrary) SHA256 ≠ "") as Hname
      by (vm_compute; discriminate).
    pose proof (proj2 (DownloadFile_request (H:=toyLibrary)
                         (constClient (okResponse "" [] None "0" ""))
                         "localhost:5678" "test7" 945710 ChecksumServerOnly
                         SHA256 Discard net0)
                  (or_intror Hname)) as X.
    destruct X as [req X]. exists req.
    split; [exact (proj1 X) |].
    do 6 apply proj2 in X.
    split; [exact (proj1 X) |].
    apply (proj2 (proj2 X)), (proj1 (proj2 X)). left. reflexivity.
Defined.

Lemma DownloadFile_server_only_checksum_witness :
  let resp := okResponse "sha256" [[x01; x02]; [x03]] None "3" "01020304" in
  let report :=
    (DownloadFile (H:=toyLibrary) (constClient resp) "localhost:5678" "test7"
       3 ChecksumServerOnly SHA256 Discard net0).1.1 in
  Header_Get (Trailer resp) "X-Checksum-Value" = "01020304" ∧
  Err report = None ∧
  Checksum report = "sha256:".
Proof.
  cbn zeta. split; [reflexivity |]. split; [reflexivity |].
  exact (DownloadFile_server_only_checksum (H:=toyLibrary)
           (constClient
              (okResponse "sha256" [[x01; x02]; [x03]] None "3" "01020304"))
           "localhost:5678" "test7" 3 SHA256 Discard net0 eq_refl).
Defined.

Lemma workerTurn_reply_witness :
  let req (deadline : Z) :=
    {| seqNumber := 7; server := "localhost:5678";
       fsclient := constClient (okResponse "" [[x01; x02; x03]] None "3" "");
       fileID := "file-7"; size := 3; notAfter := deadline; replyTo := 1 |} in
  let p := {| net := net0; chans := ∅; wg := 1 |} in
  chans (workerTurn (H:=toyLibrary) (req (-1)) p).2 = chans p ∧
  ∃ resp : DownloadResp,
    resp_seqNumber resp = 7 ∧
    chans (workerTurn (H:=toyLibrary) (req 100) p).2 =
      <[1%nat := [resp]]> (chans p).
Proof.
  cbn zeta. split.
  - apply (proj1 (workerTurn_reply (H:=toyLibrary)
                    {| seqNumber := 7; server := "localhost:5678";
                       fsclient :=
                         constClient
                           (okResponse "" [[x01; x02; x03]] None "3" "");
                       fileID := "file-7"; size := 3; notAfter := -1;
                       replyTo := 1 |}
                    {| net := net0; chans := ∅; wg := 1 |})).
    reflexivity.
  - pose proof (proj2 (workerTurn_reply (H:=toyLibrary)
                    {| seqNumber := 7; server := "localhost:5678";
                       fsclient :=
                         constClient
                           (okResponse "" [[x01; x02; x03]] None "3" "");
                       fileID := "file-7"; size := 3; notAfter := 100;
                       replyTo := 1 |}
                    {| net := net0; chans := ∅; wg := 1 |}) eq_refl) as X.
    destruct X as [resp X]. exists resp.
    split; [exact (proj1 X) | exact (proj2 X)].
Defined.

Lemma DownloadFile_ignores_copy_error_witness :
  let broken :=
    okResponse "" [[x01; x02; x03]] (Some (ErrIO "connection reset")) "3" "" in
  let whole := okResponse "" [[x01; x02; x03]] None "3" "" in
  let report (resp : Response) :=
    (DownloadFile (H:=toyLibrary) (constClient resp) "localhost:5678" "test5"
       3 ChecksumNone SHA256 Discard net0).1.1 in
  cr_err (io_Copy Discard None (Body broken))
    = Some (ErrIO "connection reset") ∧
  Err (report broken) = Err (report whole) ∧
  Err (report broken) = None.
Proof.
  cbn zeta.
  destruct (DownloadFile_ignores_copy_error (H:=toyLibrary)
              (constClient
                 (okResponse "" [[x01; x02; x03]]
                    (Some (ErrIO "connection reset")) "3" ""))
              (constClient (okResponse "" [[x01; x02; x03]] None "3" ""))
              "localhost:5678" "test5" 3 ChecksumNone SHA256 Discard Discard
              net0
              (okResponse "" [[x01; x02; x03]]
                 (Some (ErrIO "connection reset")) "3" "")
              (okResponse "" [[x01; x02; x03]] None "3" "")
              eq_refl eq_refl eq_refl eq_refl eq_refl eq_refl eq_refl eq_refl)
    as [Hsame Hnil].
  split; [reflexivity |]. split; [exact Hsame |].
  apply Hnil; [left; reflexivity | vm_compute; discriminate | reflexivity |].
  intros Hmode. discriminate Hmode.
Defined.

(* ===================================================================== *)
(** ** Sizes in decimal: what the client writes and the server reads *)
(* ===================================================================== *)

Lemma append_cons (c : ascii) (s t : string) :
  (String c s ++ t)%string = String c (s ++ t).
Proof. reflexivity. Qed.

Lemma append_nil_l (t : string) : ("" ++ t)%string = t.
Proof. reflexivity. Qed.

Lemma append_assoc (s t u : string) :
  ((s ++ t) ++ u = s ++ (t ++ u))%string.
Proof.
  induction s as [| c s IH]; [done |]. rewrite !append_cons. by rewrite IH.
Qed.

Lemma length_append (s t : string) :
  String.length (s ++ t) = (String.length s + String.length t)%nat.
Proof.
  induction s as [| c s IH]; [done |]. rewrite append_cons. simpl.
  by rewrite IH.
Qed.

Lemma substring_last (s : string) (c : ascii) :
  substring (String.length s) 1 (s ++ String c "") = String c "".
Proof.
  induction s as [| a s IH]; [done |]. rewrite append_cons. simpl. exact IH.
Qed.

Lemma substring_init (s : string) (c : ascii) :
  substring 0 (String.length s) (s ++ String c "") = s.
Proof.
  induction s as [| a s IH]; [done |]. rewrite append_cons. simpl.
  by rewrite IH.
Qed.

(** Whether a string ends with a given character. *)
Lemma HasSuffix_last (s : string) (c k : ascii) :
  HasSuffix (s ++ String c "") (String k "") = Ascii.eqb c k.
Proof.
  unfold HasSuffix. rewrite length_append. cbn [String.length].
  replace (String.length s + 1 - 1)%nat with (String.length s) by lia.
  rewrite substring_last.
  replace (1 <=? String.length s + 1)%nat with true
    by (symmetry; apply Nat.leb_le; lia).
  cbn [andb String.eqb]. by destruct (Ascii.eqb c k).
Qed.

Lemma dropLast_last (s : string) (c : ascii) :
  dropLast (s ++ String c "") = s.
Proof.
  unfold dropLast. rewrite length_append. cbn [String.length].
  replace (String.length s + 1 - 1)%nat with (String.length s) by lia.
  apply substring_init.
Qed.

(** A decimal digit is none of the characters that [ParseInt] and
    [parseSize] give a meaning to. *)
Lemma digitChar_plain (d : Z) :
  0 ≤ d < 10 →
  Ascii.eqb (digitChar d) "+" = false ∧ Ascii.eqb (digitChar d) "-" = false ∧
  Ascii.eqb (digitChar d) "K" = false ∧ Ascii.eqb (digitChar d) "M" = false ∧
  Ascii.eqb (digitChar d) "G" = false.
Proof.
  intros Hd.
  assert (d = 0 ∨ d = 1 ∨ d = 2 ∨ d = 3 ∨ d = 4 ∨ d = 5 ∨ d = 6 ∨ d = 7 ∨
          d = 8 ∨ d = 9) as Hcases by lia.
  destruct Hcases
    as [-> | [-> | [-> | [-> | [-> | [-> | [-> | [-> | [-> | ->]]]]]]]]];
    repeat split; reflexivity.
Qed.

(** What [formatBits] writes starts with a digit... *)
Lemma formatBits_head (fuel : nat) :
  ∀ (u : Z) (acc : string),
    ∃ (d : Z) (rest : string),
      0 ≤ d < 10 ∧ formatBits (S fuel) u acc = String (digitChar d) rest.
Proof.
  induction fuel as [| fuel IH]; intros u acc.
  - exists (u mod 10). cbn [formatBits].
    pose proof (Z.mod_pos_bound u 10 ltac:(lia)).
    destruct (u <? 10); eauto.
  - pose proof (Z.mod_pos_bound u 10 ltac:(lia)).
    change (formatBits (S (S fuel)) u acc) with
      (if u <? 10 then String (digitChar (u mod 10)) acc
       else formatBits (S fuel) (u / 10) (String (digitChar (u mod 10)) acc)).
    destruct (u <? 10); [by eauto | apply IH].
Qed.

(** ... and ends with the last digit of the number, in front of [acc]. *)
Lemma formatBits_last (fuel : nat) :
  ∀ (u : Z) (acc : string),
    ∃ pre : string,
      formatBits (S fuel) u acc
      = (pre ++ String (digitChar (u mod 10)) acc)%string.
Proof.
  assert (∀ f u acc, ∃ pre, formatBits f u acc = (pre ++ acc)%string) as Hpre.
  { induction f as [| f IHf]; intros u acc; cbn [formatBits].
    - by exists EmptyString.
    - destruct (u <? 10).
      + by exists (String (digitChar (u mod 10)) EmptyString).
      + destruct (IHf (u / 10) (String (digitChar (u mod 10)) acc))
          as [pre ->].
        exists (pre ++ String (digitChar (u mod 10)) EmptyString)%string.
        by rewrite append_assoc. }
  intros u acc. cbn [formatBits]. destruct (u <? 10).
  - by exists EmptyString.
  - apply Hpre.
Qed.

(** [FormatInt] ends with a digit. *)
Lemma FormatInt_last (n : Z) :
  ∃ (pre : string) (d : Z),
    0 ≤ d < 10 ∧ FormatInt n = (pre ++ String (digitChar d) "")%string.
Proof.
  unfold FormatInt. destruct (n <? 0).
  - destruct (formatBits_last 19 (- n) EmptyString) as [pre ->].
    exists (String "-" pre), (- n mod 10). split; [| done].
    apply Z.mod_pos_bound. lia.
  - destruct (formatBits_last 19 n EmptyString) as [pre ->].
    exists pre, (n mod 10). split; [| done].
    apply Z.mod_pos_bound. lia.
Qed.

(** Parsing the decimal representation of an [int64] gives the number
    back, without an error. *)
Lemma ParseInt_FormatInt (n : Z) :
  minInt64 ≤ n ≤ maxInt64 → ParseInt (FormatInt n) = (n, None).
Proof.
  unfold minInt64, maxInt64. intros Hn. unfold FormatInt.
  destruct (n <? 0) eqn:E; [apply Z.ltb_lt in E | apply Z.ltb_ge in E].
  - assert (0 ≤ - n ≤ maxUint64) as Hrange by (unfold maxUint64; lia).
    pose proof (ParseUint_FormatInt (- n) Hrange) as Hparse.
    unfold FormatInt in Hparse.
    destruct (- n <? 0) eqn:E'; [apply Z.ltb_lt in E'; lia |].
    unfold ParseInt. cbn [Ascii.eqb Bool.eqb orb andb negb].
    change (Ascii.eqb "-" "+") with false.
    change (Ascii.eqb "-" "-") with true. cbn [orb negb andb].
    rewrite Hparse.
    destruct (2 ^ 63 <? - n) eqn:E2; [apply Z.ltb_lt in E2; lia |].
    f_equal. lia.
  - assert (0 ≤ n ≤ maxUint64) as Hrange by (unfold maxUint64; lia).
    pose proof (ParseUint_FormatInt n Hrange) as Hparse.
    unfold FormatInt in Hparse.
    destruct (n <? 0) eqn:E'; [apply Z.ltb_lt in E'; lia |].
    destruct (formatBits_head 19 n EmptyString) as (d & rest & Hd & Hfmt).
    rewrite Hfmt in *.
    destruct (digitChar_plain d Hd) as (Hplus & Hminus & _).
    unfold ParseInt. rewrite Hplus, Hminus. cbn [orb negb andb].
    rewrite Hparse.
    destruct (2 ^ 63 <=? n) eqn:E2; [apply Z.leb_le in E2; lia |].
    reflexivity.
Qed.

Lemma FormatInt_nonempty (n : Z) : (String.length (FormatInt n) =? 0)%nat = false.
Proof.
  destruct (FormatInt_last n) as (pre & d & _ & ->).
  rewrite length_append. cbn [String.length]. apply Nat.eqb_neq. lia.
Qed.

Lemma FormatInt_no_unit (n : Z) :
  HasSuffix (FormatInt n) "K" = false ∧
  HasSuffix (FormatInt n) "M" = false ∧
  HasSuffix (FormatInt n) "G" = false.
Proof.
  destruct (FormatInt_last n) as (pre & d & Hd & ->).
  rewrite !HasSuffix_last.
  destruct (digitChar_plain d Hd) as (_ & _ & HK & HM & HG). done.
Qed.

(** What [parseSize] makes of a number written in decimal. *)
Lemma parseSize_FormatInt_cases (n : Z) :
  minInt64 ≤ n ≤ maxInt64 →
  parseSize (FormatInt n) =
  if (0 <? n) && (n <=? TB) then inl n else inr (ErrInvalidFileSize n).
Proof.
  intros Hn. unfold parseSize. rewrite FormatInt_nonempty.
  destruct (FormatInt_no_unit n) as (-> & -> & ->).
  rewrite (ParseInt_FormatInt n Hn). rewrite Z.mul_1_r.
  rewrite (wrap64_small n Hn).
  destruct (0 <? n) eqn:E1; [apply Z.ltb_lt in E1 | apply Z.ltb_ge in E1];
  (destruct (n <=? TB) eqn:E2; [apply Z.leb_le in E2 | apply Z.leb_gt in E2]);
  (destruct (n <=? 0) eqn:E3; [apply Z.leb_le in E3 | apply Z.leb_gt in E3]);
  (destruct (TB <? n) eqn:E4; [apply Z.ltb_lt in E4 | apply Z.ltb_ge in E4]);
  cbn [andb orb]; try reflexivity; lia.
Qed.

(** The size that [DownloadFile] writes into the query is the size that
    [parseSize] reads. *)
Lemma parseSize_FormatInt (n : Z) :
  0 < n ≤ TB → parseSize (FormatInt n) = inl n.
Proof.
  intros Hn. assert (TB = 1099511627776) as HTB by reflexivity.
  rewrite parseSize_FormatInt_cases by (unfold minInt64, maxInt64; lia).
  destruct (0 <? n) eqn:E1; [| apply Z.ltb_ge in E1; lia].
  destruct (n <=? TB) eqn:E2; [done | apply Z.leb_gt in E2; lia].
Qed.

(** X1.  A size written in decimal, as [DownloadFile] writes it into the
    query, is read by [parseSize] as the same number when it lies in
    (0, 1 TiB], and is refused with the number in the error otherwise. *)
Theorem parseSize_decimal (n : Z) :
  minInt64 ≤ n ≤ maxInt64 →
  (0 < n ≤ TB → parseSize (FormatInt n) = inl n) ∧
  (n ≤ 0 ∨ TB < n →
   parseSize (FormatInt n) = inr (ErrInvalidFileSize n)).
Proof.
  intros Hn. rewrite (parseSize_FormatInt_cases n Hn).
  destruct (0 <? n) eqn:E1; [apply Z.ltb_lt in E1 | apply Z.ltb_ge in E1];
  (destruct (n <=? TB) eqn:E2; [apply Z.leb_le in E2 | apply Z.leb_gt in E2]);
  cbn [andb]; split; try done; lia.
Qed.

Lemma parseSize_decimal_witness :
  parseSize (FormatInt 945710) = inl 945710 ∧
  parseSize (FormatInt (-5)) = inr (ErrInvalidFileSize (-5)).
Proof.
  assert (minInt64 ≤ 945710 ≤ maxInt64) as H1
    by (split; vm_compute; discriminate).
  assert (minInt64 ≤ -5 ≤ maxInt64) as H2
    by (split; vm_compute; discriminate).
  assert (0 < 945710 ≤ TB) as H3 by (split; vm_compute; congruence).
  split.
  - exact (proj1 (parseSize_decimal 945710 H1) H3).
  - apply (proj2 (parseSize_decimal (-5) H2)). left. lia.
Defined.

(** X2.  The units: a decimal number followed by K, M or G is read as the
    number times 1024, 1024^2 or 1024^3 whenever that product lies in
    (0, 1 TiB]. *)
Theorem parseSize_units (n : Z) :
  0 < n →
  (n * 1024 ≤ TB → parseSize (FormatInt n ++ "K") = inl (n * 1024)) ∧
  (n * 1024 ^ 2 ≤ TB → parseSize (FormatInt n ++ "M") = inl (n * 1024 ^ 2)) ∧
  (n * 1024 ^ 3 ≤ TB → parseSize (FormatInt n ++ "G") = inl (n * 1024 ^ 3)).
Proof.
  intros Hn.
  assert (TB = 1099511627776) as HTB by reflexivity.
  assert (∀ (k : ascii) (factor : Z),
            0 < factor → n * factor ≤ TB →
            ParseInt (dropLast (FormatInt n ++ String k "")) = (n, None) ∧
            wrap64 (n * factor) = n * factor ∧
            (String.length (FormatInt n ++ String k "") =? 0)%nat = false)
    as Hcommon.
  { intros k factor Hf Hle. rewrite dropLast_last.
    rewrite ParseInt_FormatInt by (unfold minInt64, maxInt64; nia).
    rewrite wrap64_small by (unfold minInt64, maxInt64; nia).
    rewrite length_append. cbn [String.length].
    repeat split. apply Nat.eqb_neq. lia. }
  assert (∀ v : Z, 0 < v → v ≤ TB → (v <=? 0) || (TB <? v) = false) as Hin.
  { intros v H0 H1. apply orb_false_iff. split;
      [apply Z.leb_gt | apply Z.ltb_ge]; lia. }
  split; [| split]; intros Hle; unfold parseSize.
  - destruct (Hcommon "K"%char 1024 ltac:(lia) Hle) as (Hp & Hw & ->).
    rewrite (HasSuffix_last (FormatInt n) "K" "K"). cbn [Ascii.eqb Bool.eqb].
    change (Ascii.eqb "K" "K") with true. cbn iota.
    rewrite Hp. change KB with 1024. rewrite Hw, Hin by lia. reflexivity.
  - destruct (Hcommon "M"%char (1024 ^ 2) ltac:(lia) Hle) as (Hp & Hw & ->).
    rewrite (HasSuffix_last (FormatInt n) "M" "K").
    rewrite (HasSuffix_last (FormatInt n) "M" "M").
    change (Ascii.eqb "M" "K") with false.
    change (Ascii.eqb "M" "M") with true. cbn iota.
    rewrite Hp. change MB with (1024 ^ 2). rewrite Hw, Hin by lia.
    reflexivity.
  - destruct (Hcommon "G"%char (1024 ^ 3) ltac:(lia) Hle) as (Hp & Hw & ->).
    rewrite (HasSuffix_last (FormatInt n) "G" "K").
    rewrite (HasSuffix_last (FormatInt n) "G" "M").
    rewrite (HasSuffix_last (FormatInt n) "G" "G").
    change (Ascii.eqb "G" "K") with false.
    change (Ascii.eqb "G" "M") with false.
    change (Ascii.eqb "G" "G") with true. cbn iota.
    rewrite Hp. change GB with (1024 ^ 3). rewrite Hw, Hin by lia.
    reflexivity.
Qed.

Lemma parseSize_units_witness :
  parseSize (FormatInt 3 ++ "K") = inl (3 * 1024) ∧
  parseSize (FormatInt 3 ++ "M") = inl (3 * 1024 ^ 2) ∧
  parseSize (FormatInt 3 ++ "G") = inl (3 * 1024 ^ 3).
Proof.
  assert (0 < 3) as Hpos by lia.
  assert (3 * 1024 ^ 3 ≤ TB) as HG by (vm_compute; discriminate).
  assert (3 * 1024 ^ 2 ≤ TB) as HM by (vm_compute; discriminate).
  assert (3 * 1024 ≤ TB) as HK by (vm_compute; discriminate).
  pose proof (parseSize_units 3 Hpos) as X.
  split; [exact (proj1 X HK) |].
  split; [exact (proj1 (proj2 X) HM) | exact (proj2 (proj2 X) HG)].
Defined.

(* ===================================================================== *)
(** ** [getCertName] *)
(* ===================================================================== *)

(** X3.  The name that [getCertName] formats always ends with the common
    name behind ["/CN="], also when the common name or every other
    attribute is empty: it is never the empty string that [isAuthorized]
    takes for an anonymous user. *)
Theorem getCertName_common_name (name : Name) :
  (∃ attrs : string,
     getCertName name = (attrs ++ "/CN=" ++ CommonName name)%string) ∧
  getCertName name ≠ EmptyString ∧
  (4 + String.length (CommonName name) ≤ String.length (getCertName name))%nat.
Proof.
  assert (∃ attrs : string,
            getCertName name = (attrs ++ "/CN=" ++ CommonName name)%string)
    as [attrs Hattrs].
  { unfold getCertName.
    exists (format (Country name) "C" ++ format (Province name) "ST" ++
            format (Locality name) "L" ++ format (Organization name) "O" ++
            format (OrganizationalUnit name) "OU")%string.
    rewrite !append_assoc. reflexivity. }
  assert (4 + String.length (CommonName name)
          ≤ String.length (getCertName name))%nat as Hlen.
  { rewrite Hattrs, !length_append. simpl. lia. }
  split; [by exists attrs |]. split; [| exact Hlen].
  intros Heq. rewrite Heq in Hlen. simpl in Hlen. lia.
Qed.

(* ===================================================================== *)
(** ** The driver and the verification of its request *)
(* ===================================================================== *)

Lemma Split_not_empty (s : string) (sep : ascii) : Split s sep ≠ [].
Proof.
  destruct s as [| c s]; simpl; [done |].
  destruct (Ascii.eqb c sep); [done |]. by destruct (Split s sep).
Qed.

Lemma splitAndClean_not_empty (s : string) :
  (1 ≤ length (splitAndClean s))%nat.
Proof.
  destruct (Split s ",") as [| x l] eqn:Hsplit;
    [by apply Split_not_empty in Hsplit |].
  assert (x ∈ splitAndClean s) as Hin.
  { apply splitAndClean_elem. rewrite Hsplit. by left. }
  destruct (splitAndClean s); [by apply not_elem_of_nil in Hin |].
  simpl. lia.
Qed.

(** X4.  [splitAndClean] never returns an empty list (the empty string
    gives one address, the empty one), never returns more addresses than
    there are components, and never repeats one. *)
Theorem splitAndClean_length (s : string) :
  (1 ≤ length (splitAndClean s) ≤ length (Split s ","))%nat ∧
  NoDup (splitAndClean s).
Proof.
  assert (NoDup (splitAndClean s)) as Hnodup
    by (unfold splitAndClean; apply NoDup_fst_map_to_list).
  split; [| exact Hnodup]. split; [apply splitAndClean_not_empty |].
  apply submseteq_length, NoDup_submseteq; [exact Hnodup |].
  intros x. apply splitAndClean_elem.
Qed.

Section DriverProperties.
Context `{Float64}.

(** X5.  The request that the driver builds passes the verification of
    the client for every configuration but one: the address list is
    never empty, and a negative duration is replaced by its absolute value,
    except the smallest [int64], whose negation wraps to itself and is
    refused. *)
Theorem driverLoadRequest_verified (config : driverConfig) :
  minInt64 ≤ cfg_duration config ≤ maxInt64 →
  let req := driverLoadRequest config in
  (cfg_duration config ≠ minInt64 →
   Duration req = Z.abs (cfg_duration config) ∧
   clientVerifyLoadRequest req = None) ∧
  (cfg_duration config = minInt64 →
   clientVerifyLoadRequest req = Some (ErrInvalidDuration minInt64)).
Proof.
  intros Hrange. cbn zeta.
  unfold clientVerifyLoadRequest, driverLoadRequest. cbn [ServerAddrs Duration].
  pose proof (splitAndClean_not_empty (cfg_servers config)) as Hlen.
  destruct (length _ =? 0)%nat eqn:E; [apply Nat.eqb_eq in E; lia | clear E].
  unfold driverDuration, minInt64, maxInt64 in *.
  destruct (cfg_duration config <? 0) eqn:Hneg;
    [apply Z.ltb_lt in Hneg | apply Z.ltb_ge in Hneg].
  - split.
    + intros Hmin.
      rewrite wrap64_small by (unfold minInt64, maxInt64; lia).
      destruct (_ <? 0) eqn:E; [apply Z.ltb_lt in E; lia |].
      split; [lia | done].
    + intros ->. reflexivity.
  - split; [| lia]. intros _.
    destruct (_ <? 0) eqn:E; [apply Z.ltb_lt in E; lia |].
    split; [lia | done].
Qed.
End DriverProperties.

(* ===================================================================== *)
(** ** The checksum registry *)
(* ===================================================================== *)


Section RegistryProperties.
Context `{Library}.

(** The search of [getChecksumByName] through the two entries of the
    registry. *)
Lemma getChecksumByName_entries (nm : string) :
  getChecksumByName nm =
  if String.eqb "sha512" (ToLower nm) then inl (Hash_New sha512_Sum)
  else if String.eqb "sha256" (ToLower nm) then inl (Hash_New sha256_Sum)
       else inr (ErrUnknownChecksum (ToLower nm)).
Proof.
  unfold getChecksumByName.
  change (map_to_list checksumMap) with
    [(SHA512, {| name := "sha512";
                 hashFunc := λ _ : (), Hash_New sha512_Sum |});
     (SHA256, {| name := "sha256";
                 hashFunc := λ _ : (), Hash_New sha256_Sum |})].
  cbn [List.find snd name hashFunc].
  destruct (String.eqb "sha512" (ToLower nm)); [done |].
  by destruct (String.eqb "sha256" (ToLower nm)).
Qed.

(** X6.  The registry holds exactly the keys SHA256 and SHA512: a key has
    a hasher exactly when it has a name, the name found for a key leads
    back to the hasher of that key, and it is in lower case. *)
Theorem registry_keys (key : Z) :
  (key = SHA256 ∨ key = SHA512 ↔ getChecksumName key ≠ "") ∧
  (getChecksumName key ≠ "" ↔ ∃ h, getChecksumByKey key = inl h) ∧
  (getChecksumName key ≠ "" →
   getChecksumByName (getChecksumName key) = getChecksumByKey key ∧
   ToLower (getChecksumName key) = getChecksumName key).
Proof.
  destruct (getChecksumName_cases key)
    as [[-> Hn] | [[-> Hn] | (H1 & H2 & Hn)]]; rewrite Hn.
  - split; [split; [done | by left] |]. split; [| done].
    split; [intros _; eexists; reflexivity | done].
  - split; [split; [done | by right] |]. split; [| done].
    split; [intros _; eexists; reflexivity | done].
  - split; [split; [intros [? | ?]; done | done] |]. split; [| done].
    split; [done |]. intros [h Hh].
    unfold getChecksumByKey, checksumMap in Hh.
    rewrite !lookup_insert_ne, lookup_empty in Hh by done. done.
Qed.

End RegistryProperties.

(* ===================================================================== *)
(** ** The pool, the buffer and the worker *)
(* ===================================================================== *)

(** X8.  A requested concurrency within [1, 1000 × NumCPU] is used as it
    is, and a negative one is treated as 0: the pool gets [2 × NumCPU]
    workers. *)
Theorem numWorkers_requested (numCPU concurrency : Z) :
  1 ≤ numCPU →
  1000 * numCPU ≤ maxInt64 →
  (1 ≤ concurrency ≤ 1000 * numCPU →
   numWorkers numCPU concurrency = concurrency) ∧
  (concurrency ≤ 0 → numWorkers numCPU concurrency = 2 * numCPU).
Proof.
  intros Hcpu Hmax. unfold numWorkers, minInt.
  assert (minInt64 ≤ 0) by (unfold minInt64; lia).
  rewrite !wrap64_small by lia.
  split; intros Hc.
  - destruct (concurrency <=? 0) eqn:E; [apply Z.leb_le in E; lia |].
    destruct (concurrency <? 1000 * numCPU) eqn:E2;
      [done | apply Z.ltb_ge in E2; lia].
  - destruct (concurrency <=? 0) eqn:E; [| apply Z.leb_gt in E; lia].
    destruct (2 * numCPU <? 1000 * numCPU) eqn:E2;
      [done | apply Z.ltb_ge in E2; lia].
Qed.

Lemma numWorkers_requested_witness :
  numWorkers 8 16 = 16 ∧ numWorkers 8 (-3) = 2 * 8.
Proof.
  assert (1 ≤ 8) as Hcpu by lia.
  assert (1000 * 8 ≤ maxInt64) as Hmax by (vm_compute; discriminate).
  split.
  - apply (proj1 (numWorkers_requested 8 16 Hcpu Hmax)). lia.
  - apply (proj2 (numWorkers_requested 8 (-3) Hcpu Hmax)). lia.
Defined.

(** X9.  The buffer that [init] fills has exactly [bufferSize] bytes, 1 MiB,
    whatever the random values are; in particular it is not empty, which
    the loop of [serveFile] relies on. *)
Theorem init_buffer_size (rnd : nat → Z) :
  Z.of_nat (length (init rnd)) = bufferSize ∧
  bufferSize = 1024 * 1024 ∧
  init rnd ≠ [].
Proof.
  pose proof (init_length rnd) as [Hlen Hsize].
  split; [exact Hlen |]. split; [exact Hsize |]. apply init_not_empty.
Qed.

Section WorkerLoopProperties.
Context `{Library}.

End WorkerLoopProperties.

(* ===================================================================== *)
(** ** The emitter *)
(* ===================================================================== *)

Lemma wrapU64_small (z : Z) : 0 ≤ z ≤ maxUint64 → wrapU64 z = z.
Proof.
  unfold wrapU64, maxUint64. intros Hz. apply Z.mod_small. lia.
Qed.

Lemma emitLoop_requests (req : LoadRequest) (fsclients : list Client)
    (responses : nat) (deadline : Z) (draws : list Draw) :
  length fsclients = length (ServerAddrs req) →
  Forall (λ d, (draw_server d < length (ServerAddrs req))%nat) draws →
  ∀ s : Z,
    0 ≤ s → s + Z.of_nat (length draws) ≤ maxUint64 →
    ∃ reqs : list DownloadReq,
      emitLoop req fsclients responses deadline s draws = Some reqs ∧
      seqNumber <$> reqs = seqZ (s + 1) (Z.of_nat (length draws)) ∧
      Forall2 (λ d r,
                 ServerAddrs req !! draw_server d = Some (server r) ∧
                 fsclients !! draw_server d = Some (fsclient r) ∧
                 fileID r = ("file-" ++ FormatInt (seqNumber r))%string ∧
                 notAfter r = deadline ∧
                 replyTo r = responses) draws reqs.
Proof.
  intros Hlen Hdraws. induction Hdraws as [| d draws Hd Hdraws IH];
    intros s Hs Hmax.
  - exists []. simpl. split; [done |]. split; [done | constructor].
  - cbn [length] in Hmax. cbn [emitLoop].
    rewrite (wrapU64_small (s + 1)) by lia.
    unfold emitRequest.
    destruct (lookup_lt_is_Some_2 _ _ Hd) as [addr Haddr].
    rewrite <- Hlen in Hd.
    destruct (lookup_lt_is_Some_2 _ _ Hd) as [c Hc].
    rewrite Haddr, Hc.
    destruct (IH (s + 1)) as (rest & -> & Hseq & Hall); [lia | lia |].
    eexists. split; [reflexivity |]. split.
    + cbn [fmap list_fmap seqNumber]. change (list_fmap _ _ ?f ?l) with (f <$> l).
      rewrite Hseq.
      rewrite (seqZ_cons (s + 1)) by (cbn [length]; lia).
      cbn [length]. f_equal. f_equal; lia.
    + constructor; [| exact Hall]. done.
Qed.

(** X11.  The requests that [clientEmitRequests] emits, when
    [rand.Intn] draws indices below the number of servers and fewer than
    2^64 requests are sent: they are numbered 1, 2, 3, ... in the order of
    emission, the file of request [k] is ["file-k"], every request has its
    server and the client of that same server, and all share one deadline,
    the time at the start plus the duration, and the one channel of
    responses. *)
Theorem clientEmitRequests_requests (req : LoadRequest)
    (fsclients : list Client) (responses : nat) (draws : list Draw)
    (n : Net) :
  length fsclients = length (ServerAddrs req) →
  Forall (λ d, (draw_server d < length (ServerAddrs req))%nat) draws →
  Z.of_nat (length draws) ≤ maxUint64 →
  ∃ reqs : list DownloadReq,
    (clientEmitRequests req fsclients responses draws n).1 = Some reqs ∧
    seqNumber <$> reqs = seqZ 1 (Z.of_nat (length draws)) ∧
    Forall2 (λ d r,
               ServerAddrs req !! draw_server d = Some (server r) ∧
               fsclients !! draw_server d = Some (fsclient r) ∧
               fileID r = ("file-" ++ FormatInt (seqNumber r))%string ∧
               notAfter r = clock n (ticks n) + Duration req ∧
               replyTo r = responses) draws reqs.
Proof.
  intros Hlen Hdraws Hmax.
  unfold clientEmitRequests, bind, time_Now, ret. cbn [fst].
  apply (emitLoop_requests req fsclients responses _ draws Hlen Hdraws 0);
    lia.
Qed.

(* ===================================================================== *)
(** ** The collector *)
(* ===================================================================== *)

Section CollectorProperties.
Context `{Float64}.

Lemma collectLoop_counts (responses : list DownloadResp) :
  ∀ (total : float64) (files errs : Z),
    0 ≤ files → 0 ≤ errs →
    files + errs + Z.of_nat (length responses) ≤ maxUint64 →
    let failed := length (filter (λ r, is_Some (resp_err r)) responses) in
    (collectLoop responses total files errs).1.2 =
      files + Z.of_nat (length responses - failed) ∧
    (collectLoop responses total files errs).2 = errs + Z.of_nat failed.
Proof.
  cbn zeta.
  induction responses as [| resp responses IH]; intros total files errs
    Hfiles Herrs Hmax.
  - simpl. lia.
  - cbn [length] in Hmax. cbn [collectLoop].
    pose proof (length_filter (λ r, is_Some (resp_err r)) responses) as Hle.
    destruct (resp_err resp) as [e |] eqn:Herr.
    + rewrite filter_cons_True by (by rewrite Herr).
      rewrite wrapU64_small by lia.
      destruct (IH total files (errs + 1)) as [-> ->]; [lia .. |].
      cbn [length]. lia.
    + rewrite filter_cons_False by (rewrite Herr; by intros [? ?]).
      rewrite (wrapU64_small (files + 1)) by lia.
      destruct (IH (float_add total
                      (float_div (float_of_int (resp_size resp))
                         (float_of_int MB))) (files + 1) errs)
        as [-> ->]; [lia .. |].
      cbn [length]. lia.
Qed.

(** X12.  The summary of [clientCollectResponses] for fewer than 2^64
    responses: [ErrCount] is the number of responses that carry an error,
    [NumFiles] the number of the others, so the two add up to the number of
    responses received; [Concurrency] is the number of workers given, and
    [Start] and [End] are the first two readings of the clock. *)
Theorem clientCollectResponses_counts (workers : Z)
    (responses : list DownloadResp) (n : Net) :
  Z.of_nat (length responses) ≤ maxUint64 →
  let summary := (clientCollectResponses workers responses n).1 in
  let failed := length (filter (λ r, is_Some (resp_err r)) responses) in
  lr_ErrCount summary = Z.of_nat failed ∧
  lr_NumFiles summary = Z.of_nat (length responses) - Z.of_nat failed ∧
  lr_Concurrency summary = workers ∧
  lr_Start summary = clock n (ticks n) ∧
  lr_End summary = clock n (S (ticks n)).
Proof.
  intros Hmax. cbn zeta.
  pose proof (collectLoop_counts responses float_zero 0 0) as Hcount.
  unfold clientCollectResponses, bind, time_Since, bind, time_Now, ret.
  destruct (collectLoop responses float_zero 0 0) as [[total files] errs].
  cbn [fst snd lr_ErrCount lr_NumFiles lr_Concurrency lr_Start lr_End
       clock ticks] in *.
  destruct Hcount as [Hfiles Herrs]; [lia .. |].
  pose proof (length_filter (λ r, is_Some (resp_err r)) responses) as Hle.
  cbn zeta in Hfiles, Herrs.
  repeat split; lia.
Qed.
End CollectorProperties.

(* ===================================================================== *)
(** ** From the worker to the collector *)
(* ===================================================================== *)

Lemma foldl_chan_push (ch : nat) (sent : list (DownloadReq * DownloadResp)) :
  Forall (λ qr, replyTo qr.1 = ch) sent →
  ∀ chs : gmap nat (list DownloadResp),
    default [] (foldl (λ chs qr, chan_push chs (replyTo qr.1) qr.2) chs sent
                  !! ch) =
    default [] (chs !! ch) ++ sent.*2.
Proof.
  induction 1 as [| [q r] sent Hq Hsent IH]; intros chs.
  - simpl. by rewrite app_nil_r.
  - cbn [foldl]. rewrite IH. simpl in Hq. cbn [fst snd].
    unfold chan_push. rewrite Hq, lookup_insert_eq. simpl.
    by rewrite <- app_assoc.
Qed.

Section PipelineProperties.
Context `{Library} `{Float64}.

(** X13.  A worker and the collector together: when every request names
    the channel [ch], empty at the start, what the collector reads from
    [ch] after the worker is done is one response for some of the requests,
    in their order and with their sequence numbers; so files and errors
    in the summary add up to at most the number of requests. *)
Theorem worker_collector_counts (workerId workers : Z)
    (reqs : list DownloadReq) (ch : nat) (p : Proc) (n : Net) :
  Forall (λ q, replyTo q = ch) reqs →
  chans p !! ch = None →
  Z.of_nat (length reqs) ≤ maxUint64 →
  let received :=
    default [] (chans (clientWorker workerId reqs p).2 !! ch) in
  let summary := (clientCollectResponses workers received n).1 in
  sublist (resp_seqNumber <$> received) (seqNumber <$> reqs) ∧
  lr_NumFiles summary + lr_ErrCount summary = Z.of_nat (length received) ∧
  lr_NumFiles summary + lr_ErrCount summary ≤ Z.of_nat (length reqs).
Proof.
  intros Hch Hempty Hmax. cbn zeta.
  assert (∃ sent : list (DownloadReq * DownloadResp),
            sublist sent.*1 reqs ∧
            Forall (λ qr, resp_seqNumber qr.2 = seqNumber qr.1) sent ∧
            chans (clientWorker workerId reqs p).2 =
              foldl (λ chs qr, chan_push chs (replyTo qr.1) qr.2)
                (chans p) sent) as (sent & Hsub & Hseq & Hchans).
  { unfold clientWorker, bind.
    destruct (workerLoop_replies reqs p) as (sent & Hsub & Hall & Hc & _).
    destruct (workerLoop reqs p) as [[] p1]. simpl in *. by exists sent. }
  rewrite Hchans, (foldl_chan_push ch), Hempty; cycle 1.
  { assert (Forall (λ q, replyTo q = ch) sent.*1) as Hsent.
    { rewrite Forall_forall in Hch. apply Forall_forall. intros q Hq.
      apply Hch. by eapply elem_of_sublist. }
    rewrite Forall_fmap in Hsent. exact Hsent. }
  cbn [default app].
  assert (resp_seqNumber <$> sent.*2 = seqNumber <$> sent.*1) as Hnums.
  { clear -Hseq. induction Hseq as [| [q r] sent Hqr _ IH]; [done |].
    rewrite !fmap_cons. cbn [fst snd] in *. by rewrite Hqr, IH. }
  assert (length sent.*2 ≤ length reqs)%nat as Hlen.
  { apply sublist_length in Hsub. by rewrite !length_fmap in *. }
  split; [rewrite Hnums; by apply fmap_sublist |].
  pose proof (collectLoop_counts sent.*2 float_zero 0 0) as Hcount.
  unfold clientCollectResponses, bind, time_Since, bind, time_Now, ret.
  destruct (collectLoop sent.*2 float_zero 0 0) as [[total files] errs].
  cbn [fst snd lr_ErrCount lr_NumFiles] in *.
  destruct Hcount as [Hfiles Herrs]; [lia .. |].
  pose proof (length_filter (λ r, is_Some (resp_err r)) sent.*2) as Hle.
  cbn zeta in Hfiles, Herrs. lia.
Qed.
End PipelineProperties.

(* ===================================================================== *)
(** ** [DownloadFile]: failures, times and the sink *)
(* ===================================================================== *)

Section DownloadProperties.
Context `{Library}.

(** X14.  A download that is not served, because the transport fails or
    the status is not 200: the error is the one of the transport, or
    carries the body of the response; nothing is written to the sink, the
    report has no checksum and its [End] stays at the zero value; exactly
    one request was issued and the clock was read twice. *)
Theorem DownloadFile_not_served (c : Client) (serverAddr fileID : string)
    (size : Z) (chkMode chkAlgo : Z) (dst : Writer) (n : Net) :
  let req :=
    buildRequest serverAddr fileID size
      ((chkMode =? ChecksumServerOnly) || (chkMode =? ChecksumClientAndServer))
      (getChecksumName chkAlgo) in
  let res := DownloadFile c serverAddr fileID size chkMode chkAlgo dst n in
  chkMode = ChecksumNone ∨ getChecksumName chkAlgo ≠ "" →
  (∀ resp : Response,
     transport c req = inl resp → StatusCode resp ≠ StatusOK) →
  Err res.1.1 =
    Some match transport c req with
         | inr err => err
         | inl resp => ErrDownloading (ReadAll (Body resp)).1
         end ∧
  res.1.2 = dst ∧
  Checksum res.1.1 = "" ∧
  End_ res.1.1 = 0 ∧
  issued res.2 = issued n ++ [req] ∧
  ticks res.2 = (2 + ticks n)%nat.
Proof.
  cbn zeta. intros Hok Hfail.
  unfold DownloadFile. rewrite (guard_passes _ _ Hok).
  unfold bind, ret, time_Since, time_Now, Do, bind, ret, time_Now.
  cbn [fst snd clock ticks issued].
  destruct (transport c _) as [resp | err] eqn:Hresp; [| done].
  specialize (Hfail resp eq_refl).
  destruct (StatusCode resp =? StatusOK) eqn:E;
    [apply Z.eqb_eq in E; done |].
  done.
Qed.

(** X15.  The times of a report, for a call that passes the first check:
    [Start] is the first reading of the clock and [TimeToFirstByte] the
    second reading minus the first, whatever happens next; after a
    success, [End] is the third reading, taken once the body has been
    copied, and no other reading was made. *)
Theorem DownloadFile_times (c : Client) (serverAddr fileID : string)
    (size : Z) (chkMode chkAlgo : Z) (dst : Writer) (n : Net) :
  let res := DownloadFile c serverAddr fileID size chkMode chkAlgo dst n in
  let t (k : nat) := clock n (k + ticks n)%nat in
  chkMode = ChecksumNone ∨ getChecksumName chkAlgo ≠ "" →
  Start res.1.1 = t 0%nat ∧
  TimeToFirstByte res.1.1 = t 1%nat - t 0%nat ∧
  clock res.2 = clock n ∧
  (Err res.1.1 = None →
   End_ res.1.1 = t 2%nat ∧ ticks res.2 = (3 + ticks n)%nat).
Proof.
  cbn zeta. intros Hok.
  unfold DownloadFile. rewrite (guard_passes _ _ Hok).
  unfold bind, ret, time_Since, time_Now, Do, bind, ret, time_Now.
  cbn [fst snd clock ticks issued].
  repeat (case_match; cbn [fst snd clock ticks issued Start End_
                           TimeToFirstByte Err set_Err set_Start set_End
                           set_Checksum set_TimeToFirstByte zeroReport];
          try done).
Qed.

(** X16.  Mode CLIENT_ONLY into a sink that never fails, for a key with a
    name and a response with status 200: the call succeeds exactly when
    the trailer [X-Content-Length] is present and reads as the length of
    the body; the sink then holds the whole body after what it held, and
    the checksum of the report is the name of the algorithm, a colon and
    the hexadecimal digest of the body.  The trailer [X-Checksum-Value] of
    the server plays no part. *)
Theorem DownloadFile_client_only_digest (c : Client)
    (serverAddr fileID : string) (size : Z) (chkAlgo : Z) (dst : Writer)
    (n : Net) (resp : Response) :
  let algorithm := getChecksumName chkAlgo in
  let res :=
    DownloadFile c serverAddr fileID size ChecksumClientOnly chkAlgo dst n in
  let body := concat (rd_chunks (Body resp)) in
  let clength := Header_Get (Trailer resp) "X-Content-Length" in
  algorithm ≠ "" →
  transport c (buildRequest serverAddr fileID size false algorithm)
    = inl resp →
  StatusCode resp = StatusOK →
  wr_room dst = None →
  ∃ h0 : Hash,
    getChecksumByKey chkAlgo = inl h0 ∧
    wr_data res.1.2 = wr_data dst ++ body ∧
    (Err res.1.1 = None ↔
     clength ≠ "" ∧
     wrap64 (ParseUint clength).1 = Z.of_nat (length body)) ∧
    (Err res.1.1 = None →
     Checksum res.1.1 =
       (algorithm ++ ":" ++ EncodeToString (h_sum h0 body))%string).
Proof.
  cbn zeta. intros Hname Hresp Hstatus Hroom.
  destruct (newChecksumer_named chkAlgo Hname) as (h0 & Hh0 & Hw0).
  exists h0. split.
  { unfold newChecksumer in Hh0.
    destruct (getChecksumByKey chkAlgo); congruence. }
  unfold DownloadFile. rewrite (guard_passes _ _ (or_intror Hname)).
  unfold_download. rewrite Hresp, Hstatus. simpl.
  rewrite Hh0, io_Copy_unbounded by done. simpl.
  rewrite Hw0, ToLower_EncodeToString. simpl.
  destruct (String.length _ =? 0)%nat eqn:Ecl; simpl.
  { apply (proj1 (length_zero_empty _)) in Ecl.
    split; [done |]. split; [| done]. split; [done | tauto]. }
  apply (proj1 (length_nonzero_nonempty _)) in Ecl.
  destruct (wrap64 _ =? _) eqn:Elen; simpl;
    [apply Z.eqb_eq in Elen | apply Z.eqb_neq in Elen];
    (split; [done |]); (split; [| done]); (split; [done | tauto]).
Qed.

(** X17.  The check of the length against a well-formed trailer, in the
    mode NONE: when [X-Content-Length] is the decimal representation of a
    number [m] that fits [int64], the call succeeds if [m] is the number of
    bytes copied to the sink, and fails otherwise with the error that
    carries the two numbers. *)
Theorem DownloadFile_length_decimal (c : Client)
    (serverAddr fileID : string) (size : Z) (chkAlgo : Z) (dst : Writer)
    (n : Net) (resp : Response) (m : Z) :
  let report :=
    (DownloadFile c serverAddr fileID size ChecksumNone chkAlgo dst n).1.1 in
  let received := cr_written (io_Copy dst None (Body resp)) in
  transport c
    (buildRequest serverAddr fileID size false (getChecksumName chkAlgo))
    = inl resp →
  StatusCode resp = StatusOK →
  0 ≤ m ≤ maxInt64 →
  Header_Get (Trailer resp) "X-Content-Length" = FormatInt m →
  (m = received → Err report = None ∧ Checksum report = "") ∧
  (m ≠ received → Err report = Some (ErrBodyLength m received)).
Proof.
  cbn zeta. intros Hresp Hstatus Hm Hcl.
  assert (ParseUint (FormatInt m) = (m, None)) as Hparse.
  { apply ParseUint_FormatInt. unfold maxInt64, maxUint64 in *. lia. }
  assert (wrap64 m = m) as Hwrap.
  { apply wrap64_small. unfold minInt64, maxInt64 in *. lia. }
  assert ((String.length (FormatInt m) =? 0)%nat = false) as Hne.
  { apply length_nonzero_nonempty. intros Heq. rewrite Heq in Hparse.
    discriminate. }
  unfold_download. rewrite Hresp, Hstatus. simpl.
  rewrite Hcl, Hne, Hparse. simpl. rewrite Hwrap.
  destruct (m =? _) eqn:E; simpl;
    [apply Z.eqb_eq in E | apply Z.eqb_neq in E]; split; done.
Qed.
End DownloadProperties.

(* ===================================================================== *)
(** ** [handleGetFile]: the requests it refuses *)
(* ===================================================================== *)

Section HandlerProperties.
Context `{Library}.
Variable contentsBuffer : list byte.


(** X18.  The requests that [handleGetFile] refuses before anything is
    served, whatever their other fields are: a method other than GET is
    answered 405; a GET without a query that parses, without exactly one
    [id], without exactly one [size], with a size that [parseSize] refuses,
    or with a [checksum] that is repeated, empty or not in the registry, is
    answered 400. *)
Theorem handleGetFile_refuses (fuel : nat) (conn : Writer) (method : string)
    (query : option Header) (peerCertificates : list (string * string)) :
  let status :=
    sentStatus <$>
      handleGetFile contentsBuffer fuel (NewResponseWriter conn) method query
        peerCertificates in
  (method ≠ "GET" → status = Some (Some StatusMethodNotAllowed)) ∧
  (method = "GET" →
   match query with
   | None => True
   | Some q =>
       (∀ fileID : string, q !! "id" ≠ Some [fileID]) ∨
       (∀ sz : string, q !! "size" ≠ Some [sz]) ∨
       (∃ (sz : string) (e : error),
          q !! "size" = Some [sz] ∧ parseSize sz = inr e) ∨
       (∃ l : list string,
          q !! "checksum" = Some l ∧
          ∀ a : string, l = [a] → isChecksumAvailable a = false)
   end →
   status = Some (Some StatusBadRequest)).
Proof.
  cbn zeta.
  assert (∀ msg code,
            sentStatus <$> Some (http_Error (NewResponseWriter conn) msg code)
            = Some (Some code)) as Herr.
  { intros msg code. simpl. by rewrite http_Error_status. }
  assert (∀ msg code,
            sentStatus <$> Some (httpErrorf (NewResponseWriter conn) code msg)
            = Some (Some code)) as Herrf.
  { intros msg code. simpl. by rewrite httpErrorf_status. }
  unfold handleGetFile. split.
  - intros Hmethod. apply String.eqb_neq in Hmethod. rewrite Hmethod.
    apply Herr.
  - intros -> Hquery. cbn [String.eqb Ascii.eqb Bool.eqb andb negb].
    change (String.eqb "GET" "GET") with true. cbn [negb].
    destruct query as [q |]; [| apply Herr].
    destruct (q !! "id") as [[| fileID [| ? ?]] |] eqn:Hid;
      try apply Herr.
    destruct (q !! "size") as [[| sz [| ? ?]] |] eqn:Hsz;
      try apply Herr.
    destruct (parseSize sz) as [size | e] eqn:Hparse; [| apply Herrf].
    destruct Hquery as [Hq | [Hq | [Hq | Hq]]].
    + by destruct (Hq fileID).
    + by destruct (Hq sz).
    + destruct Hq as (sz' & e & [= <-] & Hparse'). congruence.
    + destruct Hq as (l & -> & Havail).
      destruct l as [| a [| ? ?]]; try apply Herr.
      rewrite (Havail a eq_refl). apply Herrf.
Qed.


(** X20.  A checksum name that is not empty and not in the registry:
    [serveFile] returns 400 with an error at once, whatever the size and
    however many turns the loop may take; on a response whose header is
    not out, the status on the wire is 400, and no trailer is announced. *)
Theorem serveFile_unsupported_checksum (fuel : nat) (w : ResponseWriter)
    (fileid : string) (size : Z) (checksumAlg : string) :
  checksumAlg ≠ "" →
  isChecksumAvailable checksumAlg = false →
  rw_wrote w = None →
  rw_header w !! "Trailer" = None →
  ∃ w' : ResponseWriter,
    serveFile contentsBuffer fuel w fileid size checksumAlg =
      Some (w', (StatusBadRequest,
                 Some (ErrUnsupportedChecksum checksumAlg))) ∧
    sentStatus w' = Some StatusBadRequest ∧
    sentTrailer w' "X-Content-Length" = "" ∧
    sentTrailer w' "X-Checksum-Value" = "".
Proof.
  intros Hne Havail Hfresh Htrailer. unfold serveFile.
  apply String.eqb_neq in Hne. rewrite Hne. cbn [negb].
  unfold isChecksumAvailable in Havail.
  destruct (getChecksumByName checksumAlg) as [h | e]; [done |].
  eexists. split; [reflexivity |].
  split; [by apply http_Error_status |].
  unfold sentTrailer, http_Error, ResponseWriter_Write, WriteHeader,
    rw_set_header; simpl.
  rewrite Hfresh. simpl.
  destruct (Writer_Write _ _) as [[? ?] ?]. simpl.
  unfold Header_Set.
  rewrite !lookup_insert_ne, Htrailer by done. cbn [default].
  by rewrite !bool_decide_eq_false_2 by apply not_elem_of_nil.
Qed.
End HandlerProperties.

(* ===================================================================== *)
(** ** [serveFile]: a connection that fails *)
(* ===================================================================== *)

(** [CopyN] of [count] bytes that the reader still has, on a connection
    with room for [r] bytes: the slice goes out whole when it fits;
    otherwise [r] bytes of it go out, and the copy fails. *)
Lemma CopyN_room (w : ResponseWriter) (buf : list byte) (i : nat)
    (hasher : option Hash) (count : Z) (r : nat) :
  0 < count → count ≤ Z.of_nat (length buf - i) →
  wr_room (rw_conn w) = Some r →
  let p := take (Z.to_nat count) (drop i buf) in
  let w1 (data : list byte) (room : nat) :=
    {| rw_header := rw_header w;
       rw_wrote := rw_wrote (WriteHeader w StatusOK);
       rw_conn := {| wr_data := wr_data (rw_conn w) ++ data;
                     wr_room := Some room |} |} in
  length p = Z.to_nat count ∧
  (count ≤ Z.of_nat r →
   CopyN w {| r_s := buf; r_i := i |} hasher count =
     (w1 p (r - Z.to_nat count)%nat,
      {| r_s := buf; r_i := (i + Z.to_nat count)%nat |},
      tee_Write hasher p, count, None)) ∧
  (Z.of_nat r < count →
   CopyN w {| r_s := buf; r_i := i |} hasher count =
     (w1 (take r p) 0%nat,
      {| r_s := buf; r_i := (i + Z.to_nat count)%nat |},
      tee_Write hasher p, Z.of_nat r, Some (ErrIO "write failed"))).
Proof.
  intros Hcount Hlen Hroom p w1.
  assert (length p = Z.to_nat count) as Hp.
  { subst p. rewrite length_take, length_drop. lia. }
  split; [exact Hp |].
  assert (rw_conn (WriteHeader w StatusOK) = rw_conn w) as Hconn.
  { unfold WriteHeader. by destruct (rw_wrote w). }
  assert (rw_header (WriteHeader w StatusOK) = rw_header w) as Hhdr.
  { unfold WriteHeader. by destruct (rw_wrote w). }
  assert (match p with
          | [] => (w, 0, None)
          | _ :: _ => ResponseWriter_Write w p
          end = ResponseWriter_Write w p) as Hwrite.
  { destruct p; [simpl in Hp; lia | done]. }
  split; intros Hr; unfold CopyN; cbn [r_s r_i]; fold p; rewrite Hp, Hwrite;
    unfold ResponseWriter_Write, Writer_Write; rewrite Hconn, Hhdr, Hroom, Hp.
  - destruct (Z.to_nat count <=? r)%nat eqn:E;
      [| apply Nat.leb_gt in E; lia].
    replace (Z.of_nat (Z.to_nat count)) with count by lia.
    rewrite Z.ltb_irrefl. reflexivity.
  - destruct (Z.to_nat count <=? r)%nat eqn:E;
      [apply Nat.leb_le in E; lia |].
    reflexivity.
Qed.

(** The reply [http.Error] on a response whose header is out and whose
    connection takes nothing more changes nothing on the wire. *)
Lemma http_Error_late (w : ResponseWriter) (msg : string) (code : Z) :
  is_Some (rw_wrote w) →
  wr_room (rw_conn w) = Some 0%nat →
  rw_wrote (http_Error w msg code) = rw_wrote w ∧
  sentBody (http_Error w msg code) = sentBody w ∧
  ∀ key : string,
    key ≠ "Content-Type" → key ≠ "X-Content-Type-Options" →
    rw_header (http_Error w msg code) !! key = rw_header w !! key.
Proof.
  intros [x Hx] Hroom.
  unfold http_Error, ResponseWriter_Write, WriteHeader, rw_set_header,
    Writer_Write, sentBody.
  repeat (progress cbn [rw_header rw_wrote rw_conn] || rewrite Hx).
  rewrite Hroom.
  destruct (length _ <=? 0)%nat eqn:E.
  - cbn [fst rw_header rw_wrote rw_conn wr_data].
    apply Nat.leb_le in E.
    assert (∀ l : list byte, (length l ≤ 0)%nat → l = []) as Hnil
      by (intros [| ? ?] ?; [done | simpl in *; lia]).
    rewrite (Hnil _ E), app_nil_r.
    split; [done |]. split; [done |]. intros key H1 H2.
    unfold Header_Set. by rewrite !lookup_insert_ne.
  - cbn [fst rw_header rw_wrote rw_conn wr_data]. rewrite take_0, app_nil_r.
    split; [done |]. split; [done |]. intros key H1 H2.
    unfold Header_Set. by rewrite !lookup_insert_ne.
Qed.

Section FailureProperties.
Context `{Library}.
Variable contentsBuffer : list byte.
Hypothesis buffer_not_empty : contentsBuffer ≠ [].

Local Abbreviation L := (length contentsBuffer) (only parsing).

(** The loop of [serveFile] on a connection that takes [r] bytes, fewer
    than remain to be sent: it ends with the status 500 and the error of
    the copy, after [r] bytes read round the buffer have gone out. *)
Lemma serveLoop_fails (fuel : nat) :
  ∀ (w : ResponseWriter) (i : nat) (hasher : option Hash) (remain : Z)
    (r : nat),
    (Z.to_nat remain ≤ fuel)%nat → (i ≤ L)%nat →
    wr_room (rw_conn w) = Some r → Z.of_nat r < remain →
    ∃ (out : list byte) (w' : ResponseWriter) (hasher' : option Hash)
      (count : Z),
      serveLoop fuel w {| r_s := contentsBuffer; r_i := i |}
        hasher remain =
        Some (w', hasher',
              Some (StatusInternalServerError,
                    ErrCopy count (ErrIO "write failed"))) ∧
      length out = r ∧
      (∀ j : nat, (j < length out)%nat →
         out !! j = contentsBuffer !! ((i + j) mod L)%nat) ∧
      sentBody w' = sentBody w ++ out ∧
      rw_wrote w' = rw_wrote (WriteHeader w StatusOK) ∧
      (∀ key : string,
         key ≠ "Content-Type" → key ≠ "X-Content-Type-Options" →
         rw_header w' !! key = rw_header w !! key).
Proof.
  assert (0 < L)%nat as HL.
  { destruct contentsBuffer; [done | simpl; lia]. }
  induction fuel as [| fuel IH]; intros w i hasher remain r Hfuel Hi Hroom Hr;
    [lia |].
  cbn [serveLoop].
  destruct (remain <=? 0) eqn:E; [apply Z.leb_le in E; lia | clear E].
  set (i' := if decide (i = L) then 0%nat else i).
  assert ((if Reader_Len {| r_s := contentsBuffer; r_i := i |} =? 0
           then Reader_Seek0 {| r_s := contentsBuffer; r_i := i |}
           else {| r_s := contentsBuffer; r_i := i |})
          = {| r_s := contentsBuffer; r_i := i' |}) as ->.
  { unfold Reader_Len, Reader_Seek0; simpl. subst i'.
    destruct (decide (i = L)) as [-> | Hne].
    - by rewrite Nat.sub_diag.
    - destruct (Z.of_nat (L - i) =? 0) eqn:E;
        [apply Z.eqb_eq in E; lia | done]. }
  assert (i' < L)%nat as Hi'.
  { subst i'. destruct (decide (i = L)); lia. }
  assert (∀ j, ((i + j) mod L = (i' + j) mod L)%nat) as Hmod.
  { intros j. subst i'. destruct (decide (i = L)) as [-> | Hne]; [| done].
    rewrite Nat.add_comm. rewrite <- Nat.Div0.add_mod_idemp_r.
    rewrite Nat.Div0.mod_same. by rewrite Nat.add_0_r. }
  set (count :=
         min (Reader_Len {| r_s := contentsBuffer; r_i := i' |}) remain).
  assert (0 < count ∧ count ≤ Z.of_nat (L - i') ∧ count ≤ remain)
    as (Hc0 & Hc1 & Hc2).
  { subst count. unfold min, Reader_Len; simpl.
    destruct (Z.of_nat (L - i') <? remain) eqn:E;
      [apply Z.ltb_lt in E | apply Z.ltb_ge in E]; lia. }
  destruct (CopyN_room w contentsBuffer i' hasher count r Hc0 Hc1 Hroom)
    as (Hp & Hfits & Hshort).
  set (p := take (Z.to_nat count) (drop i' contentsBuffer)) in *.
  assert (∀ j : nat, (j < length p)%nat →
            p !! j = contentsBuffer !! ((i + j) mod L)%nat) as Hidx.
  { intros j Hj. rewrite Hmod. subst p.
    rewrite lookup_take_lt by lia. rewrite lookup_drop.
    rewrite Nat.mod_small by lia. done. }
  destruct (decide (count ≤ Z.of_nat r)) as [Hle | Hgt].
  - (* this slice fits: the failure comes later *)
    rewrite (Hfits Hle).
    set (w1 := {| rw_header := rw_header w;
                  rw_wrote := rw_wrote (WriteHeader w StatusOK);
                  rw_conn :=
                    {| wr_data := wr_data (rw_conn w) ++ p;
                       wr_room := Some (r - Z.to_nat count)%nat |} |}).
    destruct (IH w1 (i' + Z.to_nat count)%nat (tee_Write hasher p)
                (remain - count) (r - Z.to_nat count)%nat)
      as (out2 & w' & hasher' & count' & Hrun & Hlen2 & Hidx2 & Hbody2
          & Hwrote2 & Hhdr2); [lia | lia | reflexivity | lia |].
    rewrite Hrun.
    exists (p ++ out2), w', hasher', count'.
    split; [done |]. split; [rewrite length_app; lia |].
    split; [| split; [| split]].
    + intros j Hj.
      destruct (decide (j < length p)%nat) as [Hlt | Hge].
      * rewrite lookup_app_l by done. by apply Hidx.
      * rewrite lookup_app_r by lia.
        rewrite Hidx2 by (rewrite length_app in Hj; lia).
        rewrite Hmod. f_equal. f_equal. lia.
    + rewrite Hbody2. unfold sentBody. cbn [rw_conn wr_data].
      by rewrite app_assoc.
    + rewrite Hwrote2, (WriteHeader_sent w1); [done |].
      apply WriteHeader_is_Some.
    + intros key H1 H2. by rewrite Hhdr2.
  - (* this slice does not fit *)
    rewrite (Hshort ltac:(lia)).
    match goal with
    | |- context [http_Error ?w1 _ _] =>
        destruct (http_Error_late w1 "internal server error"
                    StatusInternalServerError)
          as (Hwrote & Hbody & Hhdr);
          [apply WriteHeader_is_Some | reflexivity |]
    end.
    eexists (take r p), _, _, count.
    split; [reflexivity |].
    split; [rewrite length_take; lia |].
    split; [| split; [| split]].
    + intros j Hj. rewrite length_take in Hj.
      rewrite lookup_take_lt by lia. apply Hidx. lia.
    + by rewrite Hbody.
    + by rewrite Hwrote.
    + intros key H1 H2. by rewrite Hhdr.
Qed.

(** X21.  A connection that fails after [r] bytes, fewer than the size:
    [serveFile] returns the status 500 and the error of the copy, but by
    then the header is out, so that the status on the wire is 200; the
    body on the wire is the first [r] bytes of the payload, and neither
    trailer has a value. *)
Theorem serveFile_write_failure (fuel : nat) (conn : Writer)
    (fileid : string) (size : Z) (checksumAlg : string) (r : nat) :
  checksumAlg = "" ∨ isChecksumAvailable checksumAlg = true →
  wr_room conn = Some r →
  Z.of_nat r < size →
  (Z.to_nat size ≤ fuel)%nat →
  ∃ (w' : ResponseWriter) (out : list byte) (count : Z),
    serveFile contentsBuffer fuel (NewResponseWriter conn) fileid size
      checksumAlg =
      Some (w', (StatusInternalServerError,
                 Some (ErrCopy count (ErrIO "write failed")))) ∧
    sentStatus w' = Some StatusOK ∧
    sentBody w' = wr_data conn ++ out ∧
    length out = r ∧
    (∀ j : nat, (j < r)%nat →
       out !! j = contentsBuffer !! (j mod length contentsBuffer)%nat) ∧
    sentTrailer w' "X-Content-Length" = "" ∧
    sentTrailer w' "X-Checksum-Value" = "".
Proof.
  intros Halg Hroom Hr Hfuel. unfold serveFile.
  set (lookup := if negb (String.eqb checksumAlg "") then _ else _).
  assert (∃ hasher : option Hash, lookup = inl hasher)
    as (hasher & ->).
  { subst lookup.
    destruct (String.eqb checksumAlg "") eqn:E; simpl;
      [apply String.eqb_eq in E | apply String.eqb_neq in E].
    - by exists None.
    - destruct Halg as [-> | Havail]; [done |].
      unfold isChecksumAvailable in Havail.
      destruct (getChecksumByName checksumAlg) as [h | e]; [| done].
      by exists (Some h). }
  cbn iota. unfold NewReader.
  match goal with
  | |- context [serveLoop _ ?w0 _ _ _] =>
      destruct (serveLoop_fails fuel w0 0 hasher size r)
        as (out & w' & hasher' & count & Hrun & Hlen & Hidx & Hbody
            & Hwrote & Hhdr); [lia | lia | exact Hroom | exact Hr |]
  end.
  rewrite Hrun. exists w', out, count.
  split; [reflexivity |].
  unfold sentStatus, sentTrailer. rewrite Hwrote.
  unfold WriteHeader. cbn [rw_wrote rw_set_header NewResponseWriter fmap
                            option_fmap option_map fst].
  split; [done |]. split; [exact Hbody |]. split; [exact Hlen |].
  split; [intros j Hj; rewrite Hidx by lia; done |].
  assert (Header_Get (rw_header w') "X-Content-Length" = "" ∧
          Header_Get (rw_header w') "X-Checksum-Value" = "") as [-> ->].
  { unfold Header_Get. rewrite !Hhdr by done.
    cbn [rw_header rw_set_header NewResponseWriter].
    destruct hasher as [h |]; unfold Header_Add, Header_Set;
      rewrite !lookup_insert_ne by done; rewrite lookup_empty; done. }
  split; by case_match.
Qed.
End FailureProperties.

(* ===================================================================== *)
(** ** [serveFile]: the checksum, and the whole way to the client *)
(* ===================================================================== *)

Section TransferProperties.
Context `{Library}.
Variable contentsBuffer : list byte.
Hypothesis buffer_not_empty : contentsBuffer ≠ [].

(** X22.  With a checksum that the registry has under some spelling,
    [serveFile] announces the algorithm in the header as the client spelt
    it, and the trailer [X-Checksum-Value] is the hexadecimal digest, by
    SHA-256 or SHA-512 according to the name without regard to case, of
    exactly the bytes of the body that went out. *)
Theorem serveFile_checksum_trailer (fuel : nat) (conn : Writer)
    (fileid : string) (size : Z) (checksumAlg : string) :
  0 < size →
  isChecksumAvailable checksumAlg = true →
  accepts conn size →
  (Z.to_nat size ≤ fuel)%nat →
  ∃ (w' : ResponseWriter) (out : list byte),
    serveFile contentsBuffer fuel (NewResponseWriter conn) fileid size
      checksumAlg = Some (w', (StatusOK, None)) ∧
    sentBody w' = wr_data conn ++ out ∧
    sentHeader w' "X-Checksum-Algorithm" = checksumAlg ∧
    (ToLower checksumAlg = "sha256" →
     sentTrailer w' "X-Checksum-Value" = EncodeToString (sha256_Sum out)) ∧
    (ToLower checksumAlg = "sha512" →
     sentTrailer w' "X-Checksum-Value" = EncodeToString (sha512_Sum out)).
Proof.
  intros Hsize Havail Hacc Hfuel.
  assert (checksumAlg ≠ "") as Hne.
  { intros ->. vm_compute in Havail. discriminate. }
  destruct (serveFile_ok contentsBuffer buffer_not_empty fuel
              (NewResponseWriter conn) fileid size checksumAlg
              Hsize (or_intror Havail) eq_refl Hacc Hfuel)
    as (w' & out & Hrun & _ & Hbody & _ & _ & _ & Hsum).
  destruct (Hsum Hne) as (h & Hh & Halgo & Hvalue).
  exists w', out. split; [exact Hrun |]. split; [exact Hbody |].
  split; [exact Halgo |].
  rewrite Hvalue. rewrite getChecksumByName_entries in Hh.
  split; intros Hname; rewrite Hname in Hh; cbn in Hh;
    injection Hh as <-; reflexivity.
Qed.

(** The query that [DownloadFile] builds. *)
Lemma buildRequest_query (serverAddr fileID : string) (size : Z)
    (doRequestChecksum : bool) (algorithm : string) :
  let req :=
    buildRequest serverAddr fileID size doRequestChecksum algorithm in
  Method req = "GET" ∧
  Query (req_URL req) !! "id" = Some [fileID] ∧
  Query (req_URL req) !! "size" = Some [FormatInt size] ∧
  Query (req_URL req) !! "checksum" =
    if doRequestChecksum then Some [algorithm] else None.
Proof.
  cbn zeta. unfold buildRequest, Header_Set.
  destruct doRequestChecksum; cbn [Method req_URL Query];
    repeat split;
    repeat (rewrite lookup_insert_eq || rewrite lookup_insert_ne by done);
    try done.
Qed.

(** A name of the registry is available. *)
Lemma isChecksumAvailable_name (algo : Z) :
  getChecksumName algo ≠ "" →
  isChecksumAvailable (getChecksumName algo) = true.
Proof.
  intros Hname.
  destruct (newChecksumer_named algo Hname) as (h0 & Hh0 & _).
  pose proof (getChecksumByName_name algo Hname) as Hbyname.
  rewrite Hh0 in Hbyname.
  unfold isChecksumAvailable. by rewrite Hbyname.
Qed.

(** X23.  From one end to the other in the mode BOTH, when the digests
    are not empty.  The request that [DownloadFile] builds for a size in
    (0, 1 TiB] and a key with a name is one that [handleGetFile] serves,
    with status 200, on a connection that takes the body; and when the
    response that the client receives is what the handler sent (status,
    algorithm, body in any chunks, trailers) and the sink takes every
    byte, the download succeeds, the sink has received [size] bytes and
    the report carries the checksum of the server. *)
Theorem download_of_served_file (fuel : nat) (conn : Writer)
    (peerCertificates : list (string * string)) (c : Client)
    (serverAddr fileID : string) (size : Z) (chkAlgo : Z) (dst : Writer)
    (n : Net) :
  let algorithm := getChecksumName chkAlgo in
  let req := buildRequest serverAddr fileID size true algorithm in
  let res :=
    DownloadFile c serverAddr fileID size ChecksumClientAndServer chkAlgo
      dst n in
  (∀ bs : list byte, sha256_Sum bs ≠ [] ∧ sha512_Sum bs ≠ []) →
  0 < size ≤ TB →
  algorithm ≠ "" →
  accepts conn size →
  wr_data conn = [] →
  (Z.to_nat size ≤ fuel)%nat →
  wr_room dst = None →
  ∃ w' : ResponseWriter,
    handleGetFile contentsBuffer fuel (NewResponseWriter conn) (Method req)
      (Some (Query (req_URL req))) peerCertificates = Some w' ∧
    sentStatus w' = Some StatusOK ∧
    ∀ resp : Response,
      transport c req = inl resp →
      Some (StatusCode resp) = sentStatus w' →
      Header_Get (resp_Header resp) "X-Checksum-Algorithm"
        = sentHeader w' "X-Checksum-Algorithm" →
      concat (rd_chunks (Body resp)) = sentBody w' →
      Header_Get (Trailer resp) "X-Content-Length"
        = sentTrailer w' "X-Content-Length" →
      Header_Get (Trailer resp) "X-Checksum-Value"
        = sentTrailer w' "X-Checksum-Value" →
      Err res.1.1 = None ∧
      Checksum res.1.1 =
        (algorithm ++ ":" ++ sentTrailer w' "X-Checksum-Value")%string ∧
      Z.of_nat (length (wr_data res.1.2)) =
        Z.of_nat (length (wr_data dst)) + size.
Proof.
  cbn zeta.
  intros Hdigests Hsize Hname Hacc Hempty Hfuel Hroom.
  pose proof (isChecksumAvailable_name chkAlgo Hname) as Havail.
  destruct (buildRequest_query serverAddr fileID size true
              (getChecksumName chkAlgo)) as (-> & Hid & Hsz & Hsum).
  rewrite (handleGetFile_serves contentsBuffer fuel _ _ peerCertificates
             fileID (FormatInt size) size (getChecksumName chkAlgo)
             Hid Hsz (parseSize_FormatInt size Hsize)
             (or_intror (conj Hsum Havail))).
  destruct (serveFile_ok contentsBuffer buffer_not_empty fuel
              (NewResponseWriter conn) fileID size (getChecksumName chkAlgo)
              ltac:(lia) (or_intror Havail) eq_refl Hacc Hfuel)
    as (w' & out & Hrun & Hst & Hbody & Hlen & _).
  rewrite Hrun. exists w'. split; [reflexivity |]. split; [exact Hst |].
  intros resp Hresp Hstatus Halgo Hchunks Hcl Hcv.
  destruct (served_file_verifies contentsBuffer buffer_not_empty Hdigests
              fuel conn fileID size chkAlgo c serverAddr fileID dst n
              w' (StatusOK, None) resp Hsize Hname Hacc Hempty Hfuel Hrun
              Hresp Hstatus Halgo Hchunks Hcl Hcv Hroom)
    as [Herr Hsumv].
  split; [exact Herr |]. split; [exact Hsumv |].
  (* the sink *)
  assert (StatusCode resp = StatusOK) as Hok by congruence.
  unfold sentBody at 2 in Hbody. cbn [NewResponseWriter rw_conn] in Hbody.
  rewrite Hempty in Hbody. cbn [app] in Hbody.
  assert (Z.of_nat (length (concat (rd_chunks (Body resp)))) = size) as Hn
    by (rewrite Hchunks, Hbody; exact Hlen).
  clear Hsumv. revert Herr.
  unfold DownloadFile. rewrite (guard_passes _ _ (or_intror Hname)).
  unfold_download. rewrite Hresp, Hok. simpl.
  repeat (case_match; simpl; try done);
    intros _; rewrite io_Copy_unbounded by done; simpl;
    rewrite length_app; lia.
Qed.
End TransferProperties.

(* ===================================================================== *)
(** ** From the worker to the server *)
(* ===================================================================== *)


Section WorkerTransferProperties.
Context `{Library}.
Variable contentsBuffer : list byte.
Hypothesis buffer_not_empty : contentsBuffer ≠ [].

End WorkerTransferProperties.

(* ===================================================================== *)
(** ** More instances *)
(* ===================================================================== *)

Lemma driverLoadRequest_verified_witness :
  let config (d : Z) : driverConfig (H:=toyFloat64) :=
    {| cfg_help := false; cfg_clients := "c1:4000";
       cfg_servers := "s1:5000,s2:5000"; cfg_concurrency := 0;
       cfg_duration := d; cfg_http1 := false; cfg_meanSize := 1;
       cfg_stdSize := @float_zero toyFloat64; cfg_plainHttp := false |} in
  (Duration (driverLoadRequest (config (-30))) = Z.abs (-30) ∧
   clientVerifyLoadRequest (driverLoadRequest (config (-30))) = None) ∧
  clientVerifyLoadRequest (driverLoadRequest (config minInt64))
    = Some (ErrInvalidDuration minInt64).
Proof.
  cbn zeta.
  assert (minInt64 ≤ -30 ≤ maxInt64) as H1
    by (split; vm_compute; discriminate).
  assert (minInt64 ≤ minInt64 ≤ maxInt64) as H2
    by (split; vm_compute; discriminate).
  assert (-30 ≠ minInt64) as H3 by (vm_compute; discriminate).
  split.
  - exact (proj1 (driverLoadRequest_verified (H:=toyFloat64)
                    {| cfg_help := false; cfg_clients := "c1:4000";
                       cfg_servers := "s1:5000,s2:5000"; cfg_concurrency := 0;
                       cfg_duration := -30; cfg_http1 := false;
                       cfg_meanSize := 1;
                       cfg_stdSize := @float_zero toyFloat64;
                       cfg_plainHttp := false |} H1) H3).
  - exact (proj2 (driverLoadRequest_verified (H:=toyFloat64)
                    {| cfg_help := false; cfg_clients := "c1:4000";
                       cfg_servers := "s1:5000,s2:5000"; cfg_concurrency := 0;
                       cfg_duration := minInt64; cfg_http1 := false;
                       cfg_meanSize := 1;
                       cfg_stdSize := @float_zero toyFloat64;
                       cfg_plainHttp := false |} H2) eq_refl).
Defined.

Lemma registry_keys_witness :
  (∃ h : Hash, getChecksumByKey (H:=toyLibrary) SHA512 = inl h) ∧
  getChecksumByName (H:=toyLibrary) (getChecksumName (H:=toyLibrary) SHA512)
    = getChecksumByKey (H:=toyLibrary) SHA512 ∧
  getChecksumName (H:=toyLibrary) 345 = "".
Proof.
  assert (getChecksumName (H:=toyLibrary) SHA512 ≠ "") as Hname
    by (vm_compute; discriminate).
  pose proof (registry_keys (H:=toyLibrary) SHA512) as X.
  pose proof (registry_keys (H:=toyLibrary) 345) as Y.
  split; [exact (proj1 (proj1 (proj2 X)) Hname) |].
  split; [exact (proj1 (proj2 (proj2 X) Hname)) |].
  destruct (decide (getChecksumName (H:=toyLibrary) 345 = "")) as [He | Hne];
    [exact He |].
  destruct (proj2 (proj1 Y) Hne) as [Hk | Hk]; discriminate Hk.
Defined.


Lemma clientEmitRequests_requests_witness :
  let req :=
    {| ServerAddrs := ["s1:5000"; "s2:5000"]; Duration := 60;
       Concurrency := 4; UseHttp1 := false; PlainHttp := false;
       MeanSize := 1000; StdSize := 10 |} in
  let c := constClient (okResponse "" [] None "0" "") in
  let draws :=
    [{| draw_server := 1; draw_size := 5 |};
     {| draw_server := 0; draw_size := 7 |};
     {| draw_server := 1; draw_size := 0 |}] in
  ∃ reqs : list DownloadReq,
    (clientEmitRequests req [c; c] 1 draws net0).1 = Some reqs ∧
    seqNumber <$> reqs = [1; 2; 3].
Proof.
  cbn zeta.
  pose proof (clientEmitRequests_requests
                {| ServerAddrs := ["s1:5000"; "s2:5000"]; Duration := 60;
                   Concurrency := 4; UseHttp1 := false; PlainHttp := false;
                   MeanSize := 1000; StdSize := 10 |}
                [constClient (okResponse "" [] None "0" "");
                 constClient (okResponse "" [] None "0" "")]
                1
                [{| draw_server := 1; draw_size := 5 |};
                 {| draw_server := 0; draw_size := 7 |};
                 {| draw_server := 1; draw_size := 0 |}]
                net0 eq_refl) as X.
  assert (Forall (λ d, (draw_server d < 2)%nat)
            [{| draw_server := 1; draw_size := 5 |};
             {| draw_server := 0; draw_size := 7 |};
             {| draw_server := 1; draw_size := 0 |}]) as Hdraws
    by (repeat constructor).
  assert (Z.of_nat 3 ≤ maxUint64) as Hmax by (vm_compute; discriminate).
  specialize (X Hdraws Hmax).
  destruct X as [reqs X]. exists reqs.
  split; [exact (proj1 X) | exact (proj1 (proj2 X))].
Defined.

Lemma clientCollectResponses_counts_witness :
  let resp (k : Z) (e : option error) :=
    {| resp_seqNumber := k; resp_start := 0; resp_end := 10;
       resp_size := 1048576; resp_err := e |} in
  let summary :=
    (clientCollectResponses (H:=toyFloat64) 4
       [resp 1 None; resp 2 (Some ErrMissingContentLength); resp 3 None]
       net0).1 in
  lr_ErrCount summary = 1 ∧ lr_NumFiles summary = 2 ∧
  lr_Concurrency summary = 4.
Proof.
  cbn zeta.
  assert (Z.of_nat 3 ≤ maxUint64) as Hmax by (vm_compute; discriminate).
  pose proof (clientCollectResponses_counts (H:=toyFloat64) 4
                [{| resp_seqNumber := 1; resp_start := 0; resp_end := 10;
                    resp_size := 1048576; resp_err := None |};
                 {| resp_seqNumber := 2; resp_start := 0; resp_end := 10;
                    resp_size := 1048576;
                    resp_err := Some ErrMissingContentLength |};
                 {| resp_seqNumber := 3; resp_start := 0; resp_end := 10;
                    resp_size := 1048576; resp_err := None |}]
                net0 Hmax) as X.
  split; [exact (proj1 X) |].
  split; [exact (proj1 (proj2 X)) | exact (proj1 (proj2 (proj2 X)))].
Defined.

Lemma worker_collector_counts_witness :
  let req (k deadline : Z) :=
    {| seqNumber := k; server := "localhost:5678";
       fsclient := constClient (okResponse "" [[x01; x02; x03]] None "3" "");
       fileID := "file"; size := 3; notAfter := deadline; replyTo := 1 |} in
  let p := {| net := net0; chans := ∅; wg := 1 |} in
  let received :=
    default []
      (chans (clientWorker (H:=toyLibrary) 0 [req 1 100; req 2 (-1)] p).2
         !! 1%nat) in
  let summary :=
    (clientCollectResponses (H:=toyFloat64) 4 received net0).1 in
  lr_NumFiles summary + lr_ErrCount summary ≤ 2.
Proof.
  cbn zeta.
  assert (Z.of_nat 2 ≤ maxUint64) as Hmax by (vm_compute; discriminate).
  assert (Forall (λ q, replyTo q = 1%nat)
            [{| seqNumber := 1; server := "localhost:5678";
                fsclient :=
                  constClient (okResponse "" [[x01; x02; x03]] None "3" "");
                fileID := "file"; size := 3; notAfter := 100;
                replyTo := 1 |};
             {| seqNumber := 2; server := "localhost:5678";
                fsclient :=
                  constClient (okResponse "" [[x01; x02; x03]] None "3" "");
                fileID := "file"; size := 3; notAfter := -1;
                replyTo := 1 |}]) as Hch
    by (repeat constructor).
  pose proof (worker_collector_counts (H:=toyLibrary) (H0:=toyFloat64) 0 4
                _ 1 {| net := net0; chans := ∅; wg := 1 |} net0 Hch eq_refl
                Hmax) as X.
  exact (proj2 (proj2 X)).
Defined.

Lemma DownloadFile_not_served_witness :
  let resp :=
    {| StatusCode := 400; resp_Header := ∅;
       Body := {| rd_chunks := [[x34; x30; x30]]; rd_err := None |};
       Trailer := ∅ |} in
  let res :=
    DownloadFile (H:=toyLibrary) (constClient resp) "localhost:5678" "test3"
      0 ChecksumNone SHA256 Discard net0 in
  Err res.1.1 = Some (ErrDownloading [x34; x30; x30]) ∧
  res.1.2 = Discard ∧
  End_ res.1.1 = 0.
Proof.
  cbn zeta.
  assert (∀ r : Response,
            transport
              (constClient
                 {| StatusCode := 400; resp_Header := ∅;
                    Body := {| rd_chunks := [[x34; x30; x30]];
                               rd_err := None |};
                    Trailer := ∅ |})
              (buildRequest "localhost:5678" "test3" 0
                 ((ChecksumNone =? ChecksumServerOnly)
                  || (ChecksumNone =? ChecksumClientAndServer))
                 (getChecksumName (H:=toyLibrary) SHA256)) = inl r →
            StatusCode r ≠ StatusOK) as Hfail.
  { intros r Hr. injection Hr as <-. discriminate. }
  pose proof (DownloadFile_not_served (H:=toyLibrary) _ "localhost:5678"
                "test3" 0 ChecksumNone SHA256 Discard net0
                (or_introl eq_refl) Hfail) as X.
  split; [exact (proj1 X) |].
  split; [exact (proj1 (proj2 X)) | exact (proj1 (proj2 (proj2 (proj2 X))))].
Defined.

Lemma DownloadFile_times_witness :
  let resp := okResponse "" [[x01; x02; x03]] None "3" "" in
  let report :=
    (DownloadFile (H:=toyLibrary) (constClient resp) "localhost:5678" "test1"
       3 ChecksumNone SHA256 Discard net0).1.1 in
  Start report = 0 ∧ TimeToFirstByte report = 10 ∧ End_ report = 20.
Proof.
  cbn zeta.
  pose proof (DownloadFile_times (H:=toyLibrary)
                (constClient (okResponse "" [[x01; x02; x03]] None "3" ""))
                "localhost:5678" "test1" 3 ChecksumNone SHA256 Discard net0
                (or_introl eq_refl)) as X.
  split; [exact (proj1 X) |].
  split; [exact (proj1 (proj2 X)) |].
  exact (proj1 (proj2 (proj2 (proj2 X)) eq_refl)).
Defined.

Lemma DownloadFile_client_only_digest_witness :
  let resp := okResponse "" [[x01; x02]; [x03]] None "3" "" in
  let res :=
    DownloadFile (H:=toyLibrary) (constClient resp) "localhost:5678" "test6"
      3 ChecksumClientOnly SHA512 Discard net0 in
  wr_data res.1.2 = [x01; x02; x03] ∧
  Err res.1.1 = None ∧
  Checksum res.1.1 = "sha512:030201".
Proof.
  cbn zeta.
  assert (getChecksumName (H:=toyLibrary) SHA512 ≠ "") as Hname
    by (vm_compute; discriminate).
  pose proof (DownloadFile_client_only_digest (H:=toyLibrary)
                (constClient (okResponse "" [[x01; x02]; [x03]] None "3" ""))
                "localhost:5678" "test6" 3 SHA512 Discard net0
                (okResponse "" [[x01; x02]; [x03]] None "3" "")
                Hname eq_refl eq_refl eq_refl) as X.
  destruct X as [h0 X].
  assert (inl h0 = getChecksumByKey (H:=toyLibrary) SHA512) as Hh0
    by (symmetry; exact (proj1 X)).
  vm_compute in Hh0. injection Hh0 as ->.
  split; [exact (proj1 (proj2 X)) |].
  assert (Err (DownloadFile (H:=toyLibrary)
                 (constClient
                    (okResponse "" [[x01; x02]; [x03]] None "3" ""))
                 "localhost:5678" "test6" 3 ChecksumClientOnly SHA512
                 Discard net0).1.1 = None) as Herr.
  { apply (proj2 (proj1 (proj2 (proj2 X)))).
    split; [vm_compute; discriminate | vm_compute; reflexivity]. }
  split; [exact Herr |].
  exact (proj2 (proj2 (proj2 X)) Herr).
Defined.

Lemma DownloadFile_length_decimal_witness :
  let report (clength : string) :=
    (DownloadFile (H:=toyLibrary)
       (constClient (okResponse "" [[x01; x02; x03]] None clength ""))
       "localhost:5678" "test1" 3 ChecksumNone SHA256 Discard net0).1.1 in
  Err (report (FormatInt 3)) = None ∧
  Err (report (FormatInt 5)) = Some (ErrBodyLength 5 3).
Proof.
  cbn zeta.
  assert (0 ≤ 3 ≤ maxInt64) as H3 by (split; vm_compute; discriminate).
  assert (0 ≤ 5 ≤ maxInt64) as H5 by (split; vm_compute; discriminate).
  split.
  - exact (proj1 (proj1 (DownloadFile_length_decimal (H:=toyLibrary)
                           (constClient
                              (okResponse "" [[x01; x02; x03]] None
                                 (FormatInt 3) ""))
                           "localhost:5678" "test1" 3 SHA256 Discard net0
                           (okResponse "" [[x01; x02; x03]] None
                              (FormatInt 3) "")
                           3 eq_refl eq_refl H3 eq_refl) eq_refl)).
  - apply (proj2 (DownloadFile_length_decimal (H:=toyLibrary)
                    (constClient
                       (okResponse "" [[x01; x02; x03]] None
                          (FormatInt 5) ""))
                    "localhost:5678" "test1" 3 SHA256 Discard net0
                    (okResponse "" [[x01; x02; x03]] None (FormatInt 5) "")
                    5 eq_refl eq_refl H5 eq_refl)).
    vm_compute. discriminate.
Defined.

Lemma handleGetFile_refuses_witness :
  let status (method : string) (query : option Header) :=
    sentStatus <$>
      handleGetFile (H:=toyLibrary) [x01; x02; x03] 10
        (NewResponseWriter Discard) method query [] in
  status "POST" None = Some (Some StatusMethodNotAllowed) ∧
  status "GET" (Some {["size" := ["1234"]]}) = Some (Some StatusBadRequest).
Proof.
  cbn zeta. split.
  - apply (proj1 (handleGetFile_refuses (H:=toyLibrary) [x01; x02; x03] 10
                    Discard "POST" None [])).
    discriminate.
  - apply (proj2 (handleGetFile_refuses (H:=toyLibrary) [x01; x02; x03] 10
                    Discard "GET" (Some {["size" := ["1234"]]}) [])
             eq_refl).
    left. intros fileID Hid. vm_compute in Hid. discriminate Hid.
Defined.

Lemma serveFile_unsupported_checksum_witness :
  ∃ w' : ResponseWriter,
    serveFile (H:=toyLibrary) [x01; x02; x03] 10 (NewResponseWriter Discard)
      "file-1" 1234 "md5" =
      Some (w', (StatusBadRequest, Some (ErrUnsupportedChecksum "md5"))) ∧
    sentStatus w' = Some StatusBadRequest.
Proof.
  assert ("md5" ≠ "") as Hne by discriminate.
  pose proof (serveFile_unsupported_checksum (H:=toyLibrary) [x01; x02; x03]
                10 (NewResponseWriter Discard) "file-1" 1234 "md5"
                Hne eq_refl eq_refl eq_refl) as X.
  destruct X as [w' X]. exists w'.
  split; [exact (proj1 X) | exact (proj1 (proj2 X))].
Defined.

Lemma serveFile_checksum_trailer_witness :
  ∃ (w' : ResponseWriter) (out : list byte),
    serveFile (H:=toyLibrary) [x01; x02; x03; x04; x05] 7
      (NewResponseWriter Discard) "file-1" 7 "SHA256" =
      Some (w', (StatusOK, None)) ∧
    sentHeader w' "X-Checksum-Algorithm" = "SHA256" ∧
    sentTrailer w' "X-Checksum-Value" =
      EncodeToString (sha256_Sum (Library:=toyLibrary) out).
Proof.
  assert ([x01; x02; x03; x04; x05] ≠ []) as Hbuf by discriminate.
  assert (0 < 7) as Hsize by lia.
  assert (7 ≤ 7)%nat as Hfuel by lia.
  pose proof (serveFile_checksum_trailer (H:=toyLibrary)
                [x01; x02; x03; x04; x05] Hbuf 7 Discard "file-1" 7 "SHA256"
                Hsize eq_refl I Hfuel) as X.
  destruct X as [w' X]. destruct X as [out X]. exists w', out.
  split; [exact (proj1 X) |].
  split; [exact (proj1 (proj2 (proj2 X))) |].
  exact (proj1 (proj2 (proj2 (proj2 X))) eq_refl).
Defined.

Lemma serveFile_write_failure_witness :
  let conn := {| wr_data := []; wr_room := Some 3%nat |} in
  ∃ (w' : ResponseWriter) (out : list byte) (count : Z),
    serveFile (H:=toyLibrary) [x01; x02; x03; x04; x05] 7
      (NewResponseWriter conn) "file-1" 7 "" =
      Some (w', (StatusInternalServerError,
                 Some (ErrCopy count (ErrIO "write failed")))) ∧
    sentStatus w' = Some StatusOK ∧
    length out = 3%nat ∧
    sentTrailer w' "X-Content-Length" = "".
Proof.
  cbn zeta.
  assert ([x01; x02; x03; x04; x05] ≠ []) as Hbuf by discriminate.
  assert (Z.of_nat 3 < 7) as Hr by lia.
  assert (Z.to_nat 7 ≤ 7)%nat as Hfuel by lia.
  pose proof (serveFile_write_failure (H:=toyLibrary)
                [x01; x02; x03; x04; x05] Hbuf 7
                {| wr_data := []; wr_room := Some 3%nat |} "file-1" 7 "" 3
                (or_introl eq_refl) eq_refl Hr Hfuel) as X.
  destruct X as [w' X]. destruct X as [out X]. destruct X as [count X].
  exists w', out, count.
  split; [exact (proj1 X) |].
  split; [exact (proj1 (proj2 X)) |].
  split; [exact (proj1 (proj2 (proj2 (proj2 X)))) |].
  exact (proj1 (proj2 (proj2 (proj2 (proj2 (proj2 X)))))).
Defined.

Lemma download_of_served_file_witness :
  let resp :=
    okResponse "sha256" [[x01; x02; x03]; [x04; x05; x01; x02]] None "7"
      "00010203" in
  let res :=
    DownloadFile (H:=toyDigests) (constClient resp) "localhost:5678" "test8"
      7 ChecksumClientAndServer SHA256 Discard net0 in
  Err res.1.1 = None ∧ Checksum res.1.1 = "sha256:00010203".
Proof.
  cbn zeta.
  assert ([x01; x02; x03; x04; x05] ≠ []) as Hbuf by discriminate.
  assert (∀ bs : list byte,
            sha256_Sum (Library:=toyDigests) bs ≠ [] ∧
            sha512_Sum (Library:=toyDigests) bs ≠ []) as Hdigests
    by (intros bs; split; discriminate).
  assert (0 < 7 ≤ TB) as Hsize by (split; vm_compute; congruence).
  assert (getChecksumName (H:=toyDigests) SHA256 ≠ "") as Hname
    by (vm_compute; discriminate).
  assert (Z.to_nat 7 ≤ 7)%nat as Hfuel by lia.
  pose proof (download_of_served_file (H:=toyDigests)
                [x01; x02; x03; x04; x05] Hbuf 7 Discard []
                (constClient
                   (okResponse "sha256"
                      [[x01; x02; x03]; [x04; x05; x01; x02]] None "7"
                      "00010203"))
                "localhost:5678" "test8" 7 SHA256 Discard net0
                Hdigests Hsize Hname I eq_refl Hfuel eq_refl) as X.
  destruct X as [w' X]. destruct X as [Hrun X]. destruct X as [_ Hall].
  assert (w' =
          default (NewResponseWriter Discard)
            (handleGetFile (H:=toyDigests) [x01; x02; x03; x04; x05] 7
               (NewResponseWriter Discard) "GET"
               (Some
                  (Query
                     (req_URL
                        (buildRequest "localhost:5678" "test8" 7 true
                           (getChecksumName (H:=toyDigests) SHA256)))))
               [])) as Hw'
    by (apply (f_equal (default (NewResponseWriter Discard))) in Hrun;
        symmetry; exact Hrun).
  rewrite Hw' in Hall.
  pose proof (Hall
                (okResponse "sha256"
                   [[x01; x02; x03]; [x04; x05; x01; x02]] None "7"
                   "00010203")
                eq_refl eq_refl eq_refl eq_refl eq_refl eq_refl) as Y.
  split; [exact (proj1 Y) | exact (proj1 (proj2 Y))].
Defined.

